(** * Inbound-message moderation pipeline: a shallow embedding

    The development models the webhook pipeline of the WhatsApp
    moderation server ([server/routes/webhook.js]), the services it
    calls ([hateSpeechDetection.js], [contentModeration.js],
    [whatsappService.js], [speechToText.js]), the [User], [Message] and
    [NewWord] models and the [review_word] socket handler.

    Conventions.
    - A JavaScript number is a rational ([Q]): the code only compares
      numbers, against each other and against decimal literals, and the
      order of finite doubles is the order of the rationals they denote.
      [NaN] is left out.
    - A JavaScript string is a [string]. [String.prototype.toLowerCase]
      is not spelled out: it is the function [toLowerCase] of the [World]
      record, whatever case mapping the runtime applies.
    - An [async] function that talks to an external service is a pure
      function of the service's answer to that one call; the answers are
      gathered in a [World] record. Every such call is logged in the
      store's [trace], in order.
    - Code that mutates the database, or throws, runs in the monad [M]:
      a state transformer over [Store] whose result is a value or an
      exception. State written before a throw stays written. *)

From Stdlib Require Import String Ascii List Bool Arith QArith Lia.
From Stdlib Require Import NArith Sorted Permutation.
Import ListNotations.
Local Open Scope string_scope.
Local Open Scope list_scope.

(** ** JavaScript primitives *)

Module Js.

(** The lower-case form of one code unit when it is one of [A]-[Z]. *)
Definition lower_ascii (c : ascii) : ascii :=
  let n := nat_of_ascii c in
  if (65 <=? n)%nat && (n <=? 90)%nat then ascii_of_nat (n + 32) else c.

(** The letters [A]-[Z] folded to lower case, everything else kept: the
    case a regular expression with the option [i] ignores when its
    pattern is made of word characters, and what [toLowerCase] does to a
    string of ASCII characters. *)
Fixpoint fold_ascii (s : string) : string :=
  match s with
  | EmptyString => EmptyString
  | String c s' => String (lower_ascii c) (fold_ascii s')
  end.

(** [s.includes(sub)]: [sub] occurs in [s] as a contiguous substring. *)
Fixpoint includes (s sub : string) : bool :=
  if String.prefix sub s then true
  else match s with
       | EmptyString => false
       | String _ s' => includes s' sub
       end.

(** [a > b] on numbers. *)
Definition gt (a b : Q) : bool := negb (Qle_bool a b).

(** The class [\s] restricted to ASCII: tab, line feed, vertical tab, form
    feed, carriage return, space. *)
Definition is_space (c : ascii) : bool :=
  let n := nat_of_ascii c in
  ((9 <=? n)%nat && (n <=? 13)%nat) || (n =? 32)%nat.

(** The class [\w]: ASCII letters, digits and underscore. *)
Definition is_word_char (c : ascii) : bool :=
  let n := nat_of_ascii c in
  ((48 <=? n)%nat && (n <=? 57)%nat) || ((65 <=? n)%nat && (n <=? 90)%nat)
  || ((97 <=? n)%nat && (n <=? 122)%nat) || (n =? 95)%nat.

(** [s.split(/\s+/)]: [cur] is the token being read, [in_sep] tells
    whether the previous code unit belonged to a separator run. *)
Fixpoint split_ws (s cur : string) (in_sep : bool) : list string :=
  match s with
  | EmptyString => [cur]
  | String c s' =>
      if is_space c then
        if in_sep then split_ws s' cur true
        else cur :: split_ws s' EmptyString true
      else split_ws s' (cur ++ String c EmptyString) false
  end.

(** [word.replace(/[^\w]/g, '')]. *)
Fixpoint strip_non_word (s : string) : string :=
  match s with
  | EmptyString => EmptyString
  | String c s' =>
      if is_word_char c then String c (strip_non_word s') else strip_non_word s'
  end.

(** [arr.includes(x)] on an array of strings. *)
Definition array_includes (arr : list string) (x : string) : bool :=
  existsb (String.eqb x) arr.

(** A value on its way to a [String] path of a schema: a string, a
    function (named by the property that holds it), or a plain object. *)
Inductive Value :=
| Str (s : string)
| Fun (name : string)
| Obj.

(** [obj[key]] for a key that the object literal [obj] does not own: the
    member of [Object.prototype] of that name, which is a function or,
    under [__proto__], the prototype object itself; [None] is
    [undefined]. *)
Definition Object_prototype (key : string) : option Value :=
  if key =? "__proto__" then Some Obj
  else if array_includes
            ["constructor"; "hasOwnProperty"; "isPrototypeOf";
             "propertyIsEnumerable"; "toLocaleString"; "toString"; "valueOf";
             "__defineGetter__"; "__defineSetter__"; "__lookupGetter__";
             "__lookupSetter__"] key
  then Some (Fun key)
  else None.

End Js.

(** ** services/hateSpeechDetection.js *)

Module HateSpeechDetection.

(** One entry of [response.data[0]]. *)
Record RawResult := { label : string; score : Q }.

Record DetectedCategory :=
  { dc_category : Js.Value; dc_label : string; dc_confidence : Q }.

(** The own properties of the table [categories]; [None] is a key the
    literal does not list. *)
Definition categories (l : string) : option string :=
  if l =? "toxic" then Some "hate_speech"
  else if l =? "severe_toxic" then Some "hate_speech"
  else if l =? "obscene" then Some "explicit_content"
  else if l =? "threat" then Some "violence"
  else if l =? "insult" then Some "hate_speech"
  else if l =? "identity_hate" then Some "hate_speech"
  else None.

(** [categories[result.label] || 'other']: the table's entry; for a label
    the table does not list, what the lookup finds up the prototype chain
    (every member of [Object.prototype] is truthy); ['other'] when it
    finds nothing. *)
Definition category_of (l : string) : Js.Value :=
  match categories l with
  | Some c => Js.Str c
  | None =>
      match Js.Object_prototype l with
      | Some v => v
      | None => Js.Str "other"
      end
  end.

(** The three locals the [forEach] loop updates. *)
Record Acc :=
  { detectedCategories : list DetectedCategory;
    maxConfidence : Q;
    primaryCategory : option Js.Value }.

Definition acc0 : Acc :=
  {| detectedCategories := []; maxConfidence := 0; primaryCategory := None |}.

(** Body of [results.forEach(result => ...)]. *)
Definition forEach_body (acc : Acc) (result : RawResult) : Acc :=
  let category := category_of (label result) in
  if Js.gt (score result) (1 # 2) then
    let pushed :=
      detectedCategories acc ++
        [ {| dc_category := category; dc_label := label result;
             dc_confidence := score result |} ] in
    if Js.gt (score result) (maxConfidence acc) then
      {| detectedCategories := pushed;
         maxConfidence := score result;
         primaryCategory := Some category |}
    else
      {| detectedCategories := pushed;
         maxConfidence := maxConfidence acc;
         primaryCategory := primaryCategory acc |}
  else acc.

(** What [detectHateSpeech] returns: [{success: false, error}] or
    [{success: true, detected, confidence, primaryCategory, categories}]. *)
Inductive Result :=
| Failure
| Success (detected : bool) (confidence : Q)
          (primary : option Js.Value) (cats : list DetectedCategory).

(** [detectHateSpeech(text)], as a function of the model's HTTP answer:
    [None] when the request (or reading the answer) throws inside the
    [try], [Some results] for [response.data[0]]. *)
Definition detectHateSpeech (response : option (list RawResult)) : Result :=
  match response with
  | None => Failure
  | Some results =>
      let acc := fold_left forEach_body results acc0 in
      Success (0 <? length (detectedCategories acc))%nat
              (maxConfidence acc) (primaryCategory acc) (detectedCategories acc)
  end.

End HateSpeechDetection.

(** ** services/contentModeration.js *)

Module ContentModeration.

(** [response.data.responses[0].safeSearchAnnotation]: three likelihood
    labels. *)
Record SafeSearch := { adult : string; ss_violence : string; racy : string }.

Record Category :=
  { detected : bool; confidence : Q; category : option string }.

Record Moderation :=
  { nudity : Category; violence : Category; explicit : Category }.

Inductive Result :=
| Failure
| Success (moderation : Moderation).

(** [getConfidenceScore(level)]: the table, or 0.5 for any other label. *)
Definition getConfidenceScore (level : string) : Q :=
  if level =? "VERY_LIKELY" then 9 # 10
  else if level =? "LIKELY" then 7 # 10
  else if level =? "POSSIBLE" then 5 # 10
  else if level =? "UNLIKELY" then 3 # 10
  else if level =? "VERY_UNLIKELY" then 1 # 10
  else 5 # 10.

(** [level === 'LIKELY' || level === 'VERY_LIKELY'], the test behind each
    [detected] of [moderateImage]. *)
Definition likely (level : string) : bool :=
  (level =? "LIKELY") || (level =? "VERY_LIKELY").

(** [moderateImage(imageBuffer)] as a function of the Vision answer;
    [None] when anything inside the [try] throws. *)
Definition moderateImage (response : option SafeSearch) : Result :=
  match response with
  | None => Failure
  | Some safeSearch =>
      Success
        {| nudity :=
             {| detected := likely (adult safeSearch);
                confidence := getConfidenceScore (adult safeSearch);
                category := Some "adult" |};
           violence :=
             {| detected := likely (ss_violence safeSearch);
                confidence := getConfidenceScore (ss_violence safeSearch);
                category := Some "violence" |};
           explicit :=
             {| detected := likely (racy safeSearch);
                confidence := getConfidenceScore (racy safeSearch);
                category := Some "racy" |} |}
  end.

(** [pollVideoResults(jobId)]: the fixed result ([processingTime] is not
    read by the pipeline and is left out). *)
Definition pollVideoResults (jobId : option string) : Moderation :=
  {| nudity := {| detected := false; confidence := 1 # 10; category := None |};
     violence := {| detected := false; confidence := 1 # 10; category := None |};
     explicit := {| detected := false; confidence := 1 # 10; category := None |} |}.

(** [moderateVideo(videoBuffer)] as a function of the job submission:
    [None] when the POST throws, [Some h] with [h] the
    [operation-location] header of the answer. *)
Definition moderateVideo (response : option (option string)) : Result :=
  match response with
  | None => Failure
  | Some jobId => Success (pollVideoResults jobId)
  end.

End ContentModeration.

(** ** models/User.js, models/NewWord.js, models/Message.js *)

Record ModerationSettings :=
  { hateSpeechEnabled : bool;
    nudityEnabled : bool;
    violenceEnabled : bool;
    autoBlock : bool;
    customBlockedWords : list string;
    customAllowedWords : list string }.

Record User :=
  { user_id : nat;
    whatsappNumber : string;
    moderationSettings : ModerationSettings }.

Module NewWord.

(** The enum of the [status] path. *)
Inductive Status := pending | approved | rejected | ignored.

Record UserDecision :=
  { markedAsHateSpeech : bool;
    decisionDate : option nat;
    decisionReason : option string }.

Record t :=
  { _id : nat;
    userId : nat;
    word : string;
    originalText : option string;
    frequency : nat;
    firstDetected : nat;
    lastDetected : nat;
    confidence : Q;
    status : Status;
    userDecision : UserDecision;
    updatedAt : nat }.

(** [this.detection.frequency += 1; lastDetected = updatedAt = new Date()]. *)
Definition incrementFrequency (now : nat) (this : t) : t :=
  {| _id := _id this; userId := userId this; word := word this;
     originalText := originalText this;
     frequency := frequency this + 1;
     firstDetected := firstDetected this;
     lastDetected := now;
     confidence := confidence this;
     status := status this;
     userDecision := userDecision this;
     updatedAt := now |}.

(** The three decision methods differ in the status and the flag they
    write; [decide st flag] is their common body. [reason] is the
    parameter after its default [''] has been applied. *)
Definition decide (st : Status) (flag : bool) (now : nat) (reason : string)
    (this : t) : t :=
  {| _id := _id this; userId := userId this; word := word this;
     originalText := originalText this;
     frequency := frequency this;
     firstDetected := firstDetected this;
     lastDetected := lastDetected this;
     confidence := confidence this;
     status := st;
     userDecision :=
       {| markedAsHateSpeech := flag;
          decisionDate := Some now;
          decisionReason := Some reason |};
     updatedAt := now |}.

Definition markAsHateSpeech := decide approved true.
Definition ignoreWord := decide ignored false.
Definition rejectWord := decide rejected false.

End NewWord.

Module Message.

(** [moderation.status]. *)
Inductive Status := pending | approved | blocked | error.

Definition Status_eqb (a b : Status) : bool :=
  match a, b with
  | pending, pending | approved, approved | blocked, blocked | error, error => true
  | _, _ => false
  end.

(** [content]: the two paths the pipeline reads. The other six (media URL,
    MIME type, size, duration, thumbnail, file name) are copied from the
    webhook payload and never read again. *)
Record Content := { text : option string; mediaId : option string }.

Record Transcription :=
  { tr_text : string; tr_confidence : Q; tr_language : string }.

(** [hateSpeech]; [category] holds what the verdict was given, which
    need not be a string (see [HateSpeechDetection.category_of]). *)
Record HateSpeechSignal :=
  { hs_detected : bool; hs_confidence : Q; hs_category : option Js.Value }.

(** The object a [process*Message] function returns and that is assigned
    to [message.moderation]; an absent key is [None]. *)
Record Moderation :=
  { status : Status;
    reason : option string;
    hateSpeech : option HateSpeechSignal;
    contentModeration : option ContentModeration.Moderation;
    transcription : option Transcription }.

Record Response :=
  { sent : bool; messageId : string; rs_content : Js.Value; sentAt : nat }.

Record t :=
  { _id : nat;
    userId : nat;
    whatsappMessageId : string;
    from : string;
    to : string;
    messageType : string;
    content : Content;
    msg_transcription : option Transcription;
    moderation : option Moderation;
    response : option Response;
    metadata_timestamp : nat;
    metadata_status : string }.

(** The enum of the [messageType] path. *)
Definition messageType_enum : list string :=
  ["text"; "image"; "video"; "audio"; "document"].

(** Schema validation of a document built by the webhook: a required
    string path must hold a non-empty string, and [messageType] a member
    of its enum. The other required paths ([userId], [metadata.timestamp],
    [metadata.direction]) are always set by the webhook. *)
Definition validate (m : t) : bool :=
  negb (whatsappMessageId m =? "")
  && negb (from m =? "")
  && negb (to m =? "")
  && Js.array_includes messageType_enum (messageType m).

(** The cast of a value assigned to a [String] path: a string is kept, a
    function is replaced by its source text, a plain object does not
    cast. *)
Definition castable (v : Js.Value) : bool :=
  match v with
  | Js.Obj => false
  | Js.Str _ | Js.Fun _ => true
  end.

(** The two [String] paths of the document that the webhook may assign
    something else than a string, [moderation.hateSpeech.category] and
    [response.content], hold values that cast. A failed cast is reported
    by the next [save()] as a validation error. *)
Definition casts (m : t) : bool :=
  match moderation m with
  | Some r =>
      match hateSpeech r with
      | Some h =>
          match hs_category h with
          | Some v => castable v
          | None => true
          end
      | None => true
      end
  | None => true
  end
  && match response m with
     | Some r => castable (rs_content r)
     | None => true
     end.

Definition set_transcription (tr : Transcription) (m : t) : t :=
  {| _id := _id m; userId := userId m; whatsappMessageId := whatsappMessageId m;
     from := from m; to := to m; messageType := messageType m;
     content := content m; msg_transcription := Some tr;
     moderation := moderation m; response := response m;
     metadata_timestamp := metadata_timestamp m;
     metadata_status := metadata_status m |}.

(** [message.moderation = moderationResult]: the schema has no
    [moderation.transcription] path, so that key is not kept. *)
Definition set_moderation (r : Moderation) (m : t) : t :=
  {| _id := _id m; userId := userId m; whatsappMessageId := whatsappMessageId m;
     from := from m; to := to m; messageType := messageType m;
     content := content m; msg_transcription := msg_transcription m;
     moderation :=
       Some {| status := status r; reason := reason r;
               hateSpeech := hateSpeech r;
               contentModeration := contentModeration r;
               transcription := None |};
     response := response m;
     metadata_timestamp := metadata_timestamp m;
     metadata_status := metadata_status m |}.

Definition set_response (r : Response) (m : t) : t :=
  {| _id := _id m; userId := userId m; whatsappMessageId := whatsappMessageId m;
     from := from m; to := to m; messageType := messageType m;
     content := content m; msg_transcription := msg_transcription m;
     moderation := moderation m; response := Some r;
     metadata_timestamp := metadata_timestamp m;
     metadata_status := metadata_status m |}.

Definition set_metadata_status (st : string) (m : t) : t :=
  {| _id := _id m; userId := userId m; whatsappMessageId := whatsappMessageId m;
     from := from m; to := to m; messageType := messageType m;
     content := content m; msg_transcription := msg_transcription m;
     moderation := moderation m; response := response m;
     metadata_timestamp := metadata_timestamp m;
     metadata_status := st |}.

(** [this.moderation.status], with the schema default. *)
Definition moderation_status (m : t) : Status :=
  match moderation m with Some r => status r | None => pending end.

(** The unused model method [shouldBlock]: the only place where the
    numbers 0.7 and 0.8 are compared against a confidence. An absent
    signal is [undefined.detected]-falsy here. *)
Definition shouldBlock (m : t) : option string :=
  let hs := match moderation m with Some r => hateSpeech r | None => None end in
  let cm := match moderation m with Some r => contentModeration r | None => None end in
  let cat (f : ContentModeration.Moderation -> ContentModeration.Category) :=
    match cm with
    | Some c => ContentModeration.detected (f c)
                && Js.gt (ContentModeration.confidence (f c)) (8 # 10)
    | None => false
    end in
  if match hs with
     | Some h => hs_detected h && Js.gt (hs_confidence h) (7 # 10)
     | None => false
     end then Some "hate_speech"
  else if cat ContentModeration.nudity then Some "nudity"
  else if cat ContentModeration.violence then Some "violence"
  else if cat ContentModeration.explicit then Some "explicit_content"
  else None.

End Message.

(** ** The outside world and the database *)

(** A media payload as downloaded; its bytes are never inspected. *)
Definition Buffer := string.

(** The answers of the collaborators to the calls of one webhook
    delivery, and the one builtin of the runtime that is left open.
    [None] is the failure answer: the service wrapper caught an exception
    and returned [{success: false}]. *)
Record World :=
  { (** [User.findOne({whatsappNumber})] *)
    User_findOne : string -> option User;
    (** [whatsappService.downloadMedia(mediaId)] *)
    downloadMedia : option string -> option Buffer;
    (** [speechToTextService.transcribeAudio(buffer)]: text and language *)
    transcribeAudio : Buffer -> option (string * option string);
    (** the toxicity model's answer to [{inputs: text}] *)
    toxic_bert : option string -> option (list HateSpeechDetection.RawResult);
    (** the Vision API's safe-search annotation *)
    vision_annotate : Buffer -> option ContentModeration.SafeSearch;
    (** the video job submission: the [operation-location] header *)
    azure_submit : Buffer -> option (option string);
    (** [whatsappService.sendTextMessage(to, text)]: the provider id *)
    sendTextMessage : string -> string -> option string;
    (** [new Date()] *)
    now : nat;
    (** [String.prototype.toLowerCase] of the runtime *)
    toLowerCase : string -> string }.

(** Calls that leave the process, in the order they are made. *)
Inductive Event :=
| EvDownloadMedia (mediaId : option string)
| EvTranscribe (audio : Buffer)
| EvDetectHateSpeech (text : option string)
| EvModerateImage (image : Buffer)
| EvModerateVideo (video : Buffer)
| EvSendText (to text : string).

Definition is_send (e : Event) : bool :=
  match e with EvSendText _ _ => true | _ => false end.

Definition is_text_policy_call (e : Event) : bool :=
  match e with EvDetectHateSpeech _ => true | _ => false end.

(** The two collections, the object-id generator and the call log. *)
Record Store :=
  { messages : list Message.t;
    newWords : list NewWord.t;
    nextId : nat;
    trace : list Event }.

Definition empty_store : Store :=
  {| messages := []; newWords := []; nextId := 0; trace := [] |}.

Inductive Exn := TypeError | ValidationError | DuplicateKey.

Inductive Res (A : Type) :=
| Ok (a : A)
| Throw (e : Exn).
Arguments Ok {A} a.
Arguments Throw {A} e.

Definition M (A : Type) : Type := Store -> Res A * Store.

Definition ret {A} (a : A) : M A := fun s => (Ok a, s).

Definition throw {A} (e : Exn) : M A := fun s => (Throw e, s).

Definition bind {A B} (m : M A) (k : A -> M B) : M B :=
  fun s =>
    match m s with
    | (Ok a, s') => k a s'
    | (Throw e, s') => (Throw e, s')
    end.

(** [try { m } catch (error) { h }]. *)
Definition try_catch {A} (m : M A) (h : M A) : M A :=
  fun s =>
    match m s with
    | (Ok a, s') => (Ok a, s')
    | (Throw _, s') => h s'
    end.

Declare Scope m_scope.
Delimit Scope m_scope with M.
Notation "x <- m ;; k" := (bind m (fun x => k))
  (at level 61, m at next level, right associativity) : m_scope.
Notation "m ;; k" := (bind m (fun _ => k))
  (at level 61, right associativity) : m_scope.
Local Open Scope m_scope.

Definition get_messages : M (list Message.t) := fun s => (Ok (messages s), s).

Definition get_newWords : M (list NewWord.t) := fun s => (Ok (newWords s), s).

Definition put_messages (ms : list Message.t) : M unit :=
  fun s =>
    (Ok tt, {| messages := ms; newWords := newWords s;
               nextId := nextId s; trace := trace s |}).

Definition put_newWords (ws : list NewWord.t) : M unit :=
  fun s =>
    (Ok tt, {| messages := messages s; newWords := ws;
               nextId := nextId s; trace := trace s |}).

(** A fresh [ObjectId]. *)
Definition new_ObjectId : M nat :=
  fun s =>
    (Ok (nextId s), {| messages := messages s; newWords := newWords s;
                       nextId := S (nextId s); trace := trace s |}).

(** An outgoing call: log it. *)
Definition call (e : Event) : M unit :=
  fun s =>
    (Ok tt, {| messages := messages s; newWords := newWords s;
               nextId := nextId s; trace := trace s ++ [e] |}).

(** [message.save()] on a new document: schema validation, then the
    insert, which the unique index on [whatsappMessageId] rejects when
    the id is already stored. *)
Definition Message_insert (m : Message.t) : M unit :=
  if negb (Message.validate m && Message.casts m)
  then throw ValidationError
  else
    ms <- get_messages ;;
    if existsb (fun m' => Message.whatsappMessageId m' =? Message.whatsappMessageId m) ms
    then throw DuplicateKey
    else put_messages (ms ++ [m]).

(** [message.save()] on a document already inserted: validation, then
    the update by [_id]. *)
Definition Message_update (m : Message.t) : M unit :=
  if negb (Message.validate m && Message.casts m)
  then throw ValidationError
  else
    ms <- get_messages ;;
    put_messages
      (map (fun m' => if (Message._id m' =? Message._id m)%nat then m else m') ms).

(** [Message.find({userId, 'moderation.status': 'blocked',
    'content.text': {$regex: cleanWord, $options: 'i'}})]. [cleanWord]
    is made of word characters only, so the pattern is a literal, matched
    up to the case of the letters [A]-[Z]. *)
Definition Message_find_blocked (uid : nat) (cleanWord : string) : M (list Message.t) :=
  ms <- get_messages ;;
  ret (filter
         (fun m =>
            (Message.userId m =? uid)%nat
            && Message.Status_eqb (Message.moderation_status m) Message.blocked
            && match Message.text (Message.content m) with
               | Some t =>
                   Js.includes (Js.fold_ascii t) (Js.fold_ascii cleanWord)
               | None => false
               end)
         ms).

(** [NewWord.findOne({userId, word})]. *)
Definition NewWord_findOne (uid : nat) (w : string) : M (option NewWord.t) :=
  ws <- get_newWords ;;
  ret (find (fun nw => (NewWord.userId nw =? uid)%nat && (NewWord.word nw =? w)) ws).

Definition NewWord_insert (nw : NewWord.t) : M unit :=
  ws <- get_newWords ;;
  put_newWords (ws ++ [nw]).

Definition NewWord_update (nw : NewWord.t) : M unit :=
  ws <- get_newWords ;;
  put_newWords
    (map (fun nw' => if (NewWord._id nw' =? NewWord._id nw)%nat then nw else nw') ws).

(** ** services/whatsappService.js *)

Module WhatsAppService.

(** The table [responses] of [sendModerationResponse], with its default. *)
Definition responseText (reason : option string) : string :=
  let default :=
    "Your message was blocked due to content that violates our community guidelines." in
  match reason with
  | None => default
  | Some r =>
      if r =? "hate_speech" then
        "Your message was blocked due to detected hate speech. Please ensure your messages are respectful and inclusive."
      else if r =? "nudity" then
        "Your message was blocked due to inappropriate content. Please keep messages family-friendly."
      else if r =? "violence" then
        "Your message was blocked due to violent content. Please ensure messages are peaceful and non-threatening."
      else if r =? "explicit_content" then
        "Your message was blocked due to explicit content. Please keep messages appropriate for all audiences."
      else if r =? "custom_word" then
        "Your message was blocked due to content that violates our community guidelines."
      else default
  end.

(** [sendModerationResponse(to, reason, originalMessageType)]. *)
Definition sendModerationResponse (w : World) (to : string)
    (reason : option string) : M (option string) :=
  let responseText := responseText reason in
  call (EvSendText to responseText) ;;
  ret (sendTextMessage w to responseText).

End WhatsAppService.

(** ** routes/webhook.js *)

Module Webhook.

(** A media object of the payload; only [id] is read by the pipeline. *)
Record Media := { media_id : option string }.

(** One element of [webhookData.messages], with the [to] the pipeline
    reads from it. *)
Record MessageData :=
  { id : string;
    from : string;
    to : string;
    timestamp : nat;
    type : string;
    text : option string;
    image : option Media;
    video : option Media;
    audio : option Media;
    document : option Media }.

Definition set_mediaId (m : option Media) (c : Message.Content) : Message.Content :=
  match m with
  | Some x => {| Message.text := Message.text c; Message.mediaId := media_id x |}
  | None => c
  end.

(** [extractContent(messageData)]: an empty text is falsy and is not
    copied; a later media kind overwrites [mediaId]. *)
Definition extractContent (messageData : MessageData) : Message.Content :=
  let content :=
    {| Message.text :=
         match text messageData with
         | Some EmptyString | None => None
         | Some t => Some t
         end;
       Message.mediaId := None |} in
  set_mediaId (document messageData)
    (set_mediaId (audio messageData)
       (set_mediaId (video messageData)
          (set_mediaId (image messageData) content))).

Definition result (st : Message.Status) (reason : option string) : Message.Moderation :=
  {| Message.status := st; Message.reason := reason;
     Message.hateSpeech := None; Message.contentModeration := None;
     Message.transcription := None |}.

(** [words.some(word => text.toLowerCase().includes(word.toLowerCase()))]
    when [text] is a string. *)
Definition containsWord (w : World) (words : list string) (text : string)
    : bool :=
  existsb (fun word => Js.includes (toLowerCase w text) (toLowerCase w word))
    words.

(** The same expression on the [text] the message carries: the callback
    runs only on a non-empty array, and throws a [TypeError] when [text]
    is [undefined]. *)
Definition some_word_in (w : World) (words : list string)
    (text : option string) : M bool :=
  match words with
  | [] => ret false
  | _ :: _ =>
      match text with
      | None => throw TypeError
      | Some t => ret (containsWord w words t)
      end
  end.

Definition commonWords : list string :=
  ["the"; "a"; "an"; "and"; "or"; "but"; "in"; "on"; "at"; "to"; "for"; "of";
   "with"; "by"].

(** Body of the [for (const word of words)] loop of [checkForNewWords].
    The setters [lowercase] and [trim] of the [word] path are not
    represented: [cleanWord] is what the removal of the non-word
    characters leaves of a lower-cased token, digits, underscores and
    letters already in lower case. *)
Definition checkWord (w : World) (text : string) (user : User) (word : string)
    : M unit :=
  let cleanWord := Js.strip_non_word word in
  if (2 <? String.length cleanWord)%nat
     && negb (Js.array_includes commonWords cleanWord)
  then
    blockedMessages <- Message_find_blocked (user_id user) cleanWord ;;
    if (3 <=? length blockedMessages)%nat then
      newWord <- NewWord_findOne (user_id user) cleanWord ;;
      match newWord with
      | None =>
          i <- new_ObjectId ;;
          NewWord_insert
            {| NewWord._id := i;
               NewWord.userId := user_id user;
               NewWord.word := cleanWord;
               NewWord.originalText := Some text;
               NewWord.frequency := length blockedMessages;
               NewWord.firstDetected := now w;
               NewWord.lastDetected := now w;
               NewWord.confidence := 7 # 10;
               NewWord.status := NewWord.pending;
               NewWord.userDecision :=
                 {| NewWord.markedAsHateSpeech := false;
                    NewWord.decisionDate := None;
                    NewWord.decisionReason := None |};
               NewWord.updatedAt := now w |}
      | Some nw => NewWord_update (NewWord.incrementFrequency (now w) nw)
      end
    else ret tt
  else ret tt.

Fixpoint for_each {A} (f : A -> M unit) (l : list A) : M unit :=
  match l with
  | [] => ret tt
  | x :: l' => f x ;; for_each f l'
  end.

(** [checkForNewWords(text, user)]. *)
Definition checkForNewWords (w : World) (text : option string) (user : User)
    : M unit :=
  match text with
  | None => throw TypeError
  | Some t =>
      let words := Js.split_ws (toLowerCase w t) EmptyString false in
      for_each (checkWord w t user) words
  end.

(** [processTextMessage(message, user)]. *)
Definition processTextMessage (w : World) (message : Message.t) (user : User)
    : M Message.Moderation :=
  let text := Message.text (Message.content message) in
  let customBlockedWords := customBlockedWords (moderationSettings user) in
  hasBlockedWords <- some_word_in w customBlockedWords text ;;
  if hasBlockedWords : bool then
    ret {| Message.status := Message.blocked;
           Message.reason := Some "custom_word";
           Message.hateSpeech :=
             Some {| Message.hs_detected := true;
                     Message.hs_confidence := 1;
                     Message.hs_category := Some (Js.Str "custom") |};
           Message.contentModeration := None;
           Message.transcription := None |}
  else
    let customAllowedWords := customAllowedWords (moderationSettings user) in
    hasAllowedWords <- some_word_in w customAllowedWords text ;;
    if hasAllowedWords : bool then ret (result Message.approved None)
    else
      call (EvDetectHateSpeech text) ;;
      match HateSpeechDetection.detectHateSpeech (toxic_bert w text) with
      | HateSpeechDetection.Failure =>
          ret (result Message.error (Some "hate_speech_detection_failed"))
      | HateSpeechDetection.Success detected confidence primaryCategory _ =>
          if detected && hateSpeechEnabled (moderationSettings user) then
            ret {| Message.status := Message.blocked;
                   Message.reason := Some "hate_speech";
                   Message.hateSpeech :=
                     Some {| Message.hs_detected := true;
                             Message.hs_confidence := confidence;
                             Message.hs_category := primaryCategory |};
                   Message.contentModeration := None;
                   Message.transcription := None |}
          else
            checkForNewWords w text user ;;
            ret (result Message.approved None)
      end.

(** [processAudioMessage(message, user)]. The function assigns
    [message.transcription]; the message is returned with the verdict.
    [transcribeAudio] returns no [confidence], so the default 0.8 is
    always taken. Only [processTextMessage] can throw inside the [try]. *)
Definition processAudioMessage (w : World) (message : Message.t) (user : User)
    : M (Message.Moderation * Message.t) :=
  let mediaId := Message.mediaId (Message.content message) in
  call (EvDownloadMedia mediaId) ;;
  match downloadMedia w mediaId with
  | None => ret (result Message.error (Some "audio_download_failed"), message)
  | Some data =>
      call (EvTranscribe data) ;;
      match transcribeAudio w data with
      | None => ret (result Message.error (Some "transcription_failed"), message)
      | Some (t, language) =>
          let tr :=
            {| Message.tr_text := t;
               Message.tr_confidence := 8 # 10;
               Message.tr_language :=
                 match language with
                 | Some EmptyString | None => "en"
                 | Some l => l
                 end |} in
          let message := Message.set_transcription tr message in
          try_catch
            (textModeration <- processTextMessage w message user ;;
             if Message.Status_eqb (Message.status textModeration) Message.blocked
             then
               ret ({| Message.status := Message.status textModeration;
                       Message.reason := Message.reason textModeration;
                       Message.hateSpeech := Message.hateSpeech textModeration;
                       Message.contentModeration :=
                         Message.contentModeration textModeration;
                       Message.transcription := Some tr |}, message)
             else
               ret ({| Message.status := Message.approved;
                       Message.reason := None;
                       Message.hateSpeech := None;
                       Message.contentModeration := None;
                       Message.transcription := Some tr |}, message))
            (ret (result Message.error (Some "audio_processing_failed"), message))
      end
  end.

(** [contentModerationService.moderateMedia(mediaBuffer, mediaType)]. *)
Definition moderateMedia (w : World) (mediaBuffer : Buffer) (mediaType : string)
    : ContentModeration.Result :=
  if mediaType =? "image" then
    ContentModeration.moderateImage (vision_annotate w mediaBuffer)
  else if mediaType =? "video" then
    ContentModeration.moderateVideo (azure_submit w mediaBuffer)
  else ContentModeration.Failure.

(** The request [moderateMedia] sends for this media type, if any. *)
Definition call_moderateMedia (mediaBuffer : Buffer) (mediaType : string) : M unit :=
  if mediaType =? "image" then call (EvModerateImage mediaBuffer)
  else if mediaType =? "video" then call (EvModerateVideo mediaBuffer)
  else ret tt.

(** Lines 229-259 of [processMediaMessage]: the three checks, each
    overwriting [shouldBlock] and [reason], then the verdict. *)
Definition mediaVerdict (moderation : ContentModeration.Moderation) (user : User)
    : Message.Moderation :=
  let shouldBlock := false in
  let reason := EmptyString in
  let '(shouldBlock, reason) :=
    if ContentModeration.detected (ContentModeration.nudity moderation)
       && nudityEnabled (moderationSettings user)
    then (true, "nudity") else (shouldBlock, reason) in
  let '(shouldBlock, reason) :=
    if ContentModeration.detected (ContentModeration.violence moderation)
       && violenceEnabled (moderationSettings user)
    then (true, "violence") else (shouldBlock, reason) in
  let '(shouldBlock, reason) :=
    if ContentModeration.detected (ContentModeration.explicit moderation)
    then (true, "explicit_content") else (shouldBlock, reason) in
  if shouldBlock : bool then
    {| Message.status := Message.blocked;
       Message.reason := Some reason;
       Message.hateSpeech := None;
       Message.contentModeration := Some moderation;
       Message.transcription := None |}
  else
    {| Message.status := Message.approved;
       Message.reason := None;
       Message.hateSpeech := None;
       Message.contentModeration := Some moderation;
       Message.transcription := None |}.

(** [processMediaMessage(message, user)]. Nothing inside its [try]
    throws in this model, so the [catch] arm is not represented. *)
Definition processMediaMessage (w : World) (message : Message.t) (user : User)
    : M Message.Moderation :=
  let mediaId := Message.mediaId (Message.content message) in
  call (EvDownloadMedia mediaId) ;;
  match downloadMedia w mediaId with
  | None => ret (result Message.error (Some "media_download_failed"))
  | Some data =>
      call_moderateMedia data (Message.messageType message) ;;
      match moderateMedia w data (Message.messageType message) with
      | ContentModeration.Failure =>
          ret (result Message.error (Some "media_moderation_failed"))
      | ContentModeration.Success moderation => ret (mediaVerdict moderation user)
      end
  end.

(** [handleBlockedMessage(message, user)]. [response.data], the body of
    the provider's answer, is an object: [sendTextMessage] has read
    [response.data.messages[0].id] from it. *)
Definition handleBlockedMessage (w : World) (message : Message.t) (user : User)
    : M unit :=
  if autoBlock (moderationSettings user) then
    response <-
      WhatsAppService.sendModerationResponse w (Message.from message)
        (match Message.moderation message with
         | Some r => Message.reason r
         | None => None
         end) ;;
    match response with
    | Some messageId =>
        Message_update
          (Message.set_response
             {| Message.sent := true; Message.messageId := messageId;
                Message.rs_content := Js.Obj;
                Message.sentAt := now w |}
             message)
    | None => ret tt
    end
  else ret tt.

(** [handleApprovedMessage(message, user)]. *)
Definition handleApprovedMessage (message : Message.t) : M unit :=
  Message_update (Message.set_metadata_status "delivered" message).

(** Lines 85-94 of [processIncomingMessage]: the dispatch on the kind. *)
Definition moderate (w : World) (messageData : MessageData)
    (message : Message.t) (user : User) : M (Message.Moderation * Message.t) :=
  if type messageData =? "text" then
    r <- processTextMessage w message user ;; ret (r, message)
  else if type messageData =? "audio" then processAudioMessage w message user
  else if (type messageData =? "image") || (type messageData =? "video") then
    r <- processMediaMessage w message user ;; ret (r, message)
  else ret (result Message.approved None, message).

(** [new Message({...})] of [processIncomingMessage]. *)
Definition newMessage (i : nat) (user : User) (messageData : MessageData)
    : Message.t :=
  {| Message._id := i;
     Message.userId := user_id user;
     Message.whatsappMessageId := id messageData;
     Message.from := from messageData;
     Message.to := to messageData;
     Message.messageType := type messageData;
     Message.content := extractContent messageData;
     Message.msg_transcription := None;
     Message.moderation := None;
     Message.response := None;
     Message.metadata_timestamp := timestamp messageData;
     Message.metadata_status := "received" |}.

(** The body of the [try] of [processIncomingMessage] once the user is
    found; it yields the verdict it computed. *)
Definition processFound (w : World) (messageData : MessageData) (user : User)
    : M Message.Moderation :=
  i <- new_ObjectId ;;
  let message := newMessage i user messageData in
  rm <- moderate w messageData message user ;;
  let moderationResult := fst rm in
  let message := Message.set_moderation moderationResult (snd rm) in
  Message_insert message ;;
  (if Message.Status_eqb (Message.status moderationResult) Message.blocked
   then handleBlockedMessage w message user
   else handleApprovedMessage message) ;;
  ret moderationResult.

(** [processIncomingMessage(messageData)]: the store it leaves, and the
    verdict when one was computed and the run reached its end. An unknown
    recipient returns early; an exception is caught and logged. *)
Definition processIncomingMessage (w : World) (messageData : MessageData)
    (s : Store) : option Message.Moderation * Store :=
  match User_findOne w (to messageData) with
  | None => (None, s)
  | Some user =>
      match processFound w messageData user s with
      | (Ok r, s') => (Some r, s')
      | (Throw _, s') => (None, s')
      end
  end.

(** The webhook loop [for (const messageData of webhookData.messages)],
    each delivery with the answers the world gives during it. *)
Definition deliver (s : Store) (d : World * MessageData) : Store :=
  snd (processIncomingMessage (fst d) (snd d) s).

Definition deliverAll (ds : list (World * MessageData)) (s : Store) : Store :=
  fold_left deliver ds s.

End Webhook.

(** ** socket/handlers.js: the [review_word] handler *)

Module Handlers.

(** The payload of a [review_word] event. *)
Record ReviewData :=
  { wordId : nat; action : string; reason : option string }.

(** What the handler emits. *)
Inductive Emit :=
| EmitError (message : string)
| EmitWordReviewed (wordId : nat) (word : string) (status : NewWord.Status).

(** The [switch (action)]: the method it calls, if any. A missing
    [reason] takes the methods' default [''] *)
Definition apply_action (w : World) (data : ReviewData) (newWord : NewWord.t)
    : option NewWord.t :=
  let reason := match reason data with Some r => r | None => EmptyString end in
  if action data =? "approve" then
    Some (NewWord.markAsHateSpeech (now w) reason newWord)
  else if action data =? "reject" then
    Some (NewWord.rejectWord (now w) reason newWord)
  else if action data =? "ignore" then
    Some (NewWord.ignoreWord (now w) reason newWord)
  else None.

(** [socket.on('review_word', async (data) => ...)] for the socket of
    user [socketUserId]. *)
Definition review_word (w : World) (socketUserId : nat) (data : ReviewData)
    : M Emit :=
  ws <- get_newWords ;;
  match find (fun nw => (NewWord._id nw =? wordId data)%nat
                        && (NewWord.userId nw =? socketUserId)%nat) ws with
  | None => ret (EmitError "Word not found")
  | Some newWord =>
      match apply_action w data newWord with
      | Some newWord' =>
          NewWord_update newWord' ;;
          ret (EmitWordReviewed (NewWord._id newWord') (NewWord.word newWord')
                 (NewWord.status newWord'))
      | None =>
          ret (EmitWordReviewed (NewWord._id newWord) (NewWord.word newWord)
                 (NewWord.status newWord))
      end
  end.

End Handlers.

(** ** models/User.js: the word-list methods *)

Module UserMethods.

(** The [trim: true] setter of the two word-list paths, on ASCII white
    space: Mongoose applies it to every element pushed onto or assigned to
    the array. *)
Fixpoint trimStart (s : string) : string :=
  match s with
  | EmptyString => EmptyString
  | String c s' => if Js.is_space c then trimStart s' else s
  end.

Fixpoint trimEnd (s : string) : string :=
  match s with
  | EmptyString => EmptyString
  | String c s' =>
      match trimEnd s' with
      | EmptyString => if Js.is_space c then EmptyString else String c EmptyString
      | r => String c r
      end
  end.

Definition trim (s : string) : string := trimEnd (trimStart s).

Definition set_customBlockedWords (ws : list string) (u : User) : User :=
  {| user_id := user_id u; whatsappNumber := whatsappNumber u;
     moderationSettings :=
       {| hateSpeechEnabled := hateSpeechEnabled (moderationSettings u);
          nudityEnabled := nudityEnabled (moderationSettings u);
          violenceEnabled := violenceEnabled (moderationSettings u);
          autoBlock := autoBlock (moderationSettings u);
          customBlockedWords := map trim ws;
          customAllowedWords := customAllowedWords (moderationSettings u) |} |}.

Definition set_customAllowedWords (ws : list string) (u : User) : User :=
  {| user_id := user_id u; whatsappNumber := whatsappNumber u;
     moderationSettings :=
       {| hateSpeechEnabled := hateSpeechEnabled (moderationSettings u);
          nudityEnabled := nudityEnabled (moderationSettings u);
          violenceEnabled := violenceEnabled (moderationSettings u);
          autoBlock := autoBlock (moderationSettings u);
          customBlockedWords := customBlockedWords (moderationSettings u);
          customAllowedWords := map trim ws |} |}.

(** [customBlockedWords.push(word)]: the stored elements stay, the new
    one goes through the setter. *)
Definition push_blocked (word : string) (u : User) : User :=
  {| user_id := user_id u; whatsappNumber := whatsappNumber u;
     moderationSettings :=
       {| hateSpeechEnabled := hateSpeechEnabled (moderationSettings u);
          nudityEnabled := nudityEnabled (moderationSettings u);
          violenceEnabled := violenceEnabled (moderationSettings u);
          autoBlock := autoBlock (moderationSettings u);
          customBlockedWords :=
            customBlockedWords (moderationSettings u) ++ [trim word];
          customAllowedWords := customAllowedWords (moderationSettings u) |} |}.

Definition push_allowed (word : string) (u : User) : User :=
  {| user_id := user_id u; whatsappNumber := whatsappNumber u;
     moderationSettings :=
       {| hateSpeechEnabled := hateSpeechEnabled (moderationSettings u);
          nudityEnabled := nudityEnabled (moderationSettings u);
          violenceEnabled := violenceEnabled (moderationSettings u);
          autoBlock := autoBlock (moderationSettings u);
          customBlockedWords := customBlockedWords (moderationSettings u);
          customAllowedWords :=
            customAllowedWords (moderationSettings u) ++ [trim word] |} |}.

(** [userSchema.methods.addBlockedWord]. The [updatedAt] stamp and the
    save are outside the [User] record of this development. *)
Definition addBlockedWord (word : string) (this : User) : User :=
  if negb (Js.array_includes (customBlockedWords (moderationSettings this)) word)
  then push_blocked word this
  else this.

(** [userSchema.methods.removeBlockedWord]. *)
Definition removeBlockedWord (word : string) (this : User) : User :=
  set_customBlockedWords
    (filter (fun w => negb (w =? word))
       (customBlockedWords (moderationSettings this))) this.

(** [userSchema.methods.addAllowedWord]. *)
Definition addAllowedWord (word : string) (this : User) : User :=
  if negb (Js.array_includes (customAllowedWords (moderationSettings this)) word)
  then push_allowed word this
  else this.

(** [userSchema.methods.removeAllowedWord]. *)
Definition removeAllowedWord (word : string) (this : User) : User :=
  set_customAllowedWords
    (filter (fun w => negb (w =? word))
       (customAllowedWords (moderationSettings this))) this.

End UserMethods.

(** ** routes/moderation.js: the settings tester *)

Module ModerationRoutes.

(** [req.body.testContent]; [media] is base64 text. *)
Record TestContent :=
  { tc_text : option string; tc_media : option string; tc_mediaType : option string }.

(** The object [analysis] of the handler. *)
Record Analysis := { blocked : bool; reasons : list string; confidence : Q }.

(** [Math.max(a, b)]. *)
Definition Math_max (a b : Q) : Q := if Js.gt b a then b else a.

(** A string that is present and not empty. *)
Definition truthy (s : option string) : bool :=
  match s with
  | Some (String _ _) => true
  | Some EmptyString | None => false
  end.

(** [hateSpeechService.analyzeText(text)] with its default options: the
    result of [detectHateSpeech], details included. *)
Definition analyzeText (w : World) (text : option string)
    : HateSpeechDetection.Result :=
  HateSpeechDetection.detectHateSpeech (toxic_bert w text).

Definition flag (reason : string) (c : Q) (a : Analysis) : Analysis :=
  {| blocked := true; reasons := reasons a ++ [reason];
     confidence := Math_max (confidence a) c |}.

(** The body of [POST /test-settings] between the validation and the
    response: the analysis it answers with. [decode] is
    [Buffer.from(_, 'base64')]. *)
Definition testSettings (w : World) (decode : string -> Buffer)
    (settings : ModerationSettings) (testContent : TestContent) : Analysis :=
  let analysis := {| blocked := false; reasons := []; confidence := 0 |} in
  let analysis :=
    if truthy (tc_text testContent) then
      match analyzeText w (tc_text testContent) with
      | HateSpeechDetection.Success detected c _ _ =>
          if detected && hateSpeechEnabled settings
          then flag "hate_speech" c analysis else analysis
      | HateSpeechDetection.Failure => analysis
      end
    else analysis in
  if truthy (tc_media testContent) && truthy (tc_mediaType testContent) then
    match tc_media testContent, tc_mediaType testContent with
    | Some media, Some mediaType =>
        match Webhook.moderateMedia w (decode media) mediaType with
        | ContentModeration.Success moderation =>
            let analysis :=
              if ContentModeration.detected (ContentModeration.nudity moderation)
                 && nudityEnabled settings
              then flag "nudity"
                     (ContentModeration.confidence
                        (ContentModeration.nudity moderation)) analysis
              else analysis in
            if ContentModeration.detected (ContentModeration.violence moderation)
               && violenceEnabled settings
            then flag "violence"
                   (ContentModeration.confidence
                      (ContentModeration.violence moderation)) analysis
            else analysis
        | ContentModeration.Failure => analysis
        end
    | _, _ => analysis
    end
  else analysis.

End ModerationRoutes.

(** ** models/Message.js: the summary of a stored record *)

Module MessageMethods.

(** What [getModerationSummary] returns. *)
Record Summary :=
  { status : Message.Status; blocked : bool; reasons : list string }.

(** [messageSchema.methods.getModerationSummary]: a signal that was not
    recorded reads as [undefined], which is falsy. *)
Definition getModerationSummary (this : Message.t) : Summary :=
  let hs := match Message.moderation this with
            | Some r => Message.hateSpeech r
            | None => None
            end in
  let cm := match Message.moderation this with
            | Some r => Message.contentModeration r
            | None => None
            end in
  let detected (f : ContentModeration.Moderation -> ContentModeration.Category) :=
    match cm with
    | Some c => ContentModeration.detected (f c)
    | None => false
    end in
  let reasons := [] in
  let reasons :=
    if match hs with Some h => Message.hs_detected h | None => false end
    then reasons ++ ["hate_speech"] else reasons in
  let reasons :=
    if detected ContentModeration.nudity then reasons ++ ["nudity"] else reasons in
  let reasons :=
    if detected ContentModeration.violence
    then reasons ++ ["violence"] else reasons in
  let reasons :=
    if detected ContentModeration.explicit
    then reasons ++ ["explicit_content"] else reasons in
  {| status := Message.moderation_status this;
     blocked := (0 <? length reasons)%nat;
     reasons := reasons |}.

End MessageMethods.

(** ** models/NewWord.js: the review queue *)

Module NewWordStatics.

Definition Status_eqb (a b : NewWord.Status) : bool :=
  match a, b with
  | NewWord.pending, NewWord.pending | NewWord.approved, NewWord.approved
  | NewWord.rejected, NewWord.rejected | NewWord.ignored, NewWord.ignored => true
  | _, _ => false
  end.

(** The order of [.sort({'detection.frequency': -1,
    'detection.lastDetected': -1})]: [x] may come before [y]. *)
Definition before (x y : NewWord.t) : bool :=
  (NewWord.frequency y <? NewWord.frequency x)%nat
  || ((NewWord.frequency x =? NewWord.frequency y)%nat
      && (NewWord.lastDetected y <=? NewWord.lastDetected x)%nat).

Fixpoint insert (x : NewWord.t) (l : list NewWord.t) : list NewWord.t :=
  match l with
  | [] => [x]
  | y :: l' => if before x y then x :: l else y :: insert x l'
  end.

(** [.sort(...)]. The database leaves the order of documents with equal
    keys open; this one keeps them in collection order. *)
Definition sort (l : list NewWord.t) : list NewWord.t := fold_right insert [] l.

(** [.limit(n)]: a limit of 0 is no limit. *)
Definition limit (n : nat) (l : list NewWord.t) : list NewWord.t :=
  if (n =? 0)%nat then l else firstn n l.

(** The filter [{userId, status: 'pending'}]. *)
Definition pending_of (userId : nat) (nw : NewWord.t) : bool :=
  (NewWord.userId nw =? userId)%nat
  && Status_eqb (NewWord.status nw) NewWord.pending.

(** [NewWord.findPendingReview(userId, limit)] on the collection [ws]. *)
Definition findPendingReview (ws : list NewWord.t) (userId : nat) (n : nat)
    : list NewWord.t :=
  limit n (sort (filter (pending_of userId) ws)).

End NewWordStatics.

(** ** services/speechToText.js: the audio check *)

Module SpeechToText.

(** One digit of [Buffer.toString('hex')], from the four bits of a
    nibble, lowest first. *)
Definition hex_digit (b0 b1 b2 b3 : bool) : ascii :=
  match b3, b2, b1, b0 with
  | false, false, false, false => "0"
  | false, false, false, true => "1"
  | false, false, true, false => "2"
  | false, false, true, true => "3"
  | false, true, false, false => "4"
  | false, true, false, true => "5"
  | false, true, true, false => "6"
  | false, true, true, true => "7"
  | true, false, false, false => "8"
  | true, false, false, true => "9"
  | true, false, true, false => "a"
  | true, false, true, true => "b"
  | true, true, false, false => "c"
  | true, true, false, true => "d"
  | true, true, true, false => "e"
  | true, true, true, true => "f"
  end%char.

(** [buffer.toString('hex')]: two digits a byte, the high nibble first. *)
Fixpoint toString_hex (buffer : Buffer) : string :=
  match buffer with
  | EmptyString => EmptyString
  | String (Ascii b0 b1 b2 b3 b4 b5 b6 b7) rest =>
      String (hex_digit b4 b5 b6 b7)
        (String (hex_digit b0 b1 b2 b3) (toString_hex rest))
  end.

(** [buffer.slice(0, n)]. *)
Definition slice0 (n : nat) (buffer : Buffer) : Buffer := substring 0 n buffer.

(** [s.startsWith(p)]. *)
Definition startsWith (s p : string) : bool := prefix p s.

(** What [validateAudio] returns: [{valid: false, error}] with one of its
    two messages, or [{valid: true, format}]. *)
Inductive Validation :=
| TooLarge (maxSizeMB : N)
| UnsupportedFormat
| Valid (format : string).

(** [validateAudio(audioBuffer, maxSizeMB)], for a whole number of
    megabytes. *)
Definition validateAudio (audioBuffer : Buffer) (maxSizeMB : N) : Validation :=
  let maxSizeBytes := (maxSizeMB * 1024 * 1024)%N in
  if (maxSizeBytes <? N.of_nat (String.length audioBuffer))%N then
    TooLarge maxSizeMB
  else
    let header := slice0 4 audioBuffer in
    let isWav := startsWith (toString_hex header) "52494646" in
    let isMp3 := startsWith (toString_hex header) "494433" in
    let isM4a := startsWith (toString_hex header) "66747970" in
    if negb isWav && negb isMp3 && negb isM4a then UnsupportedFormat
    else Valid (if isWav then "wav" else if isMp3 then "mp3" else "m4a").

End SpeechToText.

(** * Vocabulary of the statements *)

Import Webhook.
Import Handlers.

(** ** Concrete inputs used by the examples *)

Module Fixture.

Definition settings (blocked allowed : list string) : ModerationSettings :=
  {| hateSpeechEnabled := true; nudityEnabled := true; violenceEnabled := true;
     autoBlock := true;
     customBlockedWords := blocked; customAllowedWords := allowed |}.

Definition owner (blocked allowed : list string) : User :=
  {| user_id := 1; whatsappNumber := "15550001";
     moderationSettings := settings blocked allowed |}.

(** A world that knows one owner; the other answers are given. The
    texts of the examples are ASCII, which [toLowerCase] folds letter by
    letter. *)
Definition world (u : User)
    (media : option Buffer)
    (transcript : option (string * option string))
    (scores : option (list HateSpeechDetection.RawResult))
    (annotation : option ContentModeration.SafeSearch)
    (job : option (option string)) : World :=
  {| User_findOne := fun n => if n =? whatsappNumber u then Some u else None;
     downloadMedia := fun _ => media;
     transcribeAudio := fun _ => transcript;
     toxic_bert := fun _ => scores;
     vision_annotate := fun _ => annotation;
     azure_submit := fun _ => job;
     sendTextMessage := fun _ _ => Some "wamid.reply";
     now := 1000;
     toLowerCase := Js.fold_ascii |}.

Definition inbound (kind : string) (body : option string) (m : option Media)
    : MessageData :=
  {| id := "wamid.1"; from := "15559999"; to := "15550001"; timestamp := 7;
     type := kind; text := body;
     image := if kind =? "image" then m else None;
     video := if kind =? "video" then m else None;
     audio := if kind =? "audio" then m else None;
     document := if kind =? "document" then m else None |}.

Definition media : option Media := Some {| media_id := Some "media-1" |}.

Definition toxic (q : Q) : option (list HateSpeechDetection.RawResult) :=
  Some [ {| HateSpeechDetection.label := "toxic"; HateSpeechDetection.score := q |} ].

Definition annotation (a v r : string) : option ContentModeration.SafeSearch :=
  Some {| ContentModeration.adult := a; ContentModeration.ss_violence := v;
          ContentModeration.racy := r |}.

End Fixture.

(** ** Invariants and postconditions *)

(** What the [forEach] loop keeps true of its locals: nothing detected
    and the initial maximum, or something detected and a maximum above
    one half. *)
Definition acc_ok (acc : HateSpeechDetection.Acc) : Prop :=
  (HateSpeechDetection.detectedCategories acc = []
   /\ HateSpeechDetection.maxConfidence acc = 0)
  \/ (HateSpeechDetection.detectedCategories acc <> []
      /\ 1 # 2 < HateSpeechDetection.maxConfidence acc).

(** A category qualifies for blocking when the adapter reports it
    detected and, for nudity and violence, the owner's toggle is on. *)
Definition nudity_qualifies (m : ContentModeration.Moderation) (user : User) : bool :=
  ContentModeration.detected (ContentModeration.nudity m)
  && nudityEnabled (moderationSettings user).

Definition violence_qualifies (m : ContentModeration.Moderation) (user : User) : bool :=
  ContentModeration.detected (ContentModeration.violence m)
  && violenceEnabled (moderationSettings user).

Definition explicit_qualifies (m : ContentModeration.Moderation) : bool :=
  ContentModeration.detected (ContentModeration.explicit m).

Definition count_true (l : list bool) : nat := length (filter (fun b => b) l).

(** ** Stores *)

(** The store with its message collection replaced. *)
Definition with_messages (ms : list Message.t) (s : Store) : Store :=
  {| messages := ms; newWords := newWords s; nextId := nextId s; trace := trace s |}.

(** The update [message.save()] performs on the collection. *)
Definition replace_by_id (m : Message.t) (ms : list Message.t) : list Message.t :=
  map (fun m' => if (Message._id m' =? Message._id m)%nat then m else m') ms.

(** A message with this provider id is in the collection. *)
Definition stored (wid : string) (s : Store) : bool :=
  existsb (fun m' => Message.whatsappMessageId m' =? wid) (messages s).

(** Status and reason of every stored record, in collection order. *)
Definition stored_verdicts (s : Store) : list (Message.Status * option string) :=
  map (fun m => (Message.moderation_status m,
                 match Message.moderation m with
                 | Some r => Message.reason r
                 | None => None
                 end))
    (messages s).

(** The state in which [moderate] starts: the object id is taken. *)
Definition after_new (s : Store) : Store :=
  {| messages := messages s; newWords := newWords s;
     nextId := S (nextId s); trace := trace s |}.

(** [processIncomingMessage] from the verdict on: validation, insert,
    then the handler of the verdict. *)
Definition finish (w : World) (user : User) (r : Message.Moderation)
    (message : Message.t) (s1 : Store) : Res Message.Moderation * Store :=
  if negb (Message.validate message && Message.casts message)
  then (Throw ValidationError, s1)
  else if stored (Message.whatsappMessageId message) s1
  then (Throw DuplicateKey, s1)
  else
    bind (if Message.Status_eqb (Message.status r) Message.blocked
          then handleBlockedMessage w message user
          else handleApprovedMessage message)
      (fun _ => ret r)
      (with_messages (messages s1 ++ [message]) s1).

(** The store after the calls [evs] have been logged. *)
Definition logged (evs : list Event) (s : Store) : Store :=
  {| messages := messages s; newWords := newWords s; nextId := nextId s;
     trace := trace s ++ evs |}.

(** What every step before the insert leaves alone: the message
    collection is untouched and the id generator only moves forward. *)
Definition frame (s s' : Store) : Prop :=
  messages s' = messages s /\ (nextId s <= nextId s')%nat.

Definition Frames {A} (m : M A) : Prop := forall s, frame s (snd (m s)).

(** A property of every value a computation returns. *)
Definition Ensures {A} (Q : A -> Prop) (m : M A) : Prop :=
  forall s a s', m s = (Ok a, s') -> Q a.

(** The message object keeps its object id, provider id and kind. *)
Definition same_key (m m' : Message.t) : Prop :=
  Message._id m' = Message._id m
  /\ Message.whatsappMessageId m' = Message.whatsappMessageId m
  /\ Message.messageType m' = Message.messageType m.

(** Provider ids are pairwise distinct and every object id was issued by
    the generator. *)
Definition StoreOk (s : Store) : Prop :=
  NoDup (map Message.whatsappMessageId (messages s))
  /\ Forall (fun x => Message._id x < nextId s)%nat (messages s).

(** The term [review_word] looks up for this socket and payload. *)
Definition found (uid : nat) (data : ReviewData) (s : Store) : option NewWord.t :=
  find (fun nw => (NewWord._id nw =? wordId data)%nat
                  && (NewWord.userId nw =? uid)%nat) (newWords s).

(** A term the owner rejected earlier, and a later review that approves
    it. *)
Module ReviewFixture.

Definition term : NewWord.t :=
  {| NewWord._id := 5; NewWord.userId := 1; NewWord.word := "xyz";
     NewWord.originalText := Some "xyz again";
     NewWord.frequency := 3; NewWord.firstDetected := 10;
     NewWord.lastDetected := 20; NewWord.confidence := 7 # 10;
     NewWord.status := NewWord.rejected;
     NewWord.userDecision :=
       {| NewWord.markedAsHateSpeech := false;
          NewWord.decisionDate := Some 30%nat;
          NewWord.decisionReason := Some "harmless" |};
     NewWord.updatedAt := 30 |}.

Definition store : Store :=
  {| messages := []; newWords := [term]; nextId := 6; trace := [] |}.

Definition approve : ReviewData :=
  {| wordId := 5; action := "approve"; reason := Some "seen it used as a slur" |}.

Definition world : World :=
  Fixture.world (Fixture.owner [] []) None None None None None.

End ReviewFixture.

(** ** Vocabulary of the further properties *)

(** The entry the loop pushes for a raw result. *)
Definition reported_entry (r : HateSpeechDetection.RawResult)
    : HateSpeechDetection.DetectedCategory :=
  {| HateSpeechDetection.dc_category :=
       HateSpeechDetection.category_of (HateSpeechDetection.label r);
     HateSpeechDetection.dc_label := HateSpeechDetection.label r;
     HateSpeechDetection.dc_confidence := HateSpeechDetection.score r |}.

(** The raw results above one half, in the order of the answer. *)
Definition reported (results : list HateSpeechDetection.RawResult)
    : list HateSpeechDetection.DetectedCategory :=
  map reported_entry
    (filter (fun r => Js.gt (HateSpeechDetection.score r) (1 # 2)) results).

(** What the loop keeps true of its three locals together. *)
Definition acc_max (acc : HateSpeechDetection.Acc) : Prop :=
  Forall (fun x => 1 # 2 < HateSpeechDetection.dc_confidence x
                   /\ HateSpeechDetection.dc_confidence x
                      <= HateSpeechDetection.maxConfidence acc)
    (HateSpeechDetection.detectedCategories acc)
  /\ ((HateSpeechDetection.detectedCategories acc = []
       /\ HateSpeechDetection.maxConfidence acc = 0
       /\ HateSpeechDetection.primaryCategory acc = None)
      \/ exists x,
           In x (HateSpeechDetection.detectedCategories acc)
           /\ HateSpeechDetection.dc_confidence x
              = HateSpeechDetection.maxConfidence acc
           /\ HateSpeechDetection.primaryCategory acc
              = Some (HateSpeechDetection.dc_category x)).

(** [m] relates every store to the store it leaves, thrown or not. *)
Definition Keeps (R : Store -> Store -> Prop) {A} (m : M A) : Prop :=
  forall s, R s (snd (m s)).

(** The reasons the pipeline writes on a blocked verdict. *)
Definition block_reasons : list string :=
  ["custom_word"; "hate_speech"; "nudity"; "violence"; "explicit_content"].

(** The reasons the pipeline writes on an error verdict. *)
Definition error_reasons : list string :=
  ["hate_speech_detection_failed"; "audio_download_failed";
   "transcription_failed"; "audio_processing_failed"; "media_download_failed";
   "media_moderation_failed"; "media_processing_failed"].

(** The verdict records a signal that was detected. *)
Definition has_signal (r : Message.Moderation) : Prop :=
  (exists h, Message.hateSpeech r = Some h /\ Message.hs_detected h = true)
  \/ (exists m, Message.contentModeration r = Some m
                /\ ContentModeration.detected (ContentModeration.nudity m)
                   || ContentModeration.detected (ContentModeration.violence m)
                   || ContentModeration.detected (ContentModeration.explicit m)
                   = true).

Definition verdict_ok (r : Message.Moderation) : Prop :=
  match Message.status r with
  | Message.approved => Message.reason r = None /\ Message.hateSpeech r = None
  | Message.blocked =>
      (exists x, Message.reason r = Some x /\ In x block_reasons) /\ has_signal r
  | Message.error =>
      (exists x, Message.reason r = Some x /\ In x error_reasons)
      /\ Message.hateSpeech r = None /\ Message.contentModeration r = None
  | Message.pending => False
  end.

(** [message.transcription] as [processAudioMessage] builds it. *)
Definition transcription_of (t : string) (language : option string)
    : Message.Transcription :=
  {| Message.tr_text := t;
     Message.tr_confidence := 8 # 10;
     Message.tr_language :=
       match language with
       | Some EmptyString | None => "en"
       | Some l => l
       end |}.

(** The verdict without the key [transcription]. *)
Definition verdict_core (r : Message.Moderation)
    : Message.Status * option string * option Message.HateSpeechSignal
      * option ContentModeration.Moderation :=
  (Message.status r, Message.reason r, Message.hateSpeech r,
   Message.contentModeration r).

(** [processAudioMessage] from the transcription on. *)
Definition audio_after_transcription (w : World) (message : Message.t)
    (user : User) (tr : Message.Transcription)
    : M (Message.Moderation * Message.t) :=
  let message := Message.set_transcription tr message in
  try_catch
    (textModeration <- processTextMessage w message user ;;
     if Message.Status_eqb (Message.status textModeration) Message.blocked
     then
       ret ({| Message.status := Message.status textModeration;
               Message.reason := Message.reason textModeration;
               Message.hateSpeech := Message.hateSpeech textModeration;
               Message.contentModeration :=
                 Message.contentModeration textModeration;
               Message.transcription := Some tr |}, message)
     else
       ret ({| Message.status := Message.approved;
               Message.reason := None;
               Message.hateSpeech := None;
               Message.contentModeration := None;
               Message.transcription := Some tr |}, message))
    (ret (result Message.error (Some "audio_processing_failed"), message)).

(** The verdict is a blocked one. *)
Definition is_blocked (r : Message.Moderation) : bool :=
  Message.Status_eqb (Message.status r) Message.blocked.

(** The reply [handleBlockedMessage] sends for verdict [r] on a message
    from [sender]. *)
Definition reply_event (sender : string) (r : Message.Moderation) : Event :=
  EvSendText sender (WhatsAppService.responseText (Message.reason r)).

(** The calls [handleBlockedMessage] and [handleApprovedMessage] make. *)
Definition reply_events (user : User) (sender : string) (r : Message.Moderation)
    : list Event :=
  if is_blocked r && autoBlock (moderationSettings user)
  then [reply_event sender r] else [].

(** The provider accepts the reply to the blocked verdict [r]. *)
Definition reply_accepted (w : World) (user : User) (sender : string)
    (r : Message.Moderation) : bool :=
  is_blocked r && autoBlock (moderationSettings user)
  && match sendTextMessage w sender
             (WhatsAppService.responseText (Message.reason r)) with
     | Some _ => true
     | None => false
     end.

(** The record as the insert and the handlers leave it: a blocked record
    stays as inserted, any other is marked delivered. *)
Definition saved_record (r : Message.Moderation) (message : Message.t)
    : Message.t :=
  let message := Message.set_moderation r message in
  if is_blocked r then message
  else Message.set_metadata_status "delivered" message.

(** The log grew, and by no reply. *)
Definition sends_nothing (s s' : Store) : Prop :=
  exists evs, trace s' = trace s ++ evs /\ filter is_send evs = [].

(** The log is as it was. *)
Definition same_trace (s s' : Store) : Prop := trace s' = trace s.

(** The message object is the one built from the payload, possibly with
    a transcription attached. *)
Definition from_payload (message m' : Message.t) : Prop :=
  m' = message \/ exists tr, m' = Message.set_transcription tr message.

(** The five ways a delivery ends: unknown recipient; an exception before
    the verdict; a verdict the store refuses; a verdict saved and handled;
    a blocked verdict saved and answered, where the save after the reply
    is rejected and the run ends in the [catch]. *)
Inductive Delivery (w : World) (messageData : MessageData) (s : Store)
    : option Message.Moderation * Store -> Prop :=
| Unknown_recipient :
    User_findOne w (to messageData) = None ->
    Delivery w messageData s (None, s)
| Thrown user e s1 :
    User_findOne w (to messageData) = Some user ->
    moderate w messageData (newMessage (nextId s) user messageData) user
      (after_new s) = (Throw e, s1) ->
    Delivery w messageData s (None, s1)
| Refused user r m' s1 :
    User_findOne w (to messageData) = Some user ->
    moderate w messageData (newMessage (nextId s) user messageData) user
      (after_new s) = (Ok (r, m'), s1) ->
    Message.validate (newMessage (nextId s) user messageData) = false
    \/ Message.casts (Message.set_moderation r m') = false
    \/ stored (id messageData) s = true ->
    Delivery w messageData s (None, s1)
| Saved user r m' s1 s3 :
    User_findOne w (to messageData) = Some user ->
    moderate w messageData (newMessage (nextId s) user messageData) user
      (after_new s) = (Ok (r, m'), s1) ->
    from_payload (newMessage (nextId s) user messageData) m' ->
    Message.validate (newMessage (nextId s) user messageData) = true ->
    Message.casts (Message.set_moderation r m') = true ->
    stored (id messageData) s = false ->
    reply_accepted w user (from messageData) r = false ->
    trace s3 = trace s1 ++ reply_events user (from messageData) r ->
    newWords s3 = newWords s1 ->
    nextId s3 = nextId s1 ->
    (Forall (fun x => Message._id x < nextId s)%nat (messages s) ->
     messages s3 = messages s ++ [saved_record r m']) ->
    Delivery w messageData s (Some r, s3)
| Answered user r m' s1 s3 :
    User_findOne w (to messageData) = Some user ->
    moderate w messageData (newMessage (nextId s) user messageData) user
      (after_new s) = (Ok (r, m'), s1) ->
    from_payload (newMessage (nextId s) user messageData) m' ->
    Message.validate (newMessage (nextId s) user messageData) = true ->
    Message.casts (Message.set_moderation r m') = true ->
    stored (id messageData) s = false ->
    reply_accepted w user (from messageData) r = true ->
    trace s3 = trace s1 ++ [reply_event (from messageData) r] ->
    newWords s3 = newWords s1 ->
    nextId s3 = nextId s1 ->
    messages s3 = messages s ++ [saved_record r m'] ->
    Delivery w messageData s (None, s3).

(** The owner's messages stored as blocked. *)
Definition blocked_of (uid : nat) (ms : list Message.t) : list Message.t :=
  filter (fun m => (Message.userId m =? uid)%nat
                   && Message.Status_eqb (Message.moderation_status m)
                        Message.blocked) ms.

(** The message collection is untouched, and so are the candidate terms
    when the owner has fewer than three blocked messages. *)
Definition learner_idle (uid : nat) (s s' : Store) : Prop :=
  messages s' = messages s
  /\ ((length (blocked_of uid (messages s)) < 3)%nat ->
      newWords s' = newWords s).

(** The key of the unique index on candidate terms. *)
Definition term_key (nw : NewWord.t) : nat * string :=
  (NewWord.userId nw, NewWord.word nw).

(** Object ids of the candidate terms were issued by the generator and
    are pairwise distinct, and so are the (owner, word) keys. *)
Definition WordsOk (s : Store) : Prop :=
  Forall (fun nw => NewWord._id nw < nextId s)%nat (newWords s)
  /\ NoDup (map NewWord._id (newWords s))
  /\ NoDup (map term_key (newWords s)).

(** [y] is the term [x] after more observations: same identity, same
    review status and decision, a count that has not gone down. *)
Definition term_grows (x y : NewWord.t) : Prop :=
  NewWord._id y = NewWord._id x
  /\ term_key y = term_key x
  /\ NewWord.status y = NewWord.status x
  /\ NewWord.userDecision y = NewWord.userDecision x
  /\ (NewWord.frequency x <= NewWord.frequency y)%nat.

(** A term as [checkForNewWords] creates it. *)
Definition term_created (nw : NewWord.t) : Prop :=
  NewWord.status nw = NewWord.pending
  /\ NewWord.markedAsHateSpeech (NewWord.userDecision nw) = false
  /\ (3 <= NewWord.frequency nw)%nat
  /\ (2 < String.length (NewWord.word nw))%nat.

(** The terms of [l], grown, followed by newly created ones. *)
Definition terms_grow (l l' : list NewWord.t) : Prop :=
  exists l1 extra,
    l' = l1 ++ extra /\ Forall2 term_grows l l1 /\ Forall term_created extra.

Definition words_grow (s s' : Store) : Prop :=
  WordsOk s -> WordsOk s' /\ terms_grow (newWords s) (newWords s').

(** A webhook delivery or a [review_word] event. *)
Inductive Op :=
| Deliver (w : World) (messageData : MessageData)
| Review (w : World) (socketUserId : nat) (data : ReviewData).

Definition step (s : Store) (op : Op) : Store :=
  match op with
  | Deliver w messageData => snd (processIncomingMessage w messageData s)
  | Review w socketUserId data => snd (review_word w socketUserId data s)
  end.

Definition run (ops : list Op) (s : Store) : Store := fold_left step ops s.

(** A payload like [Fixture.inbound], under a provider id of its own. *)
Definition inbound_as (wid : string) (body : string) : MessageData :=
  {| id := wid; from := "15559999"; to := "15550001"; timestamp := 7;
     type := "text"; text := Some body;
     image := None; video := None; audio := None; document := None |}.

(** The coherence of an analysis: blocked exactly when a reason is
    listed, and then with a confidence above one half; confidence 0
    otherwise. *)
Definition analysis_ok (a : ModerationRoutes.Analysis) : Prop :=
  (ModerationRoutes.blocked a = true /\ ModerationRoutes.reasons a <> []
   /\ 1 # 2 < ModerationRoutes.confidence a)
  \/ (ModerationRoutes.blocked a = false /\ ModerationRoutes.reasons a = []
      /\ ModerationRoutes.confidence a = 0).

(** [y] is [x] as a review by owner [uid] of the term [wid] may leave it:
    untouched, or the reviewed term itself with a new status and
    decision under the same identity, owner, word and count. *)
Definition reviewed_as (uid wid : nat) (x y : NewWord.t) : Prop :=
  y = x
  \/ (NewWord._id x = wid /\ NewWord.userId x = uid
      /\ NewWord._id y = NewWord._id x
      /\ term_key y = term_key x
      /\ NewWord.frequency y = NewWord.frequency x
      /\ NewWord.originalText y = NewWord.originalText x).

(** [x] may come before [y] in a list sorted by count, then by last
    detection, both descending: [x] was counted more often, or as often
    and detected no earlier. *)
Definition ranks_before (x y : NewWord.t) : Prop :=
  (NewWord.frequency y < NewWord.frequency x)%nat
  \/ (NewWord.frequency x = NewWord.frequency y
      /\ (NewWord.lastDetected y <= NewWord.lastDetected x)%nat).

(** * Properties *)

(** ** The monad *)

Lemma bind_Ok {A B} (m : M A) (k : A -> M B) s a s' :
  m s = (Ok a, s') -> bind m k s = k a s'.
Proof. intros H. unfold bind. now rewrite H. Qed.

Lemma bind_Throw {A B} (m : M A) (k : A -> M B) s e s' :
  m s = (Throw e, s') -> bind m k s = (Throw e, s').
Proof. intros H. unfold bind. now rewrite H. Qed.

Lemma some_word_in_Some w words t s :
  some_word_in w words (Some t) s = (Ok (containsWord w words t), s).
Proof. destruct words; reflexivity. Qed.

(** ** Text messages: the custom word lists *)

Lemma processTextMessage_blocked_word w message user t s :
  Message.text (Message.content message) = Some t ->
  containsWord w (customBlockedWords (moderationSettings user)) t = true ->
  processTextMessage w message user s =
    (Ok {| Message.status := Message.blocked;
           Message.reason := Some "custom_word";
           Message.hateSpeech :=
             Some {| Message.hs_detected := true;
                     Message.hs_confidence := 1;
                     Message.hs_category := Some (Js.Str "custom") |};
           Message.contentModeration := None;
           Message.transcription := None |}, s).
Proof.
  intros Ht Hb. unfold processTextMessage. rewrite Ht.
  rewrite (bind_Ok _ _ _ _ _ (some_word_in_Some w _ t s)).
  now rewrite Hb.
Qed.

Lemma processTextMessage_allowed_word w message user t s :
  Message.text (Message.content message) = Some t ->
  containsWord w (customBlockedWords (moderationSettings user)) t = false ->
  containsWord w (customAllowedWords (moderationSettings user)) t = true ->
  processTextMessage w message user s = (Ok (result Message.approved None), s).
Proof.
  intros Ht Hb Ha. unfold processTextMessage. rewrite Ht.
  rewrite (bind_Ok _ _ _ _ _ (some_word_in_Some w _ t s)). rewrite Hb.
  rewrite (bind_Ok _ _ _ _ _ (some_word_in_Some w _ t s)).
  now rewrite Ha.
Qed.

Lemma moderate_text w messageData message user s :
  type messageData = "text" ->
  moderate w messageData message user s =
    bind (processTextMessage w message user) (fun r => ret (r, message)) s.
Proof. intros H. unfold moderate. now rewrite H. Qed.

(** C1 (as the code has it). A text message whose content contains an
    allowed word and no blocked word is approved, whatever the toxicity
    model would answer: the model is not even called (the store, and with
    it the call log, is returned as it was). The block list is consulted
    first: when the content also contains a blocked word the verdict is
    blocked, with the custom-word reason. *)
Theorem allowed_word_approves_unless_blocked_word :
  forall w messageData i user t s,
    type messageData = "text" ->
    Message.text (extractContent messageData) = Some t ->
    containsWord w (customAllowedWords (moderationSettings user)) t = true ->
    exists r,
      moderate w messageData (newMessage i user messageData) user s =
        (Ok (r, newMessage i user messageData), s)
      /\ (containsWord w (customBlockedWords (moderationSettings user)) t = false ->
          r = result Message.approved None)
      /\ (containsWord w (customBlockedWords (moderationSettings user)) t = true ->
          Message.status r = Message.blocked
          /\ Message.reason r = Some "custom_word").
Proof.
  intros w md i user t s Hty Ht Ha.
  rewrite moderate_text by assumption.
  destruct (containsWord w (customBlockedWords (moderationSettings user)) t)
    eqn:Hb.
  - eexists. split.
    + erewrite bind_Ok; [reflexivity|].
      now apply processTextMessage_blocked_word with (t := t).
    + split; [discriminate|]. intros _. split; reflexivity.
  - eexists. split.
    + erewrite bind_Ok; [reflexivity|].
      now apply processTextMessage_allowed_word with (t := t).
    + split; [reflexivity|discriminate].
Qed.

Lemma allowed_word_approves_unless_blocked_word_witness :
  let u := Fixture.owner ["spam"] ["community"] in
  let w := Fixture.world u None None (Fixture.toxic 1) None None in
  let md := Fixture.inbound "text" (Some "I love this Community") None in
  containsWord w (customBlockedWords (moderationSettings u))
    "I love this Community" = false
  /\ exists r,
       moderate w md (newMessage 0 u md) u empty_store =
         (Ok (r, newMessage 0 u md), empty_store)
       /\ (containsWord w (customBlockedWords (moderationSettings u))
             "I love this Community" = false ->
           r = result Message.approved None)
       /\ (containsWord w (customBlockedWords (moderationSettings u))
             "I love this Community" = true ->
           Message.status r = Message.blocked
           /\ Message.reason r = Some "custom_word").
Proof.
  intros u w md. split; [reflexivity|].
  apply (allowed_word_approves_unless_blocked_word w md 0 u
           "I love this Community" empty_store); reflexivity.
Defined.

(** C1 fails as stated: with the allowed word "good" and the blocked word
    "bad" configured, the text "good bad" contains an allowed word and is
    blocked for its custom word, in the verdict and in the stored
    record. *)
Lemma allowed_word_does_not_override_blocked_word :
  let u := Fixture.owner ["bad"] ["good"] in
  let w := Fixture.world u None None (Fixture.toxic 0) None None in
  let md := Fixture.inbound "text" (Some "good bad") None in
  containsWord w (customAllowedWords (moderationSettings u)) "good bad" = true
  /\ (exists r,
        moderate w md (newMessage 0 u md) u empty_store =
          (Ok (r, newMessage 0 u md), empty_store)
        /\ Message.status r = Message.blocked
        /\ Message.reason r = Some "custom_word")
  /\ stored_verdicts (snd (processIncomingMessage w md empty_store))
     = [(Message.blocked, Some "custom_word")].
Proof.
  split; [reflexivity|]. split; [|reflexivity].
  eexists. split; [vm_compute; reflexivity|].
  split; reflexivity.
Qed.

(** C2. A text message whose content contains a blocked word and no
    allowed word is blocked, with the reason the code spells
    ['custom_word'] (the custom-blocked-word reason) and the recorded
    hate-speech signal at confidence exactly 1. No service is called. *)
Theorem blocked_word_blocks_with_confidence_one :
  forall w messageData i user t s,
    type messageData = "text" ->
    Message.text (extractContent messageData) = Some t ->
    containsWord w (customBlockedWords (moderationSettings user)) t = true ->
    containsWord w (customAllowedWords (moderationSettings user)) t = false ->
    exists r,
      moderate w messageData (newMessage i user messageData) user s =
        (Ok (r, newMessage i user messageData), s)
      /\ Message.status r = Message.blocked
      /\ Message.reason r = Some "custom_word"
      /\ exists h, Message.hateSpeech r = Some h
                   /\ Message.hs_detected h = true
                   /\ Message.hs_confidence h = 1.
Proof.
  intros w md i user t s Hty Ht Hb _.
  eexists. split.
  - rewrite moderate_text by assumption.
    erewrite bind_Ok; [reflexivity|].
    now apply processTextMessage_blocked_word with (t := t).
  - cbn. repeat split. eexists. repeat split.
Qed.

Lemma blocked_word_blocks_with_confidence_one_witness :
  let u := Fixture.owner ["buy"] [] in
  let w := Fixture.world u None None (Fixture.toxic 0) None None in
  let md := Fixture.inbound "text" (Some "BUY now!!!") None in
  exists r,
    moderate w md (newMessage 0 u md) u empty_store =
      (Ok (r, newMessage 0 u md), empty_store)
    /\ Message.status r = Message.blocked
    /\ Message.reason r = Some "custom_word"
    /\ exists h, Message.hateSpeech r = Some h
                 /\ Message.hs_detected h = true
                 /\ Message.hs_confidence h = 1.
Proof.
  intros u w md.
  apply (blocked_word_blocks_with_confidence_one w md 0 u "BUY now!!!" empty_store);
    reflexivity.
Defined.

(** ** Text messages: the toxicity model *)

Lemma gt_true_iff a b : Js.gt a b = true <-> b < a.
Proof.
  unfold Js.gt. rewrite negb_true_iff. split; intros H.
  - apply Qnot_le_lt. intros Hle. apply Qle_bool_iff in Hle. congruence.
  - destruct (Qle_bool a b) eqn:E; [|reflexivity].
    apply Qle_bool_iff in E. exfalso. exact (Qlt_not_le _ _ H E).
Qed.

Lemma forEach_body_ok acc r :
  acc_ok acc -> acc_ok (HateSpeechDetection.forEach_body acc r).
Proof.
  intros Hacc. unfold HateSpeechDetection.forEach_body.
  destruct (Js.gt (HateSpeechDetection.score r) (1 # 2)) eqn:Ehalf; [|assumption].
  apply gt_true_iff in Ehalf. right.
  destruct (Js.gt (HateSpeechDetection.score r)
              (HateSpeechDetection.maxConfidence acc)) eqn:Emax; cbn.
  - split; [|assumption]. intros E. now apply app_eq_nil in E as [_ E].
  - split; [intros E; now apply app_eq_nil in E as [_ E]|].
    destruct Hacc as [[_ H0]|[_ Hgt]]; [|assumption].
    rewrite H0 in Emax.
    assert (Js.gt (HateSpeechDetection.score r) 0 = true) as Hc.
    { apply gt_true_iff. apply Qlt_trans with (1 # 2); [reflexivity|assumption]. }
    congruence.
Qed.

Lemma fold_forEach_ok results acc :
  acc_ok acc -> acc_ok (fold_left HateSpeechDetection.forEach_body results acc).
Proof.
  revert acc. induction results as [|r rs IH]; intros acc H; cbn; [assumption|].
  apply IH. now apply forEach_body_ok.
Qed.

(** [detectHateSpeech] reports [detected] exactly when its [confidence]
    is above one half. *)
Lemma detectHateSpeech_detected_iff response d c p cats :
  HateSpeechDetection.detectHateSpeech response
    = HateSpeechDetection.Success d c p cats ->
  (d = true <-> 1 # 2 < c).
Proof.
  destruct response as [results|]; cbn; [|discriminate].
  intros H. injection H as Hd Hc _ _. subst d c.
  assert (acc_ok (fold_left HateSpeechDetection.forEach_body results
                    HateSpeechDetection.acc0)) as Hok.
  { apply fold_forEach_ok. left. split; reflexivity. }
  destruct Hok as [[Hnil H0]|[Hne Hgt]].
  - rewrite Hnil, H0. cbn. split; [discriminate|]. intros Hlt. now inversion Hlt.
  - split; [intros _; assumption|]. intros _.
    destruct (HateSpeechDetection.detectedCategories _); [congruence|reflexivity].
Qed.

Lemma Message_find_blocked_run uid cleanWord s :
  exists l, Message_find_blocked uid cleanWord s = (Ok l, s).
Proof. eexists. reflexivity. Qed.

Lemma NewWord_findOne_run uid word s :
  NewWord_findOne uid word s =
    (Ok (find (fun nw => (NewWord.userId nw =? uid)%nat
                         && (NewWord.word nw =? word)) (newWords s)), s).
Proof. reflexivity. Qed.

Lemma checkWord_returns w t user word s :
  exists s', checkWord w t user word s = (Ok tt, s').
Proof.
  unfold checkWord.
  destruct (_ && _); [|eexists; reflexivity].
  destruct (Message_find_blocked_run (user_id user) (Js.strip_non_word word) s)
    as [l Hl].
  rewrite (bind_Ok _ _ _ _ _ Hl).
  destruct (3 <=? length l)%nat; [|eexists; reflexivity].
  rewrite (bind_Ok _ _ _ _ _ (NewWord_findOne_run _ _ s)).
  destruct (find _ _); eexists; reflexivity.
Qed.

Lemma for_each_checkWord_returns w t user words s :
  exists s', for_each (checkWord w t user) words s = (Ok tt, s').
Proof.
  revert s. induction words as [|x xs IH]; intros s; cbn.
  - eexists; reflexivity.
  - destruct (checkWord_returns w t user x s) as [s1 H1].
    rewrite (bind_Ok _ _ _ _ _ H1). apply IH.
Qed.

(** [checkForNewWords] returns whenever the text is a string. *)
Lemma checkForNewWords_returns w t user s :
  exists s', checkForNewWords w (Some t) user s = (Ok tt, s').
Proof. apply for_each_checkWord_returns. Qed.

(** The verdict of [processTextMessage] once both word lists are passed
    and the model has answered. *)
Lemma processTextMessage_classified w message user t s d c p cats :
  Message.text (Message.content message) = Some t ->
  containsWord w (customBlockedWords (moderationSettings user)) t = false ->
  containsWord w (customAllowedWords (moderationSettings user)) t = false ->
  HateSpeechDetection.detectHateSpeech (toxic_bert w (Some t))
    = HateSpeechDetection.Success d c p cats ->
  exists s',
    processTextMessage w message user s =
      (Ok (if d && hateSpeechEnabled (moderationSettings user)
           then {| Message.status := Message.blocked;
                   Message.reason := Some "hate_speech";
                   Message.hateSpeech :=
                     Some {| Message.hs_detected := true;
                             Message.hs_confidence := c;
                             Message.hs_category := p |};
                   Message.contentModeration := None;
                   Message.transcription := None |}
           else result Message.approved None), s').
Proof.
  intros Ht Hb Ha Hd. unfold processTextMessage. rewrite Ht.
  rewrite (bind_Ok _ _ _ _ _ (some_word_in_Some w _ t s)). rewrite Hb.
  rewrite (bind_Ok _ _ _ _ _ (some_word_in_Some w _ t s)). rewrite Ha.
  unfold bind at 1. cbn [call]. rewrite Hd.
  destruct (d && _).
  - eexists. reflexivity.
  - match goal with |- exists s', bind _ _ ?s0 = _ =>
      destruct (checkForNewWords_returns w t user s0) as [s1 H1];
      rewrite (bind_Ok _ _ _ _ _ H1) end.
    eexists. reflexivity.
Qed.

(** C3 (as the code has it). For a text message with no custom-word
    match, the toggle on and an answer from the model, the verdict is
    blocked for hate speech exactly when the reported confidence is above
    one half, and approved otherwise. One threshold, 0.5, decides both
    detection and blocking; no verdict lies between the two. *)
Theorem hate_speech_blocks_iff_confidence_above_half :
  forall w messageData i user t s d c p cats,
    type messageData = "text" ->
    Message.text (extractContent messageData) = Some t ->
    containsWord w (customBlockedWords (moderationSettings user)) t = false ->
    containsWord w (customAllowedWords (moderationSettings user)) t = false ->
    hateSpeechEnabled (moderationSettings user) = true ->
    HateSpeechDetection.detectHateSpeech (toxic_bert w (Some t))
      = HateSpeechDetection.Success d c p cats ->
    exists r s',
      moderate w messageData (newMessage i user messageData) user s =
        (Ok (r, newMessage i user messageData), s')
      /\ (Message.status r = Message.blocked
          /\ Message.reason r = Some "hate_speech" <-> 1 # 2 < c)
      /\ (Message.status r = Message.approved <-> ~ 1 # 2 < c).
Proof.
  intros w md i user t s d c p cats Hty Ht Hb Ha Hen Hd.
  destruct (processTextMessage_classified w (newMessage i user md) user t s
              d c p cats Ht Hb Ha Hd) as [s' Hp].
  pose proof (detectHateSpeech_detected_iff _ _ _ _ _ Hd) as Hiff.
  rewrite Hen, andb_true_r in Hp.
  eexists. exists s'. split.
  - rewrite moderate_text by assumption.
    rewrite (bind_Ok _ _ _ _ _ Hp). reflexivity.
  - destruct d; cbn.
    + assert (1 # 2 < c) as Hc by now apply Hiff.
      split; [tauto|]. split; [discriminate|tauto].
    + assert (~ 1 # 2 < c) as Hc by (intros Hc; apply Hiff in Hc; discriminate).
      split; [|tauto]. split; [intros [H _]; discriminate|tauto].
Qed.

Lemma hate_speech_blocks_iff_confidence_above_half_witness :
  let u := Fixture.owner [] [] in
  let w := Fixture.world u None None (Fixture.toxic (9 # 10)) None None in
  let md := Fixture.inbound "text" (Some "some words") None in
  exists r s',
    moderate w md (newMessage 0 u md) u empty_store =
      (Ok (r, newMessage 0 u md), s')
    /\ (Message.status r = Message.blocked
        /\ Message.reason r = Some "hate_speech" <-> 1 # 2 < 9 # 10)
    /\ (Message.status r = Message.approved <-> ~ 1 # 2 < 9 # 10).
Proof.
  intros u w md.
  eapply (hate_speech_blocks_iff_confidence_above_half w md 0 u "some words"
            empty_store true (9 # 10)); reflexivity.
Defined.

(** C3 fails as stated: a confidence of 0.6 lies in (0.5, 0.7], above no
    0.7 threshold, and the message is blocked for hate speech, in the
    verdict and in the stored record. *)
Lemma confidence_between_half_and_seven_tenths_is_blocked :
  let u := Fixture.owner [] [] in
  let w := Fixture.world u None None (Fixture.toxic (6 # 10)) None None in
  let md := Fixture.inbound "text" (Some "some words") None in
  (exists p cats,
     HateSpeechDetection.detectHateSpeech (toxic_bert w (Some "some words"))
       = HateSpeechDetection.Success true (6 # 10) p cats)
  /\ ~ 7 # 10 < 6 # 10
  /\ (exists r s',
        moderate w md (newMessage 0 u md) u empty_store =
          (Ok (r, newMessage 0 u md), s')
        /\ Message.status r = Message.blocked
        /\ Message.reason r = Some "hate_speech")
  /\ stored_verdicts (snd (processIncomingMessage w md empty_store))
     = [(Message.blocked, Some "hate_speech")].
Proof.
  split; [eexists; eexists; reflexivity|].
  split; [intros H; now inversion H|].
  split; [|reflexivity].
  eexists. eexists. split; [vm_compute; reflexivity|].
  split; reflexivity.
Qed.

(** ** Image and video messages *)

Lemma mediaVerdict_status m user :
  Message.status (mediaVerdict m user) =
    if nudity_qualifies m user || violence_qualifies m user || explicit_qualifies m
    then Message.blocked else Message.approved.
Proof.
  unfold mediaVerdict, nudity_qualifies, violence_qualifies, explicit_qualifies.
  destruct (_ && _), (_ && _), (ContentModeration.detected _); reflexivity.
Qed.

Lemma mediaVerdict_reason m user :
  Message.reason (mediaVerdict m user) =
    if explicit_qualifies m then Some "explicit_content"
    else if violence_qualifies m user then Some "violence"
    else if nudity_qualifies m user then Some "nudity"
    else None.
Proof.
  unfold mediaVerdict, nudity_qualifies, violence_qualifies, explicit_qualifies.
  destruct (_ && _), (_ && _), (ContentModeration.detected _); reflexivity.
Qed.

Lemma mediaVerdict_signals m user :
  Message.contentModeration (mediaVerdict m user) = Some m.
Proof.
  unfold mediaVerdict.
  destruct (_ && _), (_ && _), (ContentModeration.detected _); reflexivity.
Qed.

Lemma call_moderateMedia_returns data ty s :
  exists s', call_moderateMedia data ty s = (Ok tt, s').
Proof.
  unfold call_moderateMedia.
  destruct (ty =? "image"); [eexists; reflexivity|].
  destruct (ty =? "video"); eexists; reflexivity.
Qed.

Lemma processMediaMessage_downloaded w message user s data :
  downloadMedia w (Message.mediaId (Message.content message)) = Some data ->
  exists s',
    processMediaMessage w message user s =
      (Ok match moderateMedia w data (Message.messageType message) with
          | ContentModeration.Failure =>
              result Message.error (Some "media_moderation_failed")
          | ContentModeration.Success m => mediaVerdict m user
          end, s').
Proof.
  intros Hd. unfold processMediaMessage.
  unfold bind at 1. cbn [call]. rewrite Hd.
  match goal with |- exists s', bind _ _ ?s0 = _ =>
    destruct (call_moderateMedia_returns data (Message.messageType message) s0)
      as [s1 H1];
    rewrite (bind_Ok _ _ _ _ _ H1) end.
  destruct (moderateMedia _ _ _); eexists; reflexivity.
Qed.

Lemma moderate_media w messageData message user s :
  type messageData = "image" \/ type messageData = "video" ->
  moderate w messageData message user s =
    bind (processMediaMessage w message user) (fun r => ret (r, message)) s.
Proof. intros [H|H]; unfold moderate; now rewrite H. Qed.

(** The verdict of an image or video message once the media is
    downloaded and classified. *)
Lemma moderate_media_classified w messageData i user s data m :
  type messageData = "image" \/ type messageData = "video" ->
  downloadMedia w (Message.mediaId (extractContent messageData)) = Some data ->
  moderateMedia w data (type messageData) = ContentModeration.Success m ->
  exists s',
    moderate w messageData (newMessage i user messageData) user s =
      (Ok (mediaVerdict m user, newMessage i user messageData), s').
Proof.
  intros Hty Hd Hm.
  destruct (processMediaMessage_downloaded w (newMessage i user messageData)
              user s data Hd) as [s' Hp].
  cbn [newMessage Message.messageType] in Hp. rewrite Hm in Hp.
  exists s'. rewrite moderate_media by assumption.
  now rewrite (bind_Ok _ _ _ _ _ Hp).
Qed.

(** C4 (as the code has it). When more than one of nudity, violence and
    explicit qualifies, the recorded reason is that of the last
    qualifying category in the order nudity, violence, explicit: each
    check overwrites the reason of the one before. *)
Theorem last_qualifying_category_gives_reason :
  forall w messageData i user s data m,
    type messageData = "image" \/ type messageData = "video" ->
    downloadMedia w (Message.mediaId (extractContent messageData)) = Some data ->
    moderateMedia w data (type messageData) = ContentModeration.Success m ->
    (2 <= count_true [nudity_qualifies m user; violence_qualifies m user;
                      explicit_qualifies m])%nat ->
    exists r s',
      moderate w messageData (newMessage i user messageData) user s =
        (Ok (r, newMessage i user messageData), s')
      /\ Message.status r = Message.blocked
      /\ Message.reason r =
           Some (if explicit_qualifies m then "explicit_content" else "violence").
Proof.
  intros w md i user s data m Hty Hd Hm Hcount.
  destruct (moderate_media_classified w md i user s data m Hty Hd Hm) as [s' H].
  exists (mediaVerdict m user), s'. split; [assumption|].
  rewrite mediaVerdict_status, mediaVerdict_reason.
  destruct (nudity_qualifies m user), (violence_qualifies m user),
    (explicit_qualifies m); cbn in Hcount; try lia; split; reflexivity.
Qed.

Lemma last_qualifying_category_gives_reason_witness :
  let u := Fixture.owner [] [] in
  let w := Fixture.world u (Some "bytes") None None
             (Fixture.annotation "VERY_LIKELY" "VERY_LIKELY" "LIKELY") None in
  let md := Fixture.inbound "image" None Fixture.media in
  exists r s',
    moderate w md (newMessage 0 u md) u empty_store =
      (Ok (r, newMessage 0 u md), s')
    /\ Message.status r = Message.blocked
    /\ Message.reason r = Some "explicit_content".
Proof.
  intros u w md.
  refine (last_qualifying_category_gives_reason w md 0 u empty_store "bytes" _
            (or_introl eq_refl) eq_refl eq_refl _).
  cbn. lia.
Defined.

(** C4 fails as stated: an image annotated very likely adult and very
    likely violent, with both toggles on, has nudity and violence both
    qualifying (each at confidence 0.9), and the recorded reason is
    violence, not nudity, in the verdict and in the stored record. *)
Lemma nudity_and_violence_record_violence :
  let u := Fixture.owner [] [] in
  let w := Fixture.world u (Some "bytes") None None
             (Fixture.annotation "VERY_LIKELY" "VERY_LIKELY" "UNLIKELY") None in
  let md := Fixture.inbound "image" None Fixture.media in
  exists m r s',
    moderateMedia w "bytes" "image" = ContentModeration.Success m
    /\ nudity_qualifies m u = true
    /\ violence_qualifies m u = true
    /\ Js.gt (ContentModeration.confidence (ContentModeration.nudity m)) (8 # 10) = true
    /\ Js.gt (ContentModeration.confidence (ContentModeration.violence m)) (8 # 10) = true
    /\ moderate w md (newMessage 0 u md) u empty_store =
         (Ok (r, newMessage 0 u md), s')
    /\ Message.status r = Message.blocked
    /\ Message.reason r = Some "violence"
    /\ Message.reason r <> Some "nudity"
    /\ stored_verdicts (snd (processIncomingMessage w md empty_store))
       = [(Message.blocked, Some "violence")].
Proof.
  eexists. eexists. eexists.
  split; [reflexivity|].
  do 4 (split; [reflexivity|]).
  split; [vm_compute; reflexivity|].
  split; [reflexivity|]. split; [reflexivity|].
  split; [discriminate|reflexivity].
Qed.

Lemma likely_iff level :
  ContentModeration.likely level = true
  <-> 7 # 10 <= ContentModeration.getConfidenceScore level.
Proof.
  unfold ContentModeration.likely, ContentModeration.getConfidenceScore.
  destruct (level =? "VERY_LIKELY"), (level =? "LIKELY"),
    (level =? "POSSIBLE"), (level =? "UNLIKELY"), (level =? "VERY_UNLIKELY");
    cbn; split; intros H; try reflexivity; try discriminate;
    unfold Qle in *; cbn in *; lia.
Qed.

(** Whatever [moderateMedia] answers, a category is reported detected
    exactly when its confidence is at least 0.7. *)
Lemma moderateMedia_detected_iff w data ty m :
  moderateMedia w data ty = ContentModeration.Success m ->
  Forall (fun c => ContentModeration.detected c = true
                   <-> 7 # 10 <= ContentModeration.confidence c)
    [ContentModeration.nudity m; ContentModeration.violence m;
     ContentModeration.explicit m].
Proof.
  unfold moderateMedia.
  destruct (ty =? "image").
  - destruct (vision_annotate w data) as [ss|]; cbn; [|discriminate].
    intros H. injection H as <-. cbn.
    repeat constructor; apply likely_iff.
  - destruct (ty =? "video"); [|discriminate].
    destruct (azure_submit w data) as [h|]; cbn; [|discriminate].
    intros H. injection H as <-. cbn.
    repeat constructor; cbn; intros H; try discriminate;
      unfold Qle in H; cbn in H; lia.
Qed.

(** C5 (as the code has it). For an image or video message whose
    classification succeeds, the verdict is approved exactly when no
    category qualifies, and blocked otherwise; a category qualifies when
    the adapter reports it detected (and, for nudity and violence, the
    toggle is on), and the adapter reports it detected exactly when its
    confidence is at least 0.7. The pipeline compares no confidence
    against 0.8. *)
Theorem media_approved_iff_no_category_detected :
  forall w messageData i user s data m,
    type messageData = "image" \/ type messageData = "video" ->
    downloadMedia w (Message.mediaId (extractContent messageData)) = Some data ->
    moderateMedia w data (type messageData) = ContentModeration.Success m ->
    exists r s',
      moderate w messageData (newMessage i user messageData) user s =
        (Ok (r, newMessage i user messageData), s')
      /\ (Message.status r = Message.approved
          <-> nudity_qualifies m user = false
              /\ violence_qualifies m user = false
              /\ explicit_qualifies m = false)
      /\ (Message.status r = Message.blocked
          <-> nudity_qualifies m user || violence_qualifies m user
              || explicit_qualifies m = true)
      /\ Forall (fun c => ContentModeration.detected c = true
                          <-> 7 # 10 <= ContentModeration.confidence c)
           [ContentModeration.nudity m; ContentModeration.violence m;
            ContentModeration.explicit m].
Proof.
  intros w md i user s data m Hty Hd Hm.
  destruct (moderate_media_classified w md i user s data m Hty Hd Hm) as [s' H].
  exists (mediaVerdict m user), s'. split; [assumption|].
  rewrite mediaVerdict_status.
  split; [|split].
  - destruct (nudity_qualifies m user), (violence_qualifies m user),
      (explicit_qualifies m); cbn; intuition discriminate.
  - destruct (nudity_qualifies m user), (violence_qualifies m user),
      (explicit_qualifies m); cbn; intuition discriminate.
  - now apply moderateMedia_detected_iff with (w := w) (data := data)
                                              (ty := type md).
Qed.

Lemma media_approved_iff_no_category_detected_witness :
  let u := Fixture.owner [] [] in
  let w := Fixture.world u (Some "bytes") None None
             (Fixture.annotation "POSSIBLE" "UNLIKELY" "VERY_UNLIKELY") None in
  let md := Fixture.inbound "image" None Fixture.media in
  exists m r s',
    moderate w md (newMessage 0 u md) u empty_store =
      (Ok (r, newMessage 0 u md), s')
    /\ (Message.status r = Message.approved
        <-> nudity_qualifies m u = false
            /\ violence_qualifies m u = false
            /\ explicit_qualifies m = false)
    /\ (Message.status r = Message.blocked
        <-> nudity_qualifies m u || violence_qualifies m u
            || explicit_qualifies m = true)
    /\ Forall (fun c => ContentModeration.detected c = true
                        <-> 7 # 10 <= ContentModeration.confidence c)
         [ContentModeration.nudity m; ContentModeration.violence m;
          ContentModeration.explicit m].
Proof.
  intros u w md. eexists.
  eapply (media_approved_iff_no_category_detected w md 0 u empty_store "bytes");
    [left; reflexivity | reflexivity | reflexivity].
Defined.

(** C5 fails as stated: an image annotated likely adult has nudity
    confidence 0.7 and no confidence above 0.8, and with the nudity
    toggle on it is blocked for nudity, in the verdict and in the stored
    record. *)
Lemma confidence_seven_tenths_blocks :
  let u := Fixture.owner [] [] in
  let w := Fixture.world u (Some "bytes") None None
             (Fixture.annotation "LIKELY" "VERY_UNLIKELY" "VERY_UNLIKELY") None in
  let md := Fixture.inbound "image" None Fixture.media in
  exists m r s',
    moderateMedia w "bytes" "image" = ContentModeration.Success m
    /\ ContentModeration.confidence (ContentModeration.nudity m) = 7 # 10
    /\ Forall (fun c => Js.gt (ContentModeration.confidence c) (8 # 10) = false)
         [ContentModeration.nudity m; ContentModeration.violence m;
          ContentModeration.explicit m]
    /\ moderate w md (newMessage 0 u md) u empty_store =
         (Ok (r, newMessage 0 u md), s')
    /\ Message.status r = Message.blocked
    /\ Message.reason r = Some "nudity"
    /\ stored_verdicts (snd (processIncomingMessage w md empty_store))
       = [(Message.blocked, Some "nudity")].
Proof.
  eexists. eexists. eexists.
  split; [reflexivity|]. split; [reflexivity|].
  split; [repeat constructor|].
  split; [vm_compute; reflexivity|].
  split; [reflexivity|]. split; reflexivity.
Qed.

(** C10 (as the code has it). A video whose download succeeds is never
    blocked. It is approved, with the fixed all-clear signals of the
    polling step, when the job submission succeeds; when the submission
    fails the verdict is the error [media_moderation_failed]. *)
Theorem video_is_never_blocked :
  forall w messageData i user s data,
    type messageData = "video" ->
    downloadMedia w (Message.mediaId (extractContent messageData)) = Some data ->
    exists r s',
      moderate w messageData (newMessage i user messageData) user s =
        (Ok (r, newMessage i user messageData), s')
      /\ Message.status r <> Message.blocked
      /\ (azure_submit w data <> None ->
            Message.status r = Message.approved
            /\ exists m,
                 Message.contentModeration r = Some m
                 /\ Forall (fun c => ContentModeration.detected c = false
                                     /\ ContentModeration.confidence c = 1 # 10)
                      [ContentModeration.nudity m; ContentModeration.violence m;
                       ContentModeration.explicit m])
      /\ (azure_submit w data = None ->
            r = result Message.error (Some "media_moderation_failed")).
Proof.
  intros w md i user s data Hty Hd.
  destruct (processMediaMessage_downloaded w (newMessage i user md) user s data Hd)
    as [s' Hp].
  cbn [newMessage Message.messageType] in Hp.
  eexists. exists s'. split.
  - rewrite moderate_media by (now right).
    rewrite (bind_Ok _ _ _ _ _ Hp). reflexivity.
  - unfold moderateMedia. rewrite Hty. cbn.
    destruct (azure_submit w data) as [jobId|]; cbn.
    + split; [discriminate|]. split; [|discriminate].
      intros _. split; [reflexivity|]. eexists. split; [reflexivity|].
      repeat constructor.
    + split; [discriminate|]. split; [congruence|reflexivity].
Qed.

Lemma video_is_never_blocked_witness :
  let u := Fixture.owner [] [] in
  let w := Fixture.world u (Some "bytes") None None None (Some (Some "job-1")) in
  let md := Fixture.inbound "video" None Fixture.media in
  exists r s',
    moderate w md (newMessage 0 u md) u empty_store =
      (Ok (r, newMessage 0 u md), s')
    /\ Message.status r <> Message.blocked
    /\ Message.status r = Message.approved
    /\ exists m,
         Message.contentModeration r = Some m
         /\ Forall (fun c => ContentModeration.detected c = false
                             /\ ContentModeration.confidence c = 1 # 10)
              [ContentModeration.nudity m; ContentModeration.violence m;
               ContentModeration.explicit m].
Proof.
  intros u w md.
  destruct (video_is_never_blocked w md 0 u empty_store "bytes" eq_refl eq_refl)
    as (r & s' & Hm & Hnb & Hok & _).
  exists r, s'. split; [exact Hm|]. split; [exact Hnb|].
  apply Hok. discriminate.
Defined.

(** C10 fails as stated: a video whose download succeeds and whose job
    submission fails gets the verdict error, not approved. *)
Lemma video_submission_failure_is_error :
  let u := Fixture.owner [] [] in
  let w := Fixture.world u (Some "bytes") None None None None in
  let md := Fixture.inbound "video" None Fixture.media in
  downloadMedia w (Message.mediaId (extractContent md)) = Some "bytes"
  /\ exists r s',
       processIncomingMessage w md empty_store = (Some r, s')
       /\ Message.status r = Message.error
       /\ Message.reason r = Some "media_moderation_failed".
Proof.
  split; [reflexivity|].
  eexists. eexists. split; [vm_compute; reflexivity|].
  split; reflexivity.
Qed.

(** ** The message store *)

Lemma Message_insert_run m s :
  Message_insert m s =
    if negb (Message.validate m && Message.casts m)
    then (Throw ValidationError, s)
    else if stored (Message.whatsappMessageId m) s then (Throw DuplicateKey, s)
    else (Ok tt, with_messages (messages s ++ [m]) s).
Proof.
  unfold Message_insert, stored.
  destruct (negb _); [reflexivity|].
  unfold bind, get_messages. destruct (existsb _ _); reflexivity.
Qed.

Lemma Message_update_run m s :
  Message_update m s =
    if negb (Message.validate m && Message.casts m)
    then (Throw ValidationError, s)
    else (Ok tt, with_messages (replace_by_id m (messages s)) s).
Proof. unfold Message_update. destruct (negb _); reflexivity. Qed.

(** A record that passed the insert passes the save of
    [handleApprovedMessage]. *)
Lemma handleApprovedMessage_run message s :
  Message.validate message && Message.casts message = true ->
  handleApprovedMessage message s =
    (Ok tt, with_messages
              (replace_by_id (Message.set_metadata_status "delivered" message)
                 (messages s)) s).
Proof.
  intros H. unfold handleApprovedMessage. rewrite Message_update_run.
  change (Message.validate (Message.set_metadata_status _ ?m))
    with (Message.validate m).
  change (Message.casts (Message.set_metadata_status _ ?m))
    with (Message.casts m).
  now rewrite H.
Qed.

(** The save after an accepted reply is rejected: the response holds an
    object where the schema has a string. *)
Lemma Message_update_response_rejected r message s :
  Message.rs_content r = Js.Obj ->
  Message_update (Message.set_response r message) s = (Throw ValidationError, s).
Proof.
  intros H. rewrite Message_update_run.
  assert (Message.casts (Message.set_response r message) = false) as ->.
  { unfold Message.casts. cbn [Message.response Message.set_response].
    rewrite H. apply andb_false_r. }
  now rewrite andb_false_r.
Qed.

Lemma replace_by_id_last m m' ms :
  Message._id m = Message._id m' ->
  replace_by_id m' (ms ++ [m]) = replace_by_id m' ms ++ [m'].
Proof.
  intros H. unfold replace_by_id. rewrite map_app. cbn.
  now rewrite H, Nat.eqb_refl.
Qed.

Lemma replace_by_id_other m' ms :
  Forall (fun m => Message._id m < Message._id m')%nat ms ->
  replace_by_id m' ms = ms.
Proof.
  induction 1 as [|m ms Hm _ IH]; cbn; [reflexivity|].
  fold (replace_by_id m' ms). rewrite IH.
  destruct (Nat.eqb_spec (Message._id m) (Message._id m')); [lia|reflexivity].
Qed.

Lemma processFound_moderated w messageData user s r m' s1 :
  moderate w messageData (newMessage (nextId s) user messageData) user (after_new s)
    = (Ok (r, m'), s1) ->
  processFound w messageData user s =
    finish w user r (Message.set_moderation r m') s1.
Proof.
  intros H. unfold processFound.
  change (bind new_ObjectId ?k s) with (k (nextId s) (after_new s)).
  cbv beta. rewrite (bind_Ok _ _ _ _ _ H). cbn [fst snd].
  unfold bind at 1. rewrite Message_insert_run. unfold finish.
  destruct (negb _); [reflexivity|].
  destruct (stored _ _); reflexivity.
Qed.

Lemma processFound_thrown w messageData user s e s1 :
  moderate w messageData (newMessage (nextId s) user messageData) user (after_new s)
    = (Throw e, s1) ->
  processFound w messageData user s = (Throw e, s1).
Proof.
  intros H. unfold processFound.
  change (bind new_ObjectId ?k s) with (k (nextId s) (after_new s)).
  cbv beta. now rewrite (bind_Throw _ _ _ _ _ H).
Qed.

(** ** Documents *)

Lemma moderate_document w messageData message user s :
  type messageData = "document" ->
  moderate w messageData message user s =
    (Ok (result Message.approved None, message), s).
Proof. intros H. unfold moderate. now rewrite H. Qed.

(** C7. A document message is approved without any call leaving the
    process: the dispatch returns the initial verdict and the store,
    call log included, as it was, whatever the services would answer and
    whatever the owner's settings. Over the whole delivery the call log
    stays as it was, and when the record passes the schema and its id is
    not stored yet the message is stored with that verdict. *)
Theorem document_is_approved_without_classifier :
  forall w messageData user s,
    type messageData = "document" ->
    (forall message,
        moderate w messageData message user s =
          (Ok (result Message.approved None, message), s))
    /\ (User_findOne w (to messageData) = Some user ->
        trace (snd (processIncomingMessage w messageData s)) = trace s
        /\ (stored (id messageData) s = false ->
            Message.validate (newMessage (nextId s) user messageData) = true ->
            fst (processIncomingMessage w messageData s)
              = Some (result Message.approved None)
            /\ exists m,
                 In m (messages (snd (processIncomingMessage w messageData s)))
                 /\ Message.whatsappMessageId m = id messageData
                 /\ Message.moderation m = Some (result Message.approved None))).
Proof.
  intros w md user s Hty. split.
  - intros message. now apply moderate_document.
  - intros Hu. unfold processIncomingMessage. rewrite Hu.
    rewrite (processFound_moderated w md user s _ _ _
               (moderate_document w md _ user (after_new s) Hty)).
    unfold finish.
    change (Message.validate (Message.set_moderation _ ?m))
      with (Message.validate m).
    change (Message.casts (Message.set_moderation _ _)) with true.
    rewrite andb_true_r.
    change (stored _ (after_new s)) with (stored (id md) s).
    destruct (Message.validate _) eqn:Eval; cbn [negb];
      [|split; [reflexivity|intros _; discriminate]].
    destruct (stored (id md) s) eqn:Est.
    + split; [reflexivity|discriminate].
    + cbn [Message.Status_eqb Message.status result].
      unfold bind.
      rewrite handleApprovedMessage_run
        by (change (Message.validate (Message.set_moderation _ ?m))
              with (Message.validate m); now rewrite Eval).
      cbn [ret fst snd].
      split; [reflexivity|]. intros _ _. split; [reflexivity|].
      eexists. split.
      * cbn [messages with_messages after_new].
        rewrite replace_by_id_last by reflexivity.
        apply in_or_app. right. left. reflexivity.
      * split; reflexivity.
Qed.

Lemma document_is_approved_without_classifier_witness :
  let u := Fixture.owner ["bad"] [] in
  let w := Fixture.world u None None None None None in
  let md := Fixture.inbound "document" None Fixture.media in
  (forall message,
      moderate w md message u empty_store =
        (Ok (result Message.approved None, message), empty_store))
  /\ trace (snd (processIncomingMessage w md empty_store)) = []
  /\ fst (processIncomingMessage w md empty_store)
     = Some (result Message.approved None)
  /\ exists m,
       In m (messages (snd (processIncomingMessage w md empty_store)))
       /\ Message.whatsappMessageId m = "wamid.1"
       /\ Message.moderation m = Some (result Message.approved None).
Proof.
  intros u w md.
  destruct (document_is_approved_without_classifier w md u empty_store eq_refl)
    as [Hm Hp].
  destruct (Hp eq_refl) as [Htrace Hstore].
  destruct (Hstore eq_refl eq_refl) as [Hv Hin].
  split; [exact Hm|]. split; [exact Htrace|]. split; [exact Hv|exact Hin].
Defined.

(** ** Audio messages whose transcription fails *)

Lemma moderate_audio w messageData message user s :
  type messageData = "audio" ->
  moderate w messageData message user s = processAudioMessage w message user s.
Proof. intros H. unfold moderate. now rewrite H. Qed.

Lemma processAudioMessage_download_failed w message user s :
  downloadMedia w (Message.mediaId (Message.content message)) = None ->
  processAudioMessage w message user s =
    (Ok (result Message.error (Some "audio_download_failed"), message),
     logged [EvDownloadMedia (Message.mediaId (Message.content message))] s).
Proof.
  intros H. unfold processAudioMessage. unfold bind, call. now rewrite H.
Qed.

Lemma processAudioMessage_transcription_failed w message user s data :
  downloadMedia w (Message.mediaId (Message.content message)) = Some data ->
  transcribeAudio w data = None ->
  processAudioMessage w message user s =
    (Ok (result Message.error (Some "transcription_failed"), message),
     logged [EvDownloadMedia (Message.mediaId (Message.content message));
             EvTranscribe data] s).
Proof.
  intros Hd Ht. unfold processAudioMessage. unfold bind, call.
  rewrite Hd, Ht. unfold ret, logged. cbn [trace]. now rewrite <- app_assoc.
Qed.

(** The rest of the delivery once an audio verdict is an error: the
    record is inserted (unless its id is stored already), then marked
    delivered; nothing is sent. *)
Lemma finish_audio_error w user reason message s1 :
  finish w user (result Message.error reason) message s1 =
    if negb (Message.validate message && Message.casts message)
    then (Throw ValidationError, s1)
    else if stored (Message.whatsappMessageId message) s1
    then (Throw DuplicateKey, s1)
    else (Ok (result Message.error reason),
          with_messages
            (replace_by_id (Message.set_metadata_status "delivered" message)
               (messages s1 ++ [message])) s1).
Proof.
  unfold finish.
  destruct (Message.validate message && Message.casts message) eqn:Ev;
    [|reflexivity].
  cbn [negb]. destruct (stored _ _); [reflexivity|].
  cbn [Message.Status_eqb Message.status result]. unfold bind.
  now rewrite handleApprovedMessage_run.
Qed.

(** C6. For an audio message whose download or transcription fails, the
    verdict is an error: it is one of two fixed error verdicts, computed
    without reading the owner's settings; the only calls of the whole
    delivery are the download and, if reached, the transcription, so
    neither the toxicity model is consulted nor a reply sent; and the
    record is stored with that verdict (the save is refused only to a
    record that fails the schema or whose provider id is stored
    already). *)
Theorem failed_transcription_gives_error :
  forall w messageData user s,
    type messageData = "audio" ->
    User_findOne w (to messageData) = Some user ->
    (downloadMedia w (Message.mediaId (extractContent messageData)) = None
     \/ exists data,
          downloadMedia w (Message.mediaId (extractContent messageData)) = Some data
          /\ transcribeAudio w data = None) ->
    exists r evs,
      (r = result Message.error (Some "audio_download_failed")
       \/ r = result Message.error (Some "transcription_failed"))
      /\ Message.status r = Message.error
      /\ (exists s1,
            moderate w messageData (newMessage (nextId s) user messageData) user
              (after_new s)
            = (Ok (r, newMessage (nextId s) user messageData), s1))
      /\ trace (snd (processIncomingMessage w messageData s)) = trace s ++ evs
      /\ forallb (fun e => negb (is_send e) && negb (is_text_policy_call e)) evs
         = true
      /\ (stored (id messageData) s = false ->
          Message.validate (newMessage (nextId s) user messageData) = true ->
          fst (processIncomingMessage w messageData s) = Some r
          /\ exists m,
               In m (messages (snd (processIncomingMessage w messageData s)))
               /\ Message.whatsappMessageId m = id messageData
               /\ Message.moderation m = Some r).
Proof.
  intros w md user s Hty Hu Hfail.
  assert (exists reason evs,
            (reason = "audio_download_failed" \/ reason = "transcription_failed")
            /\ forallb (fun e => negb (is_send e) && negb (is_text_policy_call e)) evs
               = true
            /\ moderate w md (newMessage (nextId s) user md) user (after_new s)
               = (Ok (result Message.error (Some reason),
                      newMessage (nextId s) user md),
                  logged evs (after_new s))) as (reason & evs & Hr & Hevs & Hm).
  { destruct Hfail as [Hd|(data & Hd & Ht)].
    - exists "audio_download_failed". eexists. split; [now left|].
      split; [|rewrite moderate_audio by assumption;
               exact (processAudioMessage_download_failed w
                        (newMessage (nextId s) user md) user (after_new s) Hd)].
      reflexivity.
    - exists "transcription_failed". eexists. split; [now right|].
      split; [|rewrite moderate_audio by assumption;
               exact (processAudioMessage_transcription_failed w
                        (newMessage (nextId s) user md) user (after_new s)
                        data Hd Ht)].
      reflexivity. }
  exists (result Message.error (Some reason)), evs.
  split; [destruct Hr; subst; tauto|]. split; [reflexivity|].
  split; [eexists; exact Hm|].
  unfold processIncomingMessage. rewrite Hu.
  rewrite (processFound_moderated _ _ _ _ _ _ _ Hm).
  rewrite finish_audio_error.
  change (Message.validate (Message.set_moderation _ ?m))
    with (Message.validate m).
  change (Message.casts (Message.set_moderation _ _)) with true.
  rewrite andb_true_r.
  cbn [Message.set_moderation Message.whatsappMessageId newMessage].
  change (stored (id md) (logged evs (after_new s))) with (stored (id md) s).
  destruct (Message.validate _); cbn [negb];
    [|cbn; split; [reflexivity|]; split; [assumption|intros _; discriminate]].
  destruct (stored (id md) s).
  - cbn. split; [reflexivity|]. split; [assumption|discriminate].
  - cbn [fst snd trace with_messages logged after_new messages].
    split; [reflexivity|]. split; [assumption|]. intros _ _.
    split; [reflexivity|].
    eexists. split.
    + rewrite replace_by_id_last by reflexivity.
      apply in_or_app. right. left. reflexivity.
    + split; reflexivity.
Qed.

Lemma failed_transcription_gives_error_witness :
  let u := Fixture.owner ["bad"] [] in
  let w := Fixture.world u (Some "bytes") None (Fixture.toxic 1) None None in
  let md := Fixture.inbound "audio" None Fixture.media in
  exists r evs,
    Message.status r = Message.error
    /\ trace (snd (processIncomingMessage w md empty_store)) = evs
    /\ forallb (fun e => negb (is_send e) && negb (is_text_policy_call e)) evs
       = true
    /\ fst (processIncomingMessage w md empty_store) = Some r
    /\ exists m,
         In m (messages (snd (processIncomingMessage w md empty_store)))
         /\ Message.whatsappMessageId m = "wamid.1"
         /\ Message.moderation m = Some r.
Proof.
  intros u w md.
  destruct (failed_transcription_gives_error w md u empty_store eq_refl eq_refl
              (or_intror (ex_intro _ "bytes" (conj eq_refl eq_refl))))
    as (r & evs & _ & Hst & _ & Htrace & Hevs & Hstore).
  destruct (Hstore eq_refl eq_refl) as [Hv Hin].
  exists r, evs. split; [exact Hst|]. split; [exact Htrace|].
  split; [exact Hevs|]. split; [exact Hv|exact Hin].
Defined.

(** ** One stored message per provider id *)

Lemma frame_refl s : frame s s.
Proof. split; [reflexivity|lia]. Qed.

Lemma frame_trans s1 s2 s3 : frame s1 s2 -> frame s2 s3 -> frame s1 s3.
Proof. intros [H1 H2] [H3 H4]. split; [congruence|lia]. Qed.

Lemma Frames_ret {A} (a : A) : Frames (ret a).
Proof. intros s. apply frame_refl. Qed.

Lemma Frames_throw {A} e : Frames (@throw A e).
Proof. intros s. apply frame_refl. Qed.

Lemma Frames_bind {A B} (m : M A) (k : A -> M B) :
  Frames m -> (forall a, Frames (k a)) -> Frames (bind m k).
Proof.
  intros Hm Hk s. unfold bind. specialize (Hm s).
  destruct (m s) as [[a|e] s1]; cbn in *; [|assumption].
  eapply frame_trans; [eassumption|apply Hk].
Qed.

Lemma Frames_try_catch {A} (m h : M A) :
  Frames m -> Frames h -> Frames (try_catch m h).
Proof.
  intros Hm Hh s. unfold try_catch. specialize (Hm s).
  destruct (m s) as [[a|e] s1]; cbn in *; [assumption|].
  eapply frame_trans; [eassumption|apply Hh].
Qed.

Lemma Frames_call e : Frames (call e).
Proof. intros s. split; cbn; [reflexivity|lia]. Qed.

Lemma Frames_new_ObjectId : Frames new_ObjectId.
Proof. intros s. split; cbn; [reflexivity|lia]. Qed.

Lemma Frames_get_messages : Frames get_messages.
Proof. intros s. split; cbn; [reflexivity|lia]. Qed.

Lemma Frames_get_newWords : Frames get_newWords.
Proof. intros s. split; cbn; [reflexivity|lia]. Qed.

Lemma Frames_put_newWords ws : Frames (put_newWords ws).
Proof. intros s. split; cbn; [reflexivity|lia]. Qed.

Create HintDb frames.

#[local] Hint Resolve Frames_ret Frames_throw Frames_call Frames_new_ObjectId
  Frames_get_messages Frames_get_newWords Frames_put_newWords : frames.

Ltac frames :=
  repeat first
    [ solve [auto with frames]
    | apply Frames_bind; [|intros ?]
    | apply Frames_try_catch
    | match goal with
      | |- Frames (match ?x with _ => _ end) => destruct x
      | |- Frames (if ?b then _ else _) => destruct b
      | |- Frames (let _ := _ in _) => cbv zeta
      end ].

Lemma Frames_some_word_in w words text : Frames (some_word_in w words text).
Proof. unfold some_word_in. frames. Qed.

Lemma Frames_checkWord w t user word : Frames (checkWord w t user word).
Proof.
  unfold checkWord, Message_find_blocked, NewWord_findOne, NewWord_insert,
    NewWord_update. frames.
Qed.

Lemma Frames_for_each {A} (f : A -> M unit) l :
  (forall x, Frames (f x)) -> Frames (for_each f l).
Proof. intros Hf. induction l; cbn; frames. Qed.

Lemma Frames_checkForNewWords w text user : Frames (checkForNewWords w text user).
Proof.
  unfold checkForNewWords. destruct text; [|frames].
  apply Frames_for_each. intros x. apply Frames_checkWord.
Qed.

#[local] Hint Resolve Frames_some_word_in Frames_checkForNewWords : frames.

Lemma Frames_processTextMessage w message user :
  Frames (processTextMessage w message user).
Proof. unfold processTextMessage. frames. Qed.

#[local] Hint Resolve Frames_processTextMessage : frames.

Lemma Frames_processAudioMessage w message user :
  Frames (processAudioMessage w message user).
Proof. unfold processAudioMessage. frames. Qed.

Lemma Frames_processMediaMessage w message user :
  Frames (processMediaMessage w message user).
Proof. unfold processMediaMessage, call_moderateMedia. frames. Qed.

#[local] Hint Resolve Frames_processAudioMessage Frames_processMediaMessage : frames.

Lemma Frames_moderate w messageData message user :
  Frames (moderate w messageData message user).
Proof. unfold moderate. frames. Qed.

Lemma Ensures_ret {A} (Q : A -> Prop) a : Q a -> Ensures Q (ret a).
Proof. intros H s a' s' E. injection E as <- _. assumption. Qed.

Lemma Ensures_bind {A B} (Q : B -> Prop) (m : M A) (k : A -> M B) :
  (forall a, Ensures Q (k a)) -> Ensures Q (bind m k).
Proof.
  intros Hk s b s'. unfold bind.
  destruct (m s) as [[a|e] s1]; [apply Hk|discriminate].
Qed.

Lemma Ensures_try_catch {A} (Q : A -> Prop) (m h : M A) :
  Ensures Q m -> Ensures Q h -> Ensures Q (try_catch m h).
Proof.
  intros Hm Hh s a s'. unfold try_catch.
  destruct (m s) as [[a1|e] s1] eqn:E.
  - intros E'. injection E' as <- _. eapply Hm. eassumption.
  - apply Hh.
Qed.

Lemma moderate_same_key w messageData message user :
  Ensures (fun rm => same_key message (snd rm))
    (moderate w messageData message user).
Proof.
  assert (same_key message message) as Hrefl by (repeat split).
  unfold moderate.
  destruct (type messageData =? "text").
  { apply Ensures_bind. intros r. now apply Ensures_ret. }
  destruct (type messageData =? "audio").
  { unfold processAudioMessage. apply Ensures_bind. intros _.
    destruct (downloadMedia _ _); [|now apply Ensures_ret].
    apply Ensures_bind. intros _.
    destruct (transcribeAudio _ _) as [[t l]|]; [|now apply Ensures_ret].
    apply Ensures_try_catch.
    - apply Ensures_bind. intros r.
      destruct (Message.Status_eqb _ _); apply Ensures_ret; repeat split.
    - apply Ensures_ret; repeat split. }
  destruct (_ || _).
  - apply Ensures_bind. intros r. now apply Ensures_ret.
  - now apply Ensures_ret.
Qed.

Lemma update_last m m' ms s2 :
  messages s2 = ms ++ [m] ->
  Forall (fun x => Message._id x < Message._id m)%nat ms ->
  Message._id m' = Message._id m ->
  messages (with_messages (replace_by_id m' (messages s2)) s2) = ms ++ [m'].
Proof.
  intros Hs Hlt Hid. cbn [messages with_messages]. rewrite Hs.
  rewrite replace_by_id_last by congruence.
  rewrite replace_by_id_other; [reflexivity|].
  now rewrite Hid.
Qed.

Lemma snd_bind_ret {A B} (m : M A) (b : B) s :
  snd (bind m (fun _ => ret b) s) = snd (m s).
Proof. unfold bind. now destruct (m s) as [[a|e] s1]. Qed.

(** The handlers after the insert rewrite the record just inserted and
    nothing else, whether they return or throw. *)
Lemma handler_store w user (is_blocked : bool) message s2 ms :
  Message.validate message && Message.casts message = true ->
  messages s2 = ms ++ [message] ->
  Forall (fun x => Message._id x < Message._id message)%nat ms ->
  exists message',
    messages (snd ((if is_blocked then handleBlockedMessage w message user
                    else handleApprovedMessage message) s2))
      = ms ++ [message']
    /\ same_key message message'
    /\ nextId (snd ((if is_blocked then handleBlockedMessage w message user
                     else handleApprovedMessage message) s2)) = nextId s2.
Proof.
  intros Hv Hs Hlt. destruct is_blocked.
  - exists message. unfold handleBlockedMessage.
    destruct (autoBlock _);
      [|split; [assumption|]; split; [repeat split|reflexivity]].
    unfold WhatsAppService.sendModerationResponse, bind, call, ret.
    cbv beta iota.
    destruct (sendTextMessage w _ _) as [messageId|].
    + rewrite Message_update_response_rejected by reflexivity.
      split; [exact Hs|]. split; [repeat split|reflexivity].
    + split; [exact Hs|]. split; [repeat split|reflexivity].
  - rewrite handleApprovedMessage_run by assumption. eexists.
    split; [|split; [|reflexivity]].
    + now apply update_last with (m := message).
    + repeat split.
Qed.

(** What one run of the [try] body does to the collection: nothing, or
    one record appended under an id that was not stored. *)
Lemma processFound_store w messageData user s :
  Forall (fun x => Message._id x < nextId s)%nat (messages s) ->
  (nextId s < nextId (snd (processFound w messageData user s)))%nat
  /\ (messages (snd (processFound w messageData user s)) = messages s
      \/ (stored (id messageData) s = false
          /\ exists m,
               messages (snd (processFound w messageData user s))
                 = messages s ++ [m]
               /\ Message.whatsappMessageId m = id messageData
               /\ Message._id m = nextId s)).
Proof.
  intros Hall.
  pose proof (Frames_moderate w messageData
                (newMessage (nextId s) user messageData) user (after_new s))
    as [Hms Hnext].
  cbn [nextId after_new messages] in Hms, Hnext.
  destruct (moderate w messageData (newMessage (nextId s) user messageData)
              user (after_new s)) as [[[r m']|e] s1] eqn:Hm; cbn [snd] in *.
  - pose proof (moderate_same_key _ _ _ _ _ _ _ Hm) as (Hid & Hwid & Hty).
    cbn [snd newMessage Message._id Message.whatsappMessageId
         Message.messageType] in Hid, Hwid, Hty.
    rewrite (processFound_moderated _ _ _ _ _ _ _ Hm). unfold finish.
    destruct (Message.validate _ && Message.casts _) eqn:Ev; cbn [negb];
      [|cbn; split; [lia|now left]].
    change (Message.whatsappMessageId (Message.set_moderation r m'))
      with (Message.whatsappMessageId m').
    rewrite Hwid.
    assert (stored (id messageData) s1 = stored (id messageData) s) as Hst
        by (unfold stored; now rewrite Hms).
    rewrite Hst.
    destruct (stored (id messageData) s) eqn:Est; [cbn; split; [lia|now left]|].
    destruct (handler_store w user
                (Message.Status_eqb (Message.status r) Message.blocked)
                (Message.set_moderation r m')
                (with_messages (messages s1 ++ [Message.set_moderation r m']) s1)
                (messages s))
      as (message' & Hms3 & (Hid3 & Hwid3 & _) & Hnext3).
    { exact Ev. }
    { cbn [messages with_messages]. now rewrite Hms. }
    { cbn [Message._id Message.set_moderation]. now rewrite Hid. }
    rewrite snd_bind_ret.
    cbn [nextId with_messages] in Hnext3.
    split; [lia|]. right. split; [reflexivity|].
    exists message'. split; [assumption|].
    cbn [Message._id Message.whatsappMessageId Message.set_moderation]
      in Hid3, Hwid3.
    split; congruence.
  - rewrite (processFound_thrown _ _ _ _ _ _ Hm). cbn. split; [lia|now left].
Qed.

Lemma NoDup_snoc {A} (l : list A) x : NoDup l -> ~ In x l -> NoDup (l ++ [x]).
Proof.
  induction 1 as [|a l Ha Hl IH]; cbn; intros Hx.
  - constructor; [intros []|constructor].
  - constructor.
    + intros Hin. apply in_app_or in Hin as [Hin|[->|[]]]; [contradiction|].
      apply Hx. now left.
    + apply IH. intros Hin. apply Hx. now right.
Qed.

Lemma stored_false_not_In wid s :
  stored wid s = false -> ~ In wid (map Message.whatsappMessageId (messages s)).
Proof.
  unfold stored. intros Hst Hin. apply in_map_iff in Hin as (m & Hm & Hin).
  assert (existsb (fun m' => Message.whatsappMessageId m' =? wid) (messages s)
          = true) as Ht.
  { apply existsb_exists. exists m. split; [assumption|].
    rewrite Hm. apply String.eqb_refl. }
  congruence.
Qed.

Lemma StoreOk_empty : StoreOk empty_store.
Proof. split; constructor. Qed.

Lemma processIncomingMessage_StoreOk w messageData s :
  StoreOk s -> StoreOk (snd (processIncomingMessage w messageData s)).
Proof.
  intros [Hnd Hall]. unfold processIncomingMessage.
  destruct (User_findOne w (to messageData)) as [user|]; [|now split].
  pose proof (processFound_store w messageData user s Hall) as [Hnext Hms].
  destruct (processFound w messageData user s) as [[r|e] s'];
    cbn [snd] in *; unfold StoreOk.
  all: destruct Hms as [Hms|(Hst & m & Hms & Hwid & Hid)]; rewrite Hms; split.
  all: try assumption.
  all: try (eapply Forall_impl; [|exact Hall]; cbn; intros; lia).
  all: try (rewrite map_app; cbn; rewrite Hwid; apply NoDup_snoc;
            [assumption|now apply stored_false_not_In]).
  all: apply Forall_app; split;
    [eapply Forall_impl; [|exact Hall]; cbn; intros; lia
    |constructor; [lia|constructor]].
Qed.

Lemma deliverAll_StoreOk ds s : StoreOk s -> StoreOk (deliverAll ds s).
Proof.
  revert s. induction ds as [|[w md] ds IH]; intros s Hs; cbn; [assumption|].
  apply IH. now apply processIncomingMessage_StoreOk.
Qed.

(** A delivery whose provider id is stored already reaches no verdict and
    leaves the collection as it is. *)
Lemma redelivery_changes_nothing w messageData s :
  stored (id messageData) s = true ->
  fst (processIncomingMessage w messageData s) = None
  /\ messages (snd (processIncomingMessage w messageData s)) = messages s.
Proof.
  intros Hst. unfold processIncomingMessage.
  destruct (User_findOne w (to messageData)) as [user|]; [|now split].
  pose proof (Frames_moderate w messageData
                (newMessage (nextId s) user messageData) user (after_new s))
    as [Hms _].
  cbn [after_new messages] in Hms.
  destruct (moderate w messageData (newMessage (nextId s) user messageData)
              user (after_new s)) as [[[r m']|e] s1] eqn:Hm; cbn [snd] in *.
  - pose proof (moderate_same_key _ _ _ _ _ _ _ Hm) as (_ & Hwid & _).
    cbn [snd newMessage Message.whatsappMessageId] in Hwid.
    rewrite (processFound_moderated _ _ _ _ _ _ _ Hm). unfold finish.
    destruct (negb _); [now split|].
    change (Message.whatsappMessageId (Message.set_moderation r m'))
      with (Message.whatsappMessageId m').
    rewrite Hwid.
    assert (stored (id messageData) s1 = true) as ->
        by (unfold stored; rewrite Hms; exact Hst).
    now split.
  - rewrite (processFound_thrown _ _ _ _ _ _ Hm). now split.
Qed.

(** C8. After any sequence of webhook deliveries, starting from the empty
    collection and whatever the services answer, the stored messages have
    pairwise distinct provider ids; and a delivery whose provider id is
    already stored reaches no verdict and leaves the collection exactly as
    it was. The unique index on [whatsappMessageId] refuses the insert. *)
Theorem redelivery_stores_no_second_message :
  forall (ds : list (World * MessageData)) (w : World) (messageData : MessageData),
    NoDup (map Message.whatsappMessageId
             (messages (deliverAll ds empty_store)))
    /\ (stored (id messageData) (deliverAll ds empty_store) = true ->
        fst (processIncomingMessage w messageData (deliverAll ds empty_store))
          = None
        /\ messages (snd (processIncomingMessage w messageData
                            (deliverAll ds empty_store)))
           = messages (deliverAll ds empty_store)).
Proof.
  intros ds w md. split.
  - apply (deliverAll_StoreOk ds empty_store StoreOk_empty).
  - apply redelivery_changes_nothing.
Qed.

Lemma redelivery_stores_no_second_message_witness :
  let u := Fixture.owner ["bad"] [] in
  let w := Fixture.world u None None (Fixture.toxic 0) None None in
  let md := Fixture.inbound "text" (Some "so bad") None in
  map Message.whatsappMessageId (messages (deliverAll [(w, md)] empty_store))
    = ["wamid.1"]
  /\ fst (processIncomingMessage w md (deliverAll [(w, md)] empty_store)) = None
  /\ messages (deliverAll [(w, md); (w, md)] empty_store)
     = messages (deliverAll [(w, md)] empty_store).
Proof.
  intros u w md. split; [reflexivity|].
  apply (redelivery_stores_no_second_message [(w, md)] w md).
  reflexivity.
Defined.

(** ** Reviewing a candidate term *)

Lemma review_word_run w uid data s nw nw' :
  found uid data s = Some nw ->
  apply_action w data nw = Some nw' ->
  review_word w uid data s =
    (Ok (EmitWordReviewed (NewWord._id nw') (NewWord.word nw') (NewWord.status nw')),
     {| messages := messages s;
        newWords :=
          map (fun x => if (NewWord._id x =? NewWord._id nw')%nat then nw' else x)
            (newWords s);
        nextId := nextId s; trace := trace s |}).
Proof.
  unfold found. intros Hf Ha. unfold review_word.
  unfold bind at 1. cbn [get_newWords]. rewrite Hf, Ha. reflexivity.
Qed.

(** An action other than the three of the [switch] changes nothing. *)
Lemma review_word_unknown_action w uid data s :
  (action data =? "approve") = false ->
  (action data =? "reject") = false ->
  (action data =? "ignore") = false ->
  snd (review_word w uid data s) = s.
Proof.
  intros H1 H2 H3. unfold review_word, apply_action.
  unfold bind at 1. cbn [get_newWords]. rewrite H1, H2, H3.
  destruct (find _ _); reflexivity.
Qed.

(** C9 (as the code has it). A review decision on a term the owner can
    see is applied whatever the term's current status, decided ones
    included: the stored term takes the status of the new action, and its
    decision record is rewritten with the new flag, the current date and
    the new reason. The handler has no check of the current status. *)
Theorem review_overwrites_earlier_decision :
  forall w uid data s nw,
    found uid data s = Some nw ->
    action data = "approve" \/ action data = "reject" \/ action data = "ignore" ->
    exists nw',
      In nw' (newWords (snd (review_word w uid data s)))
      /\ NewWord._id nw' = NewWord._id nw
      /\ NewWord.word nw' = NewWord.word nw
      /\ NewWord.status nw' =
           (if action data =? "approve" then NewWord.approved
            else if action data =? "reject" then NewWord.rejected
            else NewWord.ignored)
      /\ NewWord.userDecision nw' =
           {| NewWord.markedAsHateSpeech := action data =? "approve";
              NewWord.decisionDate := Some (now w);
              NewWord.decisionReason :=
                Some (match reason data with Some r => r | None => EmptyString end) |}
      /\ fst (review_word w uid data s) =
           Ok (EmitWordReviewed (NewWord._id nw) (NewWord.word nw)
                 (NewWord.status nw')).
Proof.
  intros w uid data s nw Hf Hact.
  assert (exists nw', apply_action w data nw = Some nw'
                      /\ NewWord._id nw' = NewWord._id nw
                      /\ NewWord.word nw' = NewWord.word nw
                      /\ NewWord.status nw' =
                           (if action data =? "approve" then NewWord.approved
                            else if action data =? "reject" then NewWord.rejected
                            else NewWord.ignored)
                      /\ NewWord.userDecision nw' =
                           {| NewWord.markedAsHateSpeech := action data =? "approve";
                              NewWord.decisionDate := Some (now w);
                              NewWord.decisionReason :=
                                Some (match reason data with
                                      | Some r => r
                                      | None => EmptyString
                                      end) |})
    as (nw' & Ha & Hid & Hword & Hst & Hdec).
  { unfold apply_action.
    destruct Hact as [ -> | [ -> | -> ] ]; cbn; eexists; repeat split. }
  exists nw'. rewrite (review_word_run w uid data s nw nw' Hf Ha).
  cbn [fst snd newWords]. rewrite Hid, Hword.
  repeat split; try assumption.
  apply in_map_iff. exists nw. rewrite Nat.eqb_refl.
  split; [reflexivity|]. unfold found in Hf. now apply find_some in Hf.
Qed.

Lemma review_overwrites_earlier_decision_witness :
  exists nw',
    In nw' (newWords (snd (review_word ReviewFixture.world 1 ReviewFixture.approve
                             ReviewFixture.store)))
    /\ NewWord.status nw' = NewWord.approved
    /\ NewWord.markedAsHateSpeech (NewWord.userDecision nw') = true.
Proof.
  destruct (review_overwrites_earlier_decision ReviewFixture.world 1
              ReviewFixture.approve ReviewFixture.store ReviewFixture.term
              eq_refl (or_introl eq_refl))
    as (nw' & Hin & _ & _ & Hst & Hdec & _).
  exists nw'. split; [exact Hin|]. split; [exact Hst|].
  rewrite Hdec. reflexivity.
Defined.

(** C9 fails as stated: a term already rejected, reviewed again with the
    action approve, ends up approved and marked as hate speech, with a
    new decision date and reason. *)
Lemma decided_term_is_not_left_unchanged :
  NewWord.status ReviewFixture.term = NewWord.rejected
  /\ map (fun nw => (NewWord.status nw, NewWord.userDecision nw))
       (newWords (snd (review_word ReviewFixture.world 1 ReviewFixture.approve
                         ReviewFixture.store)))
     = [ (NewWord.approved,
          {| NewWord.markedAsHateSpeech := true;
             NewWord.decisionDate := Some 1000%nat;
             NewWord.decisionReason := Some "seen it used as a slur" |}) ]
  /\ map (fun nw => (NewWord.status nw, NewWord.userDecision nw))
       (newWords (snd (review_word ReviewFixture.world 1 ReviewFixture.approve
                         ReviewFixture.store)))
     <> map (fun nw => (NewWord.status nw, NewWord.userDecision nw))
          (newWords ReviewFixture.store).
Proof.
  split; [reflexivity|]. split; [reflexivity|]. discriminate.
Qed.

(** ** The model method nothing calls *)

(** [Message.shouldBlock] is the one place that compares a confidence
    with 0.7 or 0.8. No route or handler calls it, and it disagrees with
    the pipeline: the record the webhook stores as blocked for a
    confidence of 0.6 is one [shouldBlock] would let through. *)
Lemma shouldBlock_is_not_the_pipeline :
  let u := Fixture.owner [] [] in
  let w := Fixture.world u None None (Fixture.toxic (6 # 10)) None None in
  let md := Fixture.inbound "text" (Some "some words") None in
  map (fun m => (Message.moderation_status m, Message.shouldBlock m))
    (messages (snd (processIncomingMessage w md empty_store)))
  = [(Message.blocked, None)].
Proof. vm_compute. reflexivity. Qed.

(** * Further properties of the code *)

Ltac in_list := cbn; repeat first [left; reflexivity | right].

(** ** [detectHateSpeech]: what it reports *)

Lemma fold_forEach_categories results acc :
  HateSpeechDetection.detectedCategories
    (fold_left HateSpeechDetection.forEach_body results acc)
  = HateSpeechDetection.detectedCategories acc ++ reported results.
Proof.
  revert acc. induction results as [|r rs IH]; intros acc; cbn.
  - now rewrite app_nil_r.
  - rewrite IH. unfold reported. cbn [filter].
    unfold HateSpeechDetection.forEach_body.
    destruct (Js.gt (HateSpeechDetection.score r) (1 # 2)).
    + destruct (Js.gt _ (HateSpeechDetection.maxConfidence acc)); cbn;
        now rewrite <- app_assoc.
    + reflexivity.
Qed.

Lemma category_of_cases l :
  match HateSpeechDetection.category_of l with
  | Js.Str c => In c ["hate_speech"; "explicit_content"; "violence"; "other"]
  | v => Js.Object_prototype l = Some v
  end.
Proof.
  unfold HateSpeechDetection.category_of, HateSpeechDetection.categories.
  repeat match goal with
    | |- context [if ?b then _ else _] => destruct b; [in_list|]
    end.
  unfold Js.Object_prototype.
  destruct (l =? "__proto__"); [reflexivity|].
  destruct (Js.array_includes _ l); [reflexivity|in_list].
Qed.

(** X1. The categories [detectHateSpeech] reports are exactly the raw
    results whose score is above 0.5, in the order of the model's answer,
    each under what [categories[label] || 'other'] gives for its label;
    [detected] says whether there is any. A reported category is one of
    the names [hate_speech], [explicit_content], [violence] and [other],
    unless the label names a member of [Object.prototype] (such as
    [constructor]): then the lookup finds that member, and the category
    is the member, not a name. *)
Theorem detectHateSpeech_reports_scores_above_half :
  forall results,
    (exists c p,
       HateSpeechDetection.detectHateSpeech (Some results)
       = HateSpeechDetection.Success
           (negb (Nat.eqb (length (reported results)) 0)) c p (reported results))
    /\ Forall (fun x =>
                match HateSpeechDetection.dc_category x with
                | Js.Str c =>
                    In c ["hate_speech"; "explicit_content"; "violence"; "other"]
                | v => Js.Object_prototype (HateSpeechDetection.dc_label x) = Some v
                end)
         (reported results).
Proof.
  intros results. split.
  - cbn. rewrite fold_forEach_categories. cbn [app].
    eexists. eexists. f_equal. now destruct (reported results).
  - unfold reported. apply Forall_forall. intros x Hx.
    apply in_map_iff in Hx as (r & <- & _).
    apply category_of_cases.
Qed.

(** The label [constructor], which the table does not list, is reported
    under the function it inherits, not under ['other']. *)
Lemma inherited_label_reports_the_member :
  HateSpeechDetection.detectHateSpeech
    (Some [ {| HateSpeechDetection.label := "constructor";
               HateSpeechDetection.score := 9 # 10 |} ])
  = HateSpeechDetection.Success true (9 # 10) (Some (Js.Fun "constructor"))
      [ {| HateSpeechDetection.dc_category := Js.Fun "constructor";
           HateSpeechDetection.dc_label := "constructor";
           HateSpeechDetection.dc_confidence := 9 # 10 |} ].
Proof. reflexivity. Qed.

Lemma forEach_body_max acc r :
  acc_max acc -> acc_max (HateSpeechDetection.forEach_body acc r).
Proof.
  intros [Hall Hw]. unfold HateSpeechDetection.forEach_body.
  destruct (Js.gt (HateSpeechDetection.score r) (1 # 2)) eqn:Ehalf;
    [|now split].
  apply gt_true_iff in Ehalf.
  destruct (Js.gt (HateSpeechDetection.score r)
              (HateSpeechDetection.maxConfidence acc)) eqn:Emax; cbn.
  - apply gt_true_iff in Emax. split.
    + apply Forall_app. split.
      * eapply Forall_impl; [|exact Hall]. cbn. intros x [H1 H2].
        split; [assumption|].
        apply Qle_trans with (HateSpeechDetection.maxConfidence acc);
          [assumption|now apply Qlt_le_weak].
      * constructor; [|constructor]. cbn. split; [assumption|apply Qle_refl].
    + right. eexists. split; [apply in_or_app; right; left; reflexivity|].
      split; reflexivity.
  - assert (HateSpeechDetection.score r
            <= HateSpeechDetection.maxConfidence acc) as Hle.
    { apply Qnot_lt_le. intros Hlt. apply gt_true_iff in Hlt. congruence. }
    split.
    + apply Forall_app. split; [assumption|].
      constructor; [|constructor]. cbn. now split.
    + right. destruct Hw as [(_ & H0 & _)|(x & Hin & Hx & Hp)].
      * exfalso. rewrite H0 in Hle.
        apply (Qlt_irrefl (1 # 2)).
        apply Qlt_le_trans with (HateSpeechDetection.score r); [assumption|].
        apply Qle_trans with 0; [assumption|discriminate].
      * exists x. split; [apply in_or_app; now left|]. now split.
Qed.

Lemma fold_forEach_max results acc :
  acc_max acc -> acc_max (fold_left HateSpeechDetection.forEach_body results acc).
Proof.
  revert acc. induction results as [|r rs IH]; intros acc H; cbn; [assumption|].
  apply IH. now apply forEach_body_max.
Qed.

(** X2. The confidence [detectHateSpeech] returns is the highest score
    it reports: every reported category lies above 0.5 and at most at
    that confidence, one of them attains it, and the primary category is
    the category of such a one. When nothing is reported the confidence is
    0 and there is no primary category. *)
Theorem detectHateSpeech_confidence_is_the_maximum :
  forall response d c p cats,
    HateSpeechDetection.detectHateSpeech response
      = HateSpeechDetection.Success d c p cats ->
    Forall (fun x => 1 # 2 < HateSpeechDetection.dc_confidence x
                     /\ HateSpeechDetection.dc_confidence x <= c) cats
    /\ (cats = [] -> d = false /\ c = 0 /\ p = None)
    /\ (cats <> [] ->
        d = true
        /\ exists x, In x cats
                     /\ HateSpeechDetection.dc_confidence x = c
                     /\ p = Some (HateSpeechDetection.dc_category x)).
Proof.
  intros response d c p cats H.
  destruct response as [results|]; cbn in H; [|discriminate].
  injection H as Hd Hc Hp Hcats.
  assert (acc_max (fold_left HateSpeechDetection.forEach_body results
                     HateSpeechDetection.acc0)) as [Hall Hw].
  { apply fold_forEach_max. split; [constructor|]. left. repeat split. }
  rewrite Hcats, Hc, Hp in *. clear Hc Hp.
  split; [assumption|]. split.
  - intros ->. cbn in Hd. split; [now symmetry|].
    destruct Hw as [(_ & H0 & Hn)|(x & [] & _)]. now split.
  - intros Hne. split.
    + destruct cats; [congruence|now symmetry].
    + destruct Hw as [(Hnil & _)|(x & Hin & Hx & Hpx)]; [congruence|].
      exists x. now repeat split.
Qed.

Lemma detectHateSpeech_confidence_is_the_maximum_witness :
  exists x,
    In x (reported [ {| HateSpeechDetection.label := "insult";
                        HateSpeechDetection.score := 6 # 10 |};
                     {| HateSpeechDetection.label := "threat";
                        HateSpeechDetection.score := 9 # 10 |};
                     {| HateSpeechDetection.label := "obscene";
                        HateSpeechDetection.score := 2 # 10 |} ])
    /\ HateSpeechDetection.dc_confidence x = 9 # 10
    /\ Some (Js.Str "violence") = Some (HateSpeechDetection.dc_category x).
Proof.
  refine (proj2 (proj2 (proj2
    (detectHateSpeech_confidence_is_the_maximum
       (Some [ {| HateSpeechDetection.label := "insult";
                  HateSpeechDetection.score := 6 # 10 |};
               {| HateSpeechDetection.label := "threat";
                  HateSpeechDetection.score := 9 # 10 |};
               {| HateSpeechDetection.label := "obscene";
                  HateSpeechDetection.score := 2 # 10 |} ])
       true (9 # 10) (Some (Js.Str "violence")) _ eq_refl)) _)).
  discriminate.
Defined.

(** ** Relations every step of a computation keeps *)

Section KeepsRules.

Variable R : Store -> Store -> Prop.
Hypothesis R_refl : forall s, R s s.
Hypothesis R_trans : forall s1 s2 s3, R s1 s2 -> R s2 s3 -> R s1 s3.

Lemma Keeps_ret {A} (a : A) : Keeps R (ret a).
Proof. intros s. apply R_refl. Qed.

Lemma Keeps_throw {A} e : Keeps R (@throw A e).
Proof. intros s. apply R_refl. Qed.

Lemma Keeps_bind {A B} (m : M A) (k : A -> M B) :
  Keeps R m -> (forall a, Keeps R (k a)) -> Keeps R (bind m k).
Proof.
  intros Hm Hk s. unfold bind. specialize (Hm s).
  destruct (m s) as [[a|e] s1]; cbn in *; [|assumption].
  eapply R_trans; [eassumption|apply Hk].
Qed.

Lemma Keeps_try_catch {A} (m h : M A) :
  Keeps R m -> Keeps R h -> Keeps R (try_catch m h).
Proof.
  intros Hm Hh s. unfold try_catch. specialize (Hm s).
  destruct (m s) as [[a|e] s1]; cbn in *; [assumption|].
  eapply R_trans; [eassumption|apply Hh].
Qed.

Lemma Keeps_for_each {A} (f : A -> M unit) l :
  (forall x, Keeps R (f x)) -> Keeps R (for_each f l).
Proof.
  intros Hf. induction l as [|x l IH]; cbn.
  - apply Keeps_ret.
  - apply Keeps_bind; [apply Hf|intros _; exact IH].
Qed.

(** The steps of [processTextMessage] around the vocabulary learner. *)
Variable user : User.
Hypothesis R_call : forall e, is_send e = false -> Keeps R (call e).
Hypothesis R_checkForNewWords :
  forall w text, Keeps R (checkForNewWords w text user).

Lemma Keeps_some_word_in w words text : Keeps R (some_word_in w words text).
Proof.
  unfold some_word_in. destruct words; [apply Keeps_ret|].
  destruct text; [apply Keeps_ret|apply Keeps_throw].
Qed.

Lemma Keeps_processTextMessage w message :
  Keeps R (processTextMessage w message user).
Proof.
  unfold processTextMessage.
  apply Keeps_bind; [apply Keeps_some_word_in|]. intros [|]; [apply Keeps_ret|].
  apply Keeps_bind; [apply Keeps_some_word_in|]. intros [|]; [apply Keeps_ret|].
  apply Keeps_bind; [now apply R_call|]. intros _.
  destruct (HateSpeechDetection.detectHateSpeech _); [apply Keeps_ret|].
  destruct (_ && _); [apply Keeps_ret|].
  apply Keeps_bind; [apply R_checkForNewWords|]. intros _. apply Keeps_ret.
Qed.

Lemma Keeps_processAudioMessage w message :
  Keeps R (processAudioMessage w message user).
Proof.
  unfold processAudioMessage.
  apply Keeps_bind; [now apply R_call|]. intros _.
  destruct (downloadMedia _ _); [|apply Keeps_ret].
  apply Keeps_bind; [now apply R_call|]. intros _.
  destruct (transcribeAudio _ _) as [[t l]|]; [|apply Keeps_ret].
  apply Keeps_try_catch; [|apply Keeps_ret].
  apply Keeps_bind; [apply Keeps_processTextMessage|]. intros r.
  destruct (Message.Status_eqb _ _); apply Keeps_ret.
Qed.

Lemma Keeps_processMediaMessage w message :
  Keeps R (processMediaMessage w message user).
Proof.
  unfold processMediaMessage.
  apply Keeps_bind; [now apply R_call|]. intros _.
  destruct (downloadMedia _ _); [|apply Keeps_ret].
  apply Keeps_bind.
  - unfold call_moderateMedia.
    destruct (_ =? "image"); [now apply R_call|].
    destruct (_ =? "video"); [now apply R_call|apply Keeps_ret].
  - intros _. destruct (moderateMedia _ _ _); apply Keeps_ret.
Qed.

Lemma Keeps_moderate w messageData message :
  Keeps R (moderate w messageData message user).
Proof.
  unfold moderate.
  destruct (type messageData =? "text").
  { apply Keeps_bind; [apply Keeps_processTextMessage|]. intros r. apply Keeps_ret. }
  destruct (type messageData =? "audio"); [apply Keeps_processAudioMessage|].
  destruct (_ || _); [|apply Keeps_ret].
  apply Keeps_bind; [apply Keeps_processMediaMessage|]. intros r. apply Keeps_ret.
Qed.

End KeepsRules.

(** A postcondition of [m] may be used by what follows it. *)
Lemma Ensures_bind_post {A B} (P : A -> Prop) (Q : B -> Prop) (m : M A)
    (k : A -> M B) :
  Ensures P m -> (forall a, P a -> Ensures Q (k a)) -> Ensures Q (bind m k).
Proof.
  intros Hm Hk s b s'. unfold bind.
  destruct (m s) as [[a|e] s1] eqn:E; [|discriminate].
  apply Hk. eapply Hm. eassumption.
Qed.

(** ** The shape of a verdict *)

Ltac verdict_ok :=
  unfold verdict_ok; cbn;
  first
    [ split; reflexivity
    | split; [eexists; split; [reflexivity|in_list]|];
      first [ split; reflexivity
            | left; eexists; split; reflexivity ] ].

Lemma processTextMessage_verdict_ok w message user :
  Ensures verdict_ok (processTextMessage w message user).
Proof.
  unfold processTextMessage.
  apply Ensures_bind. intros [|]; [apply Ensures_ret; verdict_ok|].
  apply Ensures_bind. intros [|]; [apply Ensures_ret; verdict_ok|].
  apply Ensures_bind. intros _.
  destruct (HateSpeechDetection.detectHateSpeech _);
    [apply Ensures_ret; verdict_ok|].
  destruct (_ && _); [apply Ensures_ret; verdict_ok|].
  apply Ensures_bind. intros _. apply Ensures_ret; verdict_ok.
Qed.

Lemma mediaVerdict_ok m user : verdict_ok (mediaVerdict m user).
Proof.
  unfold verdict_ok, has_signal, mediaVerdict.
  destruct (ContentModeration.detected (ContentModeration.nudity m)) eqn:En,
    (nudityEnabled (moderationSettings user)),
    (ContentModeration.detected (ContentModeration.violence m)) eqn:Ev,
    (violenceEnabled (moderationSettings user)),
    (ContentModeration.detected (ContentModeration.explicit m)) eqn:Ee;
    cbn;
    first
      [ split; reflexivity
      | split; [eexists; split; [reflexivity|in_list]|];
        right; eexists; split; [reflexivity|];
        rewrite ?En, ?Ev, ?Ee; reflexivity ].
Qed.

Lemma processMediaMessage_verdict_ok w message user :
  Ensures verdict_ok (processMediaMessage w message user).
Proof.
  unfold processMediaMessage.
  apply Ensures_bind. intros _.
  destruct (downloadMedia _ _); [|apply Ensures_ret; verdict_ok].
  apply Ensures_bind. intros _.
  destruct (moderateMedia _ _ _); apply Ensures_ret;
    [verdict_ok|apply mediaVerdict_ok].
Qed.

Lemma processAudioMessage_verdict_ok w message user :
  Ensures (fun rm => verdict_ok (fst rm)) (processAudioMessage w message user).
Proof.
  unfold processAudioMessage.
  apply Ensures_bind. intros _.
  destruct (downloadMedia _ _); [|apply Ensures_ret; verdict_ok].
  apply Ensures_bind. intros _.
  destruct (transcribeAudio _ _) as [[t l]|]; [|apply Ensures_ret; verdict_ok].
  apply Ensures_try_catch; [|apply Ensures_ret; verdict_ok].
  apply Ensures_bind_post with (P := verdict_ok);
    [apply processTextMessage_verdict_ok|].
  intros r Hr.
  destruct (Message.Status_eqb (Message.status r) Message.blocked) eqn:Eb;
    apply Ensures_ret; [|verdict_ok].
  unfold verdict_ok in *. cbn [fst Message.status Message.reason].
  destruct (Message.status r); try discriminate.
  destruct Hr as [Hreason Hsig]. split; [exact Hreason|exact Hsig].
Qed.

Lemma moderate_verdict_ok w messageData message user :
  Ensures (fun rm => verdict_ok (fst rm)) (moderate w messageData message user).
Proof.
  unfold moderate.
  destruct (type messageData =? "text").
  { apply Ensures_bind_post with (P := verdict_ok);
      [apply processTextMessage_verdict_ok|].
    intros r0 Hr0. now apply Ensures_ret. }
  destruct (type messageData =? "audio"); [apply processAudioMessage_verdict_ok|].
  destruct (_ || _); [|apply Ensures_ret; verdict_ok].
  apply Ensures_bind_post with (P := verdict_ok);
    [apply processMediaMessage_verdict_ok|].
  intros r0 Hr0. now apply Ensures_ret.
Qed.

(** X3. Every verdict the dispatch returns is approved, blocked or error,
    never pending, and its reason fits: an approved verdict has no reason;
    a blocked one has one of the five blocking reasons and records a
    detected signal; an error one has one of the failure reasons and
    records no signal. *)
Theorem verdict_reason_fits_status :
  forall w messageData message user s r message' s',
    moderate w messageData message user s = (Ok (r, message'), s') ->
    verdict_ok r.
Proof.
  intros w md message user s r m' s' H.
  exact (moderate_verdict_ok w md message user _ _ _ H).
Qed.

Lemma verdict_reason_fits_status_witness :
  let u := Fixture.owner [] [] in
  let w := Fixture.world u (Some "bytes") None None
             (Fixture.annotation "UNLIKELY" "LIKELY" "UNLIKELY") None in
  let md := Fixture.inbound "image" None Fixture.media in
  exists r, fst (moderate w md (newMessage 0 u md) u empty_store) = Ok (r, newMessage 0 u md)
            /\ Message.status r = Message.blocked
            /\ verdict_ok r.
Proof.
  intros u w md. eexists. split; [reflexivity|]. split; [reflexivity|].
  eapply (verdict_reason_fits_status w md (newMessage 0 u md) u empty_store).
  reflexivity.
Defined.

(** ** Audio messages after a successful transcription *)

Lemma processAudioMessage_transcribed w message user s data t language :
  downloadMedia w (Message.mediaId (Message.content message)) = Some data ->
  transcribeAudio w data = Some (t, language) ->
  processAudioMessage w message user s =
    audio_after_transcription w message user (transcription_of t language)
      (logged [EvTranscribe data]
         (logged [EvDownloadMedia (Message.mediaId (Message.content message))] s)).
Proof.
  intros Hd Ht. unfold processAudioMessage. unfold bind at 1. cbn [call].
  rewrite Hd. unfold bind at 1. cbn [call]. rewrite Ht. reflexivity.
Qed.

(** [processTextMessage] reads the world through the toxicity model, the
    clock and [toLowerCase], and the message through its content. *)
Lemma processTextMessage_ext w1 w2 m1 m2 user :
  toxic_bert w1 = toxic_bert w2 ->
  now w1 = now w2 ->
  toLowerCase w1 = toLowerCase w2 ->
  Message.content m1 = Message.content m2 ->
  processTextMessage w1 m1 user = processTextMessage w2 m2 user.
Proof.
  destruct w1, w2, m1, m2. cbn. intros -> -> -> ->. reflexivity.
Qed.

Lemma processTextMessage_no_text w message user s :
  Message.text (Message.content message) = None ->
  customBlockedWords (moderationSettings user) <> []
  \/ customAllowedWords (moderationSettings user) <> [] ->
  processTextMessage w message user s = (Throw TypeError, s).
Proof.
  intros Ht Hw. unfold processTextMessage. rewrite Ht.
  destruct (customBlockedWords (moderationSettings user)) as [|b bs];
    [|reflexivity].
  destruct Hw as [Hw|Hw]; [congruence|].
  destruct (customAllowedWords (moderationSettings user)) as [|a l];
    [congruence|reflexivity].
Qed.

(** X4. What a transcription says never reaches the verdict: two runs on
    the same audio message, in the same runtime, that differ only in the
    transcript (text and language) the service returns give the same
    status, reason and signals, and leave the same store.
    [processTextMessage] is handed the message, whose [content.text] the
    transcription does not set. *)
Theorem audio_verdict_ignores_the_transcript :
  forall w1 w2 messageData i user s data t1 l1 t2 l2,
    type messageData = "audio" ->
    downloadMedia w1 = downloadMedia w2 ->
    toxic_bert w1 = toxic_bert w2 ->
    now w1 = now w2 ->
    toLowerCase w1 = toLowerCase w2 ->
    downloadMedia w1 (Message.mediaId (extractContent messageData)) = Some data ->
    transcribeAudio w1 data = Some (t1, l1) ->
    transcribeAudio w2 data = Some (t2, l2) ->
    exists r1 r2 m1 m2 s',
      moderate w1 messageData (newMessage i user messageData) user s
        = (Ok (r1, m1), s')
      /\ moderate w2 messageData (newMessage i user messageData) user s
         = (Ok (r2, m2), s')
      /\ verdict_core r1 = verdict_core r2.
Proof.
  intros w1 w2 md i user s data t1 l1 t2 l2 Hty Hdl Htb Hnow Hlow Hd H1 H2.
  assert (downloadMedia w2 (Message.mediaId (extractContent md)) = Some data)
    as Hd2 by (now rewrite <- Hdl).
  rewrite !moderate_audio by assumption.
  rewrite (processAudioMessage_transcribed w1 (newMessage i user md) user s
             data t1 l1 Hd H1).
  rewrite (processAudioMessage_transcribed w2 (newMessage i user md) user s
             data t2 l2 Hd2 H2).
  unfold audio_after_transcription, try_catch, bind.
  rewrite (processTextMessage_ext w1 w2
             (Message.set_transcription (transcription_of t1 l1)
                (newMessage i user md))
             (Message.set_transcription (transcription_of t2 l2)
                (newMessage i user md)) user Htb Hnow Hlow eq_refl).
  destruct (processTextMessage w2 _ user _) as [[r|e] s1].
  - destruct (Message.Status_eqb (Message.status r) Message.blocked);
      do 5 eexists; split; [reflexivity|split; reflexivity
                           |reflexivity|split; reflexivity].
  - do 5 eexists. split; [reflexivity|]. split; reflexivity.
Qed.

Lemma audio_verdict_ignores_the_transcript_witness :
  let u := Fixture.owner [] [] in
  let w1 := Fixture.world u (Some "bytes") (Some ("I hate you all", Some "en"))
              (Fixture.toxic (9 # 10)) None None in
  let w2 := Fixture.world u (Some "bytes") (Some ("good morning", None))
              (Fixture.toxic (9 # 10)) None None in
  let md := Fixture.inbound "audio" None Fixture.media in
  exists r1 r2 m1 m2 s',
    moderate w1 md (newMessage 0 u md) u empty_store = (Ok (r1, m1), s')
    /\ moderate w2 md (newMessage 0 u md) u empty_store = (Ok (r2, m2), s')
    /\ verdict_core r1 = verdict_core r2.
Proof.
  intros u w1 w2 md.
  apply (audio_verdict_ignores_the_transcript w1 w2 md 0 u empty_store "bytes"
           "I hate you all" (Some "en") "good morning" None); reflexivity.
Defined.

(** X5. A voice note (an audio message without a text body) whose
    transcription succeeds, for an owner with at least one custom blocked
    or allowed word, gets the verdict error [audio_processing_failed]: the
    word test reads the missing body, throws, and the [catch] of
    [processAudioMessage] answers. The classifier is not called. *)
Theorem voice_note_with_custom_words_is_an_error :
  forall w messageData i user s data t language,
    type messageData = "audio" ->
    Message.text (extractContent messageData) = None ->
    downloadMedia w (Message.mediaId (extractContent messageData)) = Some data ->
    transcribeAudio w data = Some (t, language) ->
    customBlockedWords (moderationSettings user) <> []
    \/ customAllowedWords (moderationSettings user) <> [] ->
    moderate w messageData (newMessage i user messageData) user s =
      (Ok (result Message.error (Some "audio_processing_failed"),
           Message.set_transcription (transcription_of t language)
             (newMessage i user messageData)),
       logged [EvTranscribe data]
         (logged [EvDownloadMedia (Message.mediaId (extractContent messageData))]
            s)).
Proof.
  intros w md i user s data t language Hty Htext Hd Ht Hw.
  rewrite moderate_audio by assumption.
  rewrite (processAudioMessage_transcribed w (newMessage i user md) user s
             data t language Hd Ht).
  unfold audio_after_transcription, try_catch.
  erewrite bind_Throw; [reflexivity|].
  now apply processTextMessage_no_text.
Qed.

Lemma voice_note_with_custom_words_is_an_error_witness :
  let u := Fixture.owner ["bad"] [] in
  let w := Fixture.world u (Some "bytes") (Some ("good morning", Some "en"))
             (Fixture.toxic 0) None None in
  let md := Fixture.inbound "audio" None Fixture.media in
  fst (moderate w md (newMessage 0 u md) u empty_store) =
    Ok (result Message.error (Some "audio_processing_failed"),
        Message.set_transcription (transcription_of "good morning" (Some "en"))
          (newMessage 0 u md)).
Proof.
  intros u w md.
  assert (customBlockedWords (moderationSettings u) <> []
          \/ customAllowedWords (moderationSettings u) <> []) as Hw
      by (left; discriminate).
  rewrite (voice_note_with_custom_words_is_an_error w md 0 u empty_store "bytes"
             "good morning" (Some "en") eq_refl eq_refl eq_refl eq_refl Hw).
  reflexivity.
Defined.

Lemma processTextMessage_no_text_no_words w message user s :
  Message.text (Message.content message) = None ->
  customBlockedWords (moderationSettings user) = [] ->
  customAllowedWords (moderationSettings user) = [] ->
  processTextMessage w message user s =
    (match HateSpeechDetection.detectHateSpeech (toxic_bert w None) with
     | HateSpeechDetection.Failure =>
         Ok (result Message.error (Some "hate_speech_detection_failed"))
     | HateSpeechDetection.Success d c p _ =>
         if d && hateSpeechEnabled (moderationSettings user)
         then Ok {| Message.status := Message.blocked;
                    Message.reason := Some "hate_speech";
                    Message.hateSpeech :=
                      Some {| Message.hs_detected := true;
                              Message.hs_confidence := c;
                              Message.hs_category := p |};
                    Message.contentModeration := None;
                    Message.transcription := None |}
         else Throw TypeError
     end, logged [EvDetectHateSpeech None] s).
Proof.
  intros Ht Hb Ha. unfold processTextMessage. rewrite Ht, Hb, Ha.
  unfold some_word_in, bind, call, ret. cbv beta iota.
  destruct (HateSpeechDetection.detectHateSpeech _); [reflexivity|].
  destruct (_ && _); reflexivity.
Qed.

(** X6. A voice note whose transcription succeeds, for an owner without
    custom words: the toxicity model is asked about the missing body
    ([undefined]), not about the transcript. If that call fails the
    verdict is approved; if it reports a detection and the toggle is on
    the verdict is blocked for hate speech; otherwise the vocabulary
    learner throws on the missing body and the verdict is the error
    [audio_processing_failed]. *)
Theorem voice_note_without_custom_words :
  forall w messageData i user s data t language,
    type messageData = "audio" ->
    Message.text (extractContent messageData) = None ->
    downloadMedia w (Message.mediaId (extractContent messageData)) = Some data ->
    transcribeAudio w data = Some (t, language) ->
    customBlockedWords (moderationSettings user) = [] ->
    customAllowedWords (moderationSettings user) = [] ->
    exists s',
      moderate w messageData (newMessage i user messageData) user s =
        (Ok (match HateSpeechDetection.detectHateSpeech (toxic_bert w None) with
             | HateSpeechDetection.Failure =>
                 {| Message.status := Message.approved;
                    Message.reason := None;
                    Message.hateSpeech := None;
                    Message.contentModeration := None;
                    Message.transcription := Some (transcription_of t language) |}
             | HateSpeechDetection.Success d c p _ =>
                 if d && hateSpeechEnabled (moderationSettings user)
                 then {| Message.status := Message.blocked;
                         Message.reason := Some "hate_speech";
                         Message.hateSpeech :=
                           Some {| Message.hs_detected := true;
                                   Message.hs_confidence := c;
                                   Message.hs_category := p |};
                         Message.contentModeration := None;
                         Message.transcription :=
                           Some (transcription_of t language) |}
                 else result Message.error (Some "audio_processing_failed")
             end,
             Message.set_transcription (transcription_of t language)
               (newMessage i user messageData)), s')
      /\ trace s' =
           trace s ++ [EvDownloadMedia (Message.mediaId (extractContent messageData));
                       EvTranscribe data; EvDetectHateSpeech None].
Proof.
  intros w md i user s data t language Hty Htext Hd Ht Hb Ha.
  rewrite moderate_audio by assumption.
  rewrite (processAudioMessage_transcribed w (newMessage i user md) user s
             data t language Hd Ht).
  unfold audio_after_transcription, try_catch, bind.
  rewrite processTextMessage_no_text_no_words by assumption.
  eexists. split.
  - destruct (HateSpeechDetection.detectHateSpeech (toxic_bert w None));
      [reflexivity|].
    destruct (_ && _); reflexivity.
  - cbn. now rewrite <- !app_assoc.
Qed.

Lemma voice_note_without_custom_words_witness :
  let u := Fixture.owner [] [] in
  let w := Fixture.world u (Some "bytes") (Some ("I hate you all", Some "en"))
             None None None in
  let md := Fixture.inbound "audio" None Fixture.media in
  exists r m s',
    moderate w md (newMessage 0 u md) u empty_store = (Ok (r, m), s')
    /\ Message.status r = Message.approved
    /\ trace s' = [EvDownloadMedia (Some "media-1"); EvTranscribe "bytes";
                   EvDetectHateSpeech None].
Proof.
  intros u w md.
  destruct (voice_note_without_custom_words w md 0 u empty_store "bytes"
              "I hate you all" (Some "en") eq_refl eq_refl eq_refl eq_refl
              eq_refl eq_refl) as (s' & Hm & Htr).
  do 3 eexists. split; [exact Hm|]. split; [reflexivity|exact Htr].
Defined.

(** ** Messages that are not stored *)

(** X7. A text message without a body (missing, or the empty string), for
    an owner with at least one custom blocked or allowed word, is dropped:
    the word test throws, the [catch] of [processIncomingMessage] logs it,
    and nothing is stored, no verdict reached, no service called. *)
Theorem text_without_body_is_dropped :
  forall w messageData user s,
    type messageData = "text" ->
    text messageData = None \/ text messageData = Some EmptyString ->
    User_findOne w (to messageData) = Some user ->
    customBlockedWords (moderationSettings user) <> []
    \/ customAllowedWords (moderationSettings user) <> [] ->
    processIncomingMessage w messageData s = (None, after_new s).
Proof.
  intros w md user s Hty Hbody Hu Hw.
  assert (Message.text (extractContent md) = None) as Htext.
  { unfold extractContent.
    assert (forall m c, Message.text (set_mediaId m c) = Message.text c) as Hset
        by (intros [x|] c; reflexivity).
    rewrite !Hset. cbn. destruct Hbody as [-> | ->]; reflexivity. }
  unfold processIncomingMessage. rewrite Hu.
  erewrite processFound_thrown; [reflexivity|].
  rewrite moderate_text by assumption.
  erewrite bind_Throw; [reflexivity|].
  now apply processTextMessage_no_text.
Qed.

Lemma text_without_body_is_dropped_witness :
  let u := Fixture.owner ["bad"] [] in
  let w := Fixture.world u None None (Fixture.toxic 0) None None in
  let md := Fixture.inbound "text" (Some EmptyString) None in
  processIncomingMessage w md empty_store = (None, after_new empty_store).
Proof.
  intros u w md.
  apply (text_without_body_is_dropped w md u empty_store);
    [reflexivity | now right | reflexivity | left; discriminate].
Defined.

(** X8. A message whose kind is outside the schema's enum (a sticker, a
    location, ...) takes no branch of the dispatch, so its verdict would
    be approved, but the save fails validation: the delivery stores
    nothing, reaches no verdict and calls no service. *)
Theorem unknown_kind_is_not_stored :
  forall w messageData user s,
    Js.array_includes Message.messageType_enum (type messageData) = false ->
    User_findOne w (to messageData) = Some user ->
    moderate w messageData (newMessage (nextId s) user messageData) user
      (after_new s)
    = (Ok (result Message.approved None, newMessage (nextId s) user messageData),
       after_new s)
    /\ processIncomingMessage w messageData s = (None, after_new s).
Proof.
  intros w md user s Hty Hu.
  assert (moderate w md (newMessage (nextId s) user md) user (after_new s)
          = (Ok (result Message.approved None, newMessage (nextId s) user md),
             after_new s)) as Hm.
  { unfold Js.array_includes, Message.messageType_enum in Hty. cbn in Hty.
    repeat (apply orb_false_iff in Hty as [? Hty]).
    unfold moderate.
    repeat match goal with H : (type md =? _) = false |- _ => rewrite H; clear H end.
    reflexivity. }
  split; [assumption|].
  unfold processIncomingMessage. rewrite Hu.
  rewrite (processFound_moderated _ _ _ _ _ _ _ Hm). unfold finish.
  unfold Message.validate.
  cbn [Message.messageType Message.set_moderation newMessage].
  rewrite Hty, andb_false_r. reflexivity.
Qed.

Lemma unknown_kind_is_not_stored_witness :
  let u := Fixture.owner [] [] in
  let w := Fixture.world u None None None None None in
  let md := Fixture.inbound "sticker" None None in
  processIncomingMessage w md empty_store = (None, after_new empty_store).
Proof.
  intros u w md.
  apply (unknown_kind_is_not_stored w md u empty_store); reflexivity.
Defined.

(** ** What a completed delivery stores and sends *)

Lemma sends_nothing_refl s : sends_nothing s s.
Proof. exists []. split; [now rewrite app_nil_r|reflexivity]. Qed.

Lemma sends_nothing_trans s1 s2 s3 :
  sends_nothing s1 s2 -> sends_nothing s2 s3 -> sends_nothing s1 s3.
Proof.
  intros (e1 & H1 & F1) (e2 & H2 & F2). exists (e1 ++ e2). split.
  - now rewrite H2, H1, app_assoc.
  - now rewrite filter_app, F1, F2.
Qed.

Lemma same_trace_refl s : same_trace s s.
Proof. reflexivity. Qed.

Lemma same_trace_trans s1 s2 s3 :
  same_trace s1 s2 -> same_trace s2 s3 -> same_trace s1 s3.
Proof. unfold same_trace. congruence. Qed.

Ltac keeps_with Hrefl Htrans :=
  repeat first
    [ apply (Keeps_ret _ Hrefl)
    | apply (Keeps_throw _ Hrefl)
    | apply (Keeps_bind _ Htrans); [|intros ?]
    | match goal with
      | |- Keeps _ (if ?b then _ else _) => destruct b
      | |- Keeps _ (match ?x with _ => _ end) => destruct x
      end ].

Lemma checkForNewWords_same_trace w text user :
  Keeps same_trace (checkForNewWords w text user).
Proof.
  unfold checkForNewWords.
  destruct text as [t|]; [|apply (Keeps_throw _ same_trace_refl)].
  apply (Keeps_for_each _ same_trace_refl same_trace_trans). intros word.
  unfold checkWord, Message_find_blocked, NewWord_findOne, NewWord_insert,
    NewWord_update.
  keeps_with same_trace_refl same_trace_trans; intros s0; reflexivity.
Qed.

Lemma moderate_sends_nothing w messageData message user :
  Keeps sends_nothing (moderate w messageData message user).
Proof.
  apply (Keeps_moderate _ sends_nothing_refl sends_nothing_trans).
  - intros e He s. exists [e]. split; [reflexivity|]. cbn. now rewrite He.
  - intros w0 text s. exists []. split; [|reflexivity].
    rewrite app_nil_r. apply checkForNewWords_same_trace.
Qed.

Lemma moderate_from_payload w messageData message user :
  Ensures (fun rm => from_payload message (snd rm))
    (moderate w messageData message user).
Proof.
  assert (from_payload message message) as Hrefl by now left.
  unfold moderate.
  destruct (type messageData =? "text").
  { apply Ensures_bind. intros r. now apply Ensures_ret. }
  destruct (type messageData =? "audio").
  { unfold processAudioMessage. apply Ensures_bind. intros _.
    destruct (downloadMedia _ _); [|now apply Ensures_ret].
    apply Ensures_bind. intros _.
    destruct (transcribeAudio _ _) as [[t l]|]; [|now apply Ensures_ret].
    apply Ensures_try_catch.
    - apply Ensures_bind. intros r.
      destruct (Message.Status_eqb _ _); apply Ensures_ret; right;
        eexists; reflexivity.
    - apply Ensures_ret. right. eexists. reflexivity. }
  destruct (_ || _).
  - apply Ensures_bind. intros r. now apply Ensures_ret.
  - now apply Ensures_ret.
Qed.

(** [finish] when the store accepts the record: the run completes with
    the verdict unless the reply was accepted, in which case the save of
    the response throws. *)
Lemma finish_accepted w user r m' s1 :
  Message.validate m' = true ->
  Message.casts (Message.set_moderation r m') = true ->
  stored (Message.whatsappMessageId m') s1 = false ->
  exists s3,
    finish w user r (Message.set_moderation r m') s1
      = (if reply_accepted w user (Message.from m') r
         then Throw ValidationError else Ok r, s3)
    /\ trace s3 = trace s1 ++ reply_events user (Message.from m') r
    /\ newWords s3 = newWords s1
    /\ nextId s3 = nextId s1
    /\ (is_blocked r = true
        \/ Forall (fun x => Message._id x < Message._id m')%nat (messages s1) ->
        messages s3 = messages s1 ++ [saved_record r m']).
Proof.
  intros Hval Hcast Hst. unfold finish.
  change (Message.validate (Message.set_moderation r m'))
    with (Message.validate m').
  change (Message.whatsappMessageId (Message.set_moderation r m'))
    with (Message.whatsappMessageId m').
  rewrite Hval, Hcast, Hst. cbn [negb andb].
  unfold reply_accepted, reply_events, saved_record, is_blocked.
  destruct (Message.Status_eqb (Message.status r) Message.blocked).
  - unfold handleBlockedMessage.
    destruct (autoBlock (moderationSettings user)); cbn [andb].
    + unfold WhatsAppService.sendModerationResponse, bind, call, ret.
      cbv beta iota.
      cbn [Message.from Message.moderation Message.set_moderation Message.reason].
      destruct (sendTextMessage w _ _) as [messageId|].
      * rewrite Message_update_response_rejected by reflexivity.
        eexists. split; [reflexivity|].
        cbn [trace newWords nextId messages with_messages]. repeat split.
      * eexists. split; [reflexivity|].
        cbn [trace newWords nextId messages with_messages]. repeat split.
    + eexists. split; [reflexivity|].
      cbn [trace newWords nextId messages with_messages].
      rewrite app_nil_r. repeat split.
  - cbn [andb]. unfold bind.
    rewrite handleApprovedMessage_run
      by (change (Message.validate (Message.set_moderation r m'))
            with (Message.validate m'); now rewrite Hval, Hcast).
    eexists. split; [reflexivity|].
    cbn [trace newWords nextId messages with_messages].
    rewrite app_nil_r. repeat split. intros [Hb|Hall]; [discriminate|].
    rewrite replace_by_id_last by reflexivity.
    now rewrite replace_by_id_other.
Qed.

(** [finish] when the store refuses the record. *)
Lemma finish_refused w user r m' s1 :
  Message.validate m' = false
  \/ Message.casts (Message.set_moderation r m') = false
  \/ stored (Message.whatsappMessageId m') s1 = true ->
  exists e, finish w user r (Message.set_moderation r m') s1 = (Throw e, s1).
Proof.
  intros H. unfold finish.
  change (Message.validate (Message.set_moderation r m'))
    with (Message.validate m').
  change (Message.whatsappMessageId (Message.set_moderation r m'))
    with (Message.whatsappMessageId m').
  destruct (Message.validate m' && Message.casts _) eqn:Ev; cbn [negb];
    [|eexists; reflexivity].
  apply andb_true_iff in Ev as [Ev1 Ev2].
  destruct H as [H|[H|H]]; [congruence|congruence|].
  rewrite H. eexists. reflexivity.
Qed.

Lemma from_payload_fields message m' :
  from_payload message m' ->
  Message._id m' = Message._id message
  /\ Message.whatsappMessageId m' = Message.whatsappMessageId message
  /\ Message.from m' = Message.from message
  /\ Message.content m' = Message.content message
  /\ Message.validate m' = Message.validate message.
Proof. intros [->|[tr ->]]; repeat split. Qed.

Lemma delivery_outcome w messageData s :
  Delivery w messageData s (processIncomingMessage w messageData s).
Proof.
  unfold processIncomingMessage.
  destruct (User_findOne w (to messageData)) as [user|] eqn:Hu;
    [|now constructor].
  pose proof (Frames_moderate w messageData
                (newMessage (nextId s) user messageData) user (after_new s))
    as [Hms _].
  cbn [after_new messages] in Hms.
  destruct (moderate w messageData (newMessage (nextId s) user messageData)
              user (after_new s)) as [[[r m']|e] s1] eqn:Hm; cbn [snd] in *.
  - pose proof (moderate_from_payload _ _ _ _ _ _ _ Hm) as Hfp. cbn [snd] in Hfp.
    destruct (from_payload_fields _ _ Hfp) as (Hid & Hwid & Hfrom & _ & Hval).
    cbn [newMessage Message._id Message.whatsappMessageId Message.from]
      in Hid, Hwid, Hfrom.
    rewrite (processFound_moderated _ _ _ _ _ _ _ Hm).
    assert (stored (Message.whatsappMessageId m') s1 = stored (id messageData) s)
      as Hst by (unfold stored; now rewrite Hms, Hwid).
    destruct (Message.validate m') eqn:Ev;
      [destruct (Message.casts (Message.set_moderation r m')) eqn:Ec;
       [destruct (stored (id messageData) s) eqn:Es|]|].
    + destruct (finish_refused w user r m' s1) as [e He];
        [right; right; now rewrite Hst|].
      rewrite He. apply Refused with (user := user) (r := r) (m' := m');
        try assumption. now right; right.
    + destruct (finish_accepted w user r m' s1 Ev Ec) as
          (s3 & Hf & Htr & Hnw & Hnx & Hmsgs); [now rewrite Hst|].
      rewrite Hf, Hfrom. rewrite Hfrom in Htr.
      destruct (reply_accepted w user (from messageData) r) eqn:Hra.
      * apply Answered with (user := user) (r := r) (m' := m') (s1 := s1);
          try assumption.
        -- now rewrite <- Hval.
        -- rewrite Htr. unfold reply_events.
           unfold reply_accepted in Hra.
           apply andb_true_iff in Hra as [-> _]. reflexivity.
        -- rewrite <- Hms. apply Hmsgs. left.
           unfold reply_accepted in Hra.
           now apply andb_true_iff in Hra as [Hra _];
             apply andb_true_iff in Hra as [Hra _].
      * apply Saved with (user := user) (m' := m') (s1 := s1);
          try assumption.
        -- now rewrite <- Hval.
        -- intros Hall. rewrite <- Hms. apply Hmsgs. right.
           now rewrite Hms, Hid.
    + destruct (finish_refused w user r m' s1) as [e He]; [now right; left|].
      rewrite He. apply Refused with (user := user) (r := r) (m' := m');
        try assumption. now right; left.
    + destruct (finish_refused w user r m' s1) as [e He]; [now left|].
      rewrite He. apply Refused with (user := user) (r := r) (m' := m');
        try assumption. left. now rewrite <- Hval.
  - rewrite (processFound_thrown _ _ _ _ _ _ Hm). eapply Thrown; eauto.
Qed.

Lemma saved_record_fields r m' :
  Message.whatsappMessageId (saved_record r m') = Message.whatsappMessageId m'
  /\ Message.from (saved_record r m') = Message.from m'
  /\ Message.content (saved_record r m') = Message.content m'
  /\ Message.moderation_status (saved_record r m') = Message.status r
  /\ (exists x, Message.moderation (saved_record r m') = Some x
                /\ verdict_core x = verdict_core r)
  /\ Message.metadata_status (saved_record r m')
     = (if is_blocked r then Message.metadata_status m' else "delivered")
  /\ Message.response (saved_record r m') = Message.response m'.
Proof.
  unfold saved_record.
  destruct (is_blocked r); repeat split; eexists; split; reflexivity.
Qed.

(** The record a delivery appends, and how the run of that delivery
    ends. *)
Lemma delivery_appended w messageData s final :
  Forall (fun x => Message._id x < nextId s)%nat (messages s) ->
  messages (snd (processIncomingMessage w messageData s))
    = messages s ++ [final] ->
  exists user r m' s1,
    User_findOne w (to messageData) = Some user
    /\ moderate w messageData (newMessage (nextId s) user messageData) user
         (after_new s) = (Ok (r, m'), s1)
    /\ from_payload (newMessage (nextId s) user messageData) m'
    /\ final = saved_record r m'
    /\ fst (processIncomingMessage w messageData s)
       = (if reply_accepted w user (from messageData) r then None else Some r).
Proof.
  intros Hall Hms.
  assert (forall l : list Message.t, l <> l ++ [final]) as Hne.
  { intros l E. apply (f_equal (@length _)) in E.
    rewrite length_app in E. cbn in E. lia. }
  destruct (delivery_outcome w messageData s)
    as [Hu|user e s1 Hu Hm|user r m' s1 Hu Hm Href
       |user r m' s1 s3 Hu Hm Hfp Hval Hcast Hst Hrep Htr Hnw Hnx Hmsgs
       |user r m' s1 s3 Hu Hm Hfp Hval Hcast Hst Hrep Htr Hnw Hnx Hmsgs];
    cbn [fst snd] in *.
  - now apply Hne in Hms.
  - pose proof (Frames_moderate w messageData
                  (newMessage (nextId s) user messageData) user (after_new s))
      as [Hfr _].
    rewrite Hm in Hfr. cbn [snd after_new messages] in Hfr.
    rewrite Hfr in Hms. now apply Hne in Hms.
  - pose proof (Frames_moderate w messageData
                  (newMessage (nextId s) user messageData) user (after_new s))
      as [Hfr _].
    rewrite Hm in Hfr. cbn [snd after_new messages] in Hfr.
    rewrite Hfr in Hms. now apply Hne in Hms.
  - rewrite (Hmsgs Hall) in Hms. apply app_inj_tail in Hms as [_ <-].
    exists user, r, m', s1. rewrite Hrep. now repeat split.
  - rewrite Hmsgs in Hms. apply app_inj_tail in Hms as [_ <-].
    exists user, r, m', s1. rewrite Hrep. now repeat split.
Qed.

(** X9. A delivery that completes with a verdict has appended exactly one
    record to the collection, leaving the others as they were: the record
    carries the provider id, sender and content of the payload and the
    verdict (status, reason, signals); it is marked delivered unless the
    verdict is blocked, in which case it stays received. An error verdict
    is therefore marked delivered like an approved one. *)
Theorem completed_delivery_appends_its_record :
  forall w messageData s r s',
    Forall (fun x => Message._id x < nextId s)%nat (messages s) ->
    processIncomingMessage w messageData s = (Some r, s') ->
    exists final,
      messages s' = messages s ++ [final]
      /\ Message.whatsappMessageId final = id messageData
      /\ Message.from final = from messageData
      /\ Message.content final = extractContent messageData
      /\ Message.moderation_status final = Message.status r
      /\ (exists x, Message.moderation final = Some x
                    /\ verdict_core x = verdict_core r)
      /\ Message.metadata_status final
         = (if is_blocked r then "received" else "delivered").
Proof.
  intros w md s r s' Hall Hrun.
  pose proof (delivery_outcome w md s) as Hd. rewrite Hrun in Hd.
  inversion Hd
    as [| | |user r0 m' s1 s3 Hu Hm Hfp Hval Hcast Hst Hrep Htr Hnw Hnx Hmsgs|];
    subst.
  destruct (from_payload_fields _ _ Hfp) as (_ & Hwid & Hfrom & Hcontent & _).
  destruct (saved_record_fields r m')
    as (Fwid & Ffrom & Fcontent & Fstatus & Fmod & Fmeta & _).
  exists (saved_record r m'). split; [now apply Hmsgs|].
  rewrite Fwid, Ffrom, Fcontent, Fstatus, Fmeta, Hwid, Hfrom, Hcontent.
  repeat split; try assumption.
  destruct (is_blocked r); [|reflexivity].
  destruct Hfp as [->|[tr ->]]; reflexivity.
Qed.

Lemma completed_delivery_appends_its_record_witness :
  let u := Fixture.owner [] [] in
  let w := Fixture.world u None None None None None in
  let md := Fixture.inbound "text" (Some "hello there") None in
  exists final,
    messages (snd (processIncomingMessage w md empty_store)) = [final]
    /\ Message.moderation_status final = Message.error
    /\ Message.metadata_status final = "delivered".
Proof.
  intros u w md.
  destruct (completed_delivery_appends_its_record w md empty_store
              (result Message.error (Some "hate_speech_detection_failed"))
              (snd (processIncomingMessage w md empty_store))
              (Forall_nil _) eq_refl)
    as (final & Hms & _ & _ & _ & Hst & _ & Hmeta).
  exists final. split; [exact Hms|]. split; [exact Hst|exact Hmeta].
Defined.

(** X10. A delivery sends at most one message, and sends one exactly when
    it has stored a record with a blocked verdict for an owner whose
    [autoBlock] is on, whether or not the run then reaches its end: the
    reply goes to the sender of the payload with the text of the stored
    reason. A delivery that stores nothing (it is dropped, throws, or is
    refused by the store) or stores another verdict sends nothing. *)
Theorem reply_only_for_stored_blocked_record :
  forall w messageData s,
    Forall (fun x => Message._id x < nextId s)%nat (messages s) ->
    exists evs new,
      trace (snd (processIncomingMessage w messageData s)) = trace s ++ evs
      /\ messages (snd (processIncomingMessage w messageData s))
         = messages s ++ new
      /\ filter is_send evs =
           match new, User_findOne w (to messageData) with
           | [final], Some user =>
               if Message.Status_eqb (Message.moderation_status final)
                    Message.blocked
                  && autoBlock (moderationSettings user)
               then [EvSendText (from messageData)
                       (WhatsAppService.responseText
                          (match Message.moderation final with
                           | Some x => Message.reason x
                           | None => None
                           end))]
               else []
           | _, _ => []
           end.
Proof.
  intros w md s Hall.
  assert (forall user, sends_nothing s
            (snd (moderate w md (newMessage (nextId s) user md) user
                    (after_new s)))) as Hquiet.
  { intros user. apply (moderate_sends_nothing w md _ user (after_new s)). }
  assert (forall user, messages
            (snd (moderate w md (newMessage (nextId s) user md) user
                    (after_new s))) = messages s) as Hsame.
  { intros user. apply (Frames_moderate w md _ user (after_new s)). }
  assert (forall user r m',
            filter is_send (reply_events user (from md) r)
            = if Message.Status_eqb
                   (Message.moderation_status (saved_record r m'))
                   Message.blocked
                 && autoBlock (moderationSettings user)
              then [EvSendText (from md)
                      (WhatsAppService.responseText
                         (match Message.moderation (saved_record r m') with
                          | Some x => Message.reason x
                          | None => None
                          end))]
              else []) as Hreply.
  { intros user r m'.
    destruct (saved_record_fields r m') as (_ & _ & _ & -> & (x & -> & Hx) & _).
    unfold verdict_core in Hx. injection Hx as _ -> _ _.
    unfold reply_events, reply_event, is_blocked.
    destruct (_ && _); reflexivity. }
  destruct (delivery_outcome w md s)
    as [Hu|user e s1 Hu Hm|user r m' s1 Hu Hm Href
       |user r m' s1 s3 Hu Hm Hfp Hval Hcast Hst Hrep Htr Hnw Hnx Hmsgs
       |user r m' s1 s3 Hu Hm Hfp Hval Hcast Hst Hrep Htr Hnw Hnx Hmsgs];
    cbn [fst snd].
  - exists [], []. rewrite !app_nil_r. repeat split.
  - specialize (Hquiet user). specialize (Hsame user).
    rewrite Hm in Hquiet, Hsame. cbn [snd] in *.
    destruct Hquiet as (evs & He & Hf). exists evs, [].
    rewrite app_nil_r. now repeat split.
  - specialize (Hquiet user). specialize (Hsame user).
    rewrite Hm in Hquiet, Hsame. cbn [snd] in *.
    destruct Hquiet as (evs & He & Hf). exists evs, [].
    rewrite app_nil_r. now repeat split.
  - specialize (Hquiet user). rewrite Hm in Hquiet.
    destruct Hquiet as (evs & He & Hf). cbn [snd] in He.
    exists (evs ++ reply_events user (from md) r), [saved_record r m'].
    split; [now rewrite Htr, He, app_assoc|].
    split; [now apply Hmsgs|].
    rewrite filter_app, Hf, Hu. cbn [app]. apply Hreply.
  - specialize (Hquiet user). rewrite Hm in Hquiet.
    destruct Hquiet as (evs & He & Hf). cbn [snd] in He.
    exists (evs ++ reply_events user (from md) r), [saved_record r m'].
    assert (reply_events user (from md) r = [reply_event (from md) r]) as Hre.
    { unfold reply_events. unfold reply_accepted in Hrep.
      apply andb_true_iff in Hrep as [-> _]. reflexivity. }
    split; [now rewrite Htr, He, Hre, app_assoc|].
    split; [assumption|].
    rewrite filter_app, Hf, Hu. cbn [app]. apply Hreply.
Qed.

Lemma reply_only_for_stored_blocked_record_witness :
  let u := Fixture.owner ["bad"] [] in
  let w := Fixture.world u None None None None None in
  let md := Fixture.inbound "text" (Some "so bad") None in
  fst (processIncomingMessage w md empty_store) = None
  /\ exists evs new,
       trace (snd (processIncomingMessage w md empty_store)) = [] ++ evs
       /\ messages (snd (processIncomingMessage w md empty_store)) = [] ++ new
       /\ filter is_send evs =
            match new, User_findOne w (to md) with
            | [final], Some user =>
                if Message.Status_eqb (Message.moderation_status final)
                     Message.blocked
                   && autoBlock (moderationSettings user)
                then [EvSendText (from md)
                        (WhatsAppService.responseText
                           (match Message.moderation final with
                            | Some x => Message.reason x
                            | None => None
                            end))]
                else []
            | _, _ => []
            end.
Proof.
  intros u w md. split; [reflexivity|].
  apply (reply_only_for_stored_blocked_record w md empty_store). constructor.
Defined.

(** X11. An accepted reply ends the run in the [catch]. When a delivery
    has stored a blocked record, the run reaches no verdict exactly when
    [autoBlock] is on and the provider accepts the reply: the save that
    would record the response is rejected, since it puts the provider's
    answer, an object, on the [String] path [response.content]. Either
    way the stored record stays as inserted: blocked, marked received,
    without a response. *)
Theorem accepted_reply_ends_without_verdict :
  forall w messageData s user final,
    Forall (fun x => Message._id x < nextId s)%nat (messages s) ->
    User_findOne w (to messageData) = Some user ->
    messages (snd (processIncomingMessage w messageData s))
      = messages s ++ [final] ->
    Message.moderation_status final = Message.blocked ->
    Message.response final = None
    /\ Message.metadata_status final = "received"
    /\ (fst (processIncomingMessage w messageData s) = None
        <-> autoBlock (moderationSettings user) = true
            /\ sendTextMessage w (from messageData)
                 (WhatsAppService.responseText
                    (match Message.moderation final with
                     | Some x => Message.reason x
                     | None => None
                     end)) <> None).
Proof.
  intros w md s user final Hall Hu Hms Hb.
  destruct (delivery_appended w md s final Hall Hms)
    as (user0 & r & m' & s1 & Hu0 & Hm & Hfp & -> & Hfst).
  assert (user0 = user) as -> by congruence.
  destruct (saved_record_fields r m')
    as (_ & _ & _ & Fstatus & (x & Fmod & Fcore) & Fmeta & Fresp).
  rewrite Fstatus in Hb.
  assert (is_blocked r = true) as Hib by (unfold is_blocked; now rewrite Hb).
  rewrite Fresp, Fmeta, Fmod, Hib, Hfst.
  unfold verdict_core in Fcore. injection Fcore as _ -> _ _.
  split; [destruct Hfp as [->|[tr ->]]; reflexivity|].
  split; [destruct Hfp as [->|[tr ->]]; reflexivity|].
  unfold reply_accepted. rewrite Hib. cbn [andb].
  destruct (autoBlock (moderationSettings user)); cbn [andb].
  - destruct (sendTextMessage w _ _); split;
      try discriminate; try (intros _; split; [reflexivity|discriminate]);
      try reflexivity.
    intros [_ H]. now elim H.
  - split; [discriminate|]. intros [H _]. discriminate.
Qed.

Lemma accepted_reply_ends_without_verdict_witness :
  let u := Fixture.owner ["bad"] [] in
  let w := Fixture.world u None None None None None in
  let md := Fixture.inbound "text" (Some "so bad") None in
  exists final,
    stored_verdicts (snd (processIncomingMessage w md empty_store))
      = [(Message.blocked, Some "custom_word")]
    /\ messages (snd (processIncomingMessage w md empty_store)) = [final]
    /\ Message.response final = None
    /\ Message.metadata_status final = "received"
    /\ fst (processIncomingMessage w md empty_store) = None.
Proof.
  intros u w md. eexists. split; [reflexivity|]. split; [reflexivity|].
  destruct (accepted_reply_ends_without_verdict w md empty_store u _
              (Forall_nil _) eq_refl eq_refl eq_refl)
    as (Hresp & Hmeta & Hfst).
  split; [exact Hresp|]. split; [exact Hmeta|].
  apply Hfst. split; [reflexivity|discriminate].
Defined.

(** ** The collection only grows *)

Lemma delivery_appends d s :
  StoreOk s ->
  exists tail,
    messages (deliver s d) = messages s ++ tail /\ (length tail <= 1)%nat.
Proof.
  intros [_ Hall]. destruct d as [w md]. unfold deliver, processIncomingMessage.
  cbn [fst snd].
  destruct (User_findOne w (to md)) as [user|];
    [|exists []; split; [now rewrite app_nil_r|cbn; lia]].
  destruct (processFound_store w md user s Hall)
    as [_ [Hms|(_ & m & Hms & _)]].
  - exists []. destruct (processFound w md user s) as [[r|e] s'];
      cbn [snd] in *; split; [now rewrite app_nil_r|cbn; lia
                             |now rewrite app_nil_r|cbn; lia].
  - exists [m]. destruct (processFound w md user s) as [[r|e] s'];
      cbn [snd] in *; split; [assumption|cbn; lia|assumption|cbn; lia].
Qed.

Lemma deliverAll_appends ds s :
  StoreOk s ->
  exists tail,
    messages (deliverAll ds s) = messages s ++ tail
    /\ (length tail <= length ds)%nat.
Proof.
  revert s. induction ds as [|d ds IH]; intros s Hs; cbn [deliverAll fold_left].
  - exists []. split; [now rewrite app_nil_r|cbn; lia].
  - destruct (delivery_appends d s Hs) as (t1 & H1 & L1).
    assert (StoreOk (deliver s d)) as Hs'
        by (destruct d; now apply processIncomingMessage_StoreOk).
    destruct (IH (deliver s d) Hs') as (t2 & H2 & L2).
    exists (t1 ++ t2). unfold deliverAll in H2. rewrite H2, H1, app_assoc.
    split; [reflexivity|]. rewrite length_app. cbn. lia.
Qed.

(** X12. The message collection is append-only under the webhook: after
    any deliveries, further deliveries leave every stored record in place
    and unchanged, and add at most one record each. *)
Theorem stored_records_are_never_touched :
  forall (ds later : list (World * MessageData)),
    exists tail,
      messages (deliverAll (ds ++ later) empty_store)
        = messages (deliverAll ds empty_store) ++ tail
      /\ (length tail <= length later)%nat.
Proof.
  intros ds later. unfold deliverAll at 1. rewrite fold_left_app.
  apply (deliverAll_appends later (deliverAll ds empty_store)).
  apply deliverAll_StoreOk, StoreOk_empty.
Qed.

(** ** The vocabulary learner *)

Lemma learner_idle_refl uid s : learner_idle uid s s.
Proof. split; reflexivity. Qed.

Lemma learner_idle_trans uid s1 s2 s3 :
  learner_idle uid s1 s2 -> learner_idle uid s2 s3 -> learner_idle uid s1 s3.
Proof.
  intros [M1 W1] [M2 W2]. split; [congruence|].
  intros H. rewrite W2, W1; [reflexivity|assumption|now rewrite M1].
Qed.

Lemma filter_length_weaken {A} (p q : A -> bool) l :
  (length (filter (fun x => p x && q x) l) <= length (filter p l))%nat.
Proof.
  induction l as [|x l IH]; cbn; [lia|].
  destruct (p x), (q x); cbn; lia.
Qed.

Lemma checkWord_learner_idle w t user word :
  Keeps (learner_idle (user_id user)) (checkWord w t user word).
Proof.
  intros s. split; [apply Frames_checkWord|]. intros Hlt.
  unfold checkWord. destruct (_ && _); [|reflexivity].
  unfold bind at 1. unfold Message_find_blocked at 1.
  unfold bind at 1. cbn [get_messages ret].
  match goal with |- context [(3 <=? length ?l)%nat] =>
    assert (length l <= length (blocked_of (user_id user) (messages s)))%nat
      as Hle by apply filter_length_weaken;
    destruct (Nat.leb_spec 3 (length l)); [lia|reflexivity]
  end.
Qed.

Lemma checkForNewWords_learner_idle user w text :
  Keeps (learner_idle (user_id user)) (checkForNewWords w text user).
Proof.
  unfold checkForNewWords. destruct text as [t|].
  - apply (Keeps_for_each _ (learner_idle_refl _) (learner_idle_trans _)).
    intros word. apply checkWord_learner_idle.
  - apply (Keeps_throw _ (learner_idle_refl _)).
Qed.

Lemma moderate_learner_idle w messageData message user :
  Keeps (learner_idle (user_id user)) (moderate w messageData message user).
Proof.
  apply (Keeps_moderate _ (learner_idle_refl _) (learner_idle_trans _)).
  - intros e _ s. split; reflexivity.
  - apply checkForNewWords_learner_idle.
Qed.

(** X13. The vocabulary learner starts only at the third blocked message:
    as long as fewer than three of the owner's stored messages are
    blocked, no delivery creates or updates a candidate term. *)
Theorem learner_needs_three_blocked_messages :
  forall w messageData s,
    (forall user, User_findOne w (to messageData) = Some user ->
       (length (blocked_of (user_id user) (messages s)) < 3)%nat) ->
    newWords (snd (processIncomingMessage w messageData s)) = newWords s.
Proof.
  intros w md s Hfew.
  assert (forall user, User_findOne w (to md) = Some user ->
            newWords (snd (moderate w md (newMessage (nextId s) user md) user
                             (after_new s))) = newWords s) as Hmod.
  { intros user Hu.
    destruct (moderate_learner_idle w md (newMessage (nextId s) user md) user
                (after_new s)) as [_ Hw].
    apply Hw. now apply Hfew. }
  destruct (delivery_outcome w md s)
    as [Hu|user e s1 Hu Hm|user r m' s1 Hu Hm Href
       |user r m' s1 s3 Hu Hm Hfp Hval Hcast Hst Hrep Htr Hnw Hnx Hmsgs
       |user r m' s1 s3 Hu Hm Hfp Hval Hcast Hst Hrep Htr Hnw Hnx Hmsgs];
    cbn [snd].
  - reflexivity.
  - specialize (Hmod user Hu). now rewrite Hm in Hmod.
  - specialize (Hmod user Hu). now rewrite Hm in Hmod.
  - specialize (Hmod user Hu). rewrite Hm in Hmod. cbn [snd] in Hmod. congruence.
  - specialize (Hmod user Hu). rewrite Hm in Hmod. cbn [snd] in Hmod. congruence.
Qed.

(** Two messages of the owner are stored as blocked for hate speech, both
    with the word "xyz"; a third message with that word passes the model
    and reaches [checkForNewWords], which finds two blocked messages and
    creates no term. *)
Lemma learner_needs_three_blocked_messages_witness :
  let u := Fixture.owner [] [] in
  let toxic := Fixture.world u None None (Fixture.toxic (9 # 10)) None None in
  let w := Fixture.world u None None (Fixture.toxic 0) None None in
  let md := inbound_as "wamid.3" "xyz again" in
  let s := deliverAll [(toxic, inbound_as "wamid.1" "xyz one");
                       (toxic, inbound_as "wamid.2" "xyz two")] empty_store in
  length (blocked_of 1 (messages s)) = 2%nat
  /\ fst (processIncomingMessage w md s) = Some (result Message.approved None)
  /\ newWords (snd (processIncomingMessage w md s)) = newWords s.
Proof.
  intros u toxic w md s. split; [reflexivity|]. split; [reflexivity|].
  apply (learner_needs_three_blocked_messages w md s).
  intros user Hu. vm_compute in Hu. injection Hu as <-.
  change (length (blocked_of 1 (messages s)) < 3)%nat.
  replace (length (blocked_of 1 (messages s))) with 2%nat by reflexivity. lia.
Defined.

Lemma term_grows_refl x : term_grows x x.
Proof. repeat split. lia. Qed.

Lemma term_grows_trans x y z : term_grows x y -> term_grows y z -> term_grows x z.
Proof.
  intros (A1 & A2 & A3 & A4 & A5) (B1 & B2 & B3 & B4 & B5).
  repeat split; try congruence. lia.
Qed.

Lemma Forall2_term_grows_refl l : Forall2 term_grows l l.
Proof. induction l; constructor; [apply term_grows_refl|assumption]. Qed.

Lemma Forall2_term_grows_trans l1 l2 l3 :
  Forall2 term_grows l1 l2 -> Forall2 term_grows l2 l3 ->
  Forall2 term_grows l1 l3.
Proof.
  intros H. revert l3. induction H as [|x y l1 l2 Hxy _ IH]; intros l3 H23.
  - inversion H23. constructor.
  - inversion H23 as [|y' z l2' l3' Hyz Hrest]; subst.
    constructor; [eapply term_grows_trans; eassumption|now apply IH].
Qed.

Lemma terms_grow_refl l : terms_grow l l.
Proof.
  exists l, []. split; [now rewrite app_nil_r|].
  split; [apply Forall2_term_grows_refl|constructor].
Qed.

Lemma term_created_grows x y : term_created x -> term_grows x y -> term_created y.
Proof.
  intros (C1 & C2 & C3 & C4) (_ & Hk & Hs & Hd & Hf).
  unfold term_key in Hk. injection Hk as _ Hw.
  repeat split; try congruence; try lia.
Qed.

Lemma terms_grow_trans l1 l2 l3 :
  terms_grow l1 l2 -> terms_grow l2 l3 -> terms_grow l1 l3.
Proof.
  intros (a & e1 & -> & Ha & He1) (b & e2 & -> & Hb & He2).
  apply Forall2_app_inv_l in Hb as (b1 & b2 & Hb1 & Hb2 & ->).
  exists b1, (b2 ++ e2). split; [now rewrite app_assoc|]. split.
  - eapply Forall2_term_grows_trans; eassumption.
  - apply Forall_app. split; [|assumption].
    clear - He1 Hb2. induction Hb2 as [|x y e1 b2 Hxy _ IH]; [constructor|].
    inversion He1; subst. constructor; [|now apply IH].
    eapply term_created_grows; eassumption.
Qed.

Lemma words_grow_refl s : words_grow s s.
Proof. intros H. split; [assumption|apply terms_grow_refl]. Qed.

Lemma words_grow_trans s1 s2 s3 :
  words_grow s1 s2 -> words_grow s2 s3 -> words_grow s1 s3.
Proof.
  intros H12 H23 H1. destruct (H12 H1) as [H2 G12].
  destruct (H23 H2) as [H3 G23]. split; [assumption|].
  eapply terms_grow_trans; eassumption.
Qed.

(** A step that leaves the terms and the generator alone. *)
Lemma words_grow_same s s' :
  newWords s' = newWords s -> (nextId s <= nextId s')%nat -> words_grow s s'.
Proof.
  intros Hw Hn (Hall & Hid & Hkey). unfold WordsOk. rewrite Hw.
  split; [|apply terms_grow_refl].
  repeat split; try assumption.
  eapply Forall_impl; [|exact Hall]. cbn. intros. lia.
Qed.

Lemma NoDup_map_unique {A B} (f : A -> B) l x y :
  NoDup (map f l) -> In x l -> In y l -> f x = f y -> x = y.
Proof.
  induction l as [|a l IH]; cbn; [intros _ []|].
  intros Hnd Hx Hy Hf. inversion Hnd as [|? ? Hnotin Hnd']; subst.
  destruct Hx as [->|Hx], Hy as [->|Hy]; try reflexivity.
  - exfalso. apply Hnotin. rewrite Hf. now apply in_map.
  - exfalso. apply Hnotin. rewrite <- Hf. now apply in_map.
  - now apply IH.
Qed.

(** Updating the term just found: the list keeps its ids and keys, and
    every term grows. *)
Lemma update_found_term now0 l nw :
  NoDup (map NewWord._id l) ->
  In nw l ->
  let l' := map (fun x => if (NewWord._id x
                              =? NewWord._id (NewWord.incrementFrequency now0 nw))%nat
                          then NewWord.incrementFrequency now0 nw else x) l in
  map NewWord._id l' = map NewWord._id l
  /\ map term_key l' = map term_key l
  /\ Forall2 term_grows l l'.
Proof.
  intros Hnd Hin. cbn zeta.
  assert (forall x, In x l ->
            term_grows x
              (if (NewWord._id x
                   =? NewWord._id (NewWord.incrementFrequency now0 nw))%nat
               then NewWord.incrementFrequency now0 nw else x)) as Hpoint.
  { intros x Hx. cbn [NewWord.incrementFrequency NewWord._id].
    destruct (Nat.eqb_spec (NewWord._id x) (NewWord._id nw)) as [E|_];
      [|apply term_grows_refl].
    assert (x = nw) as -> by (eapply NoDup_map_unique; eassumption).
    repeat split. cbn. lia. }
  clear Hnd Hin. induction l as [|a l IH]; cbn [map];
    [repeat split; constructor|].
  destruct IH as (I1 & I2 & I3); [intros x Hx; apply Hpoint; now right|].
  pose proof (Hpoint a (or_introl eq_refl)) as (G1 & G2 & G3 & G4 & G5).
  rewrite I1, I2, G1, G2. repeat split; try assumption.
  constructor; [repeat split; assumption|assumption].
Qed.

Lemma checkWord_words_grow w t user word :
  Keeps words_grow (checkWord w t user word).
Proof.
  intros s. unfold checkWord.
  destruct ((2 <? String.length (Js.strip_non_word word))%nat
            && negb (Js.array_includes commonWords (Js.strip_non_word word)))
    eqn:Econd; [|apply words_grow_refl].
  apply andb_true_iff in Econd as [Elen _]. apply Nat.ltb_lt in Elen.
  unfold bind at 1. unfold Message_find_blocked at 1.
  unfold bind at 1. cbn [get_messages ret].
  match goal with |- context [(3 <=? length ?l)%nat] =>
    set (blockedMessages := l);
    destruct (Nat.leb_spec 3 (length blockedMessages)) as [Hthree|_];
      [|apply words_grow_refl]
  end.
  rewrite (bind_Ok _ _ _ _ _ (NewWord_findOne_run _ _ s)).
  destruct (find _ (newWords s)) as [nw|] eqn:Efind.
  - apply find_some in Efind as [Hin _].
    intros (Hall & Hid & Hkey). cbn [snd NewWord_update].
    unfold NewWord_update, get_newWords, put_newWords, WordsOk, bind.
    cbn [snd newWords nextId].
    destruct (update_found_term (now w) (newWords s) nw Hid Hin)
      as (Hids & Hkeys & Hgrow).
    split.
    + split; [|split].
      * apply Forall_forall. intros y Hy.
        assert (In (NewWord._id y) (map NewWord._id (newWords s))) as Hy'
            by (rewrite <- Hids; now apply in_map).
        apply in_map_iff in Hy' as (x & Hx & Hxin).
        rewrite Forall_forall in Hall. rewrite <- Hx. now apply Hall.
      * now rewrite Hids.
      * now rewrite Hkeys.
    + eexists. exists []. split; [now rewrite app_nil_r|].
      split; [exact Hgrow|constructor].
  - intros (Hall & Hid & Hkey).
    unfold new_ObjectId, NewWord_insert, get_newWords, put_newWords,
      WordsOk, bind.
    cbn [snd newWords nextId]. split.
    + split; [|split].
      * apply Forall_app. split.
        -- eapply Forall_impl; [|exact Hall]. cbn. intros. lia.
        -- constructor; [cbn; lia|constructor].
      * rewrite map_app. cbn. apply NoDup_snoc; [assumption|].
        intros Hin. apply in_map_iff in Hin as (x & Hx & Hxin).
        rewrite Forall_forall in Hall. specialize (Hall x Hxin). lia.
      * rewrite map_app. cbn. apply NoDup_snoc; [assumption|].
        intros Hin. apply in_map_iff in Hin as (x & Hx & Hxin).
        pose proof (find_none _ _ Efind x Hxin) as Hnot. cbn in Hnot.
        unfold term_key in Hx. injection Hx as Hu Hw.
        rewrite Hu, Hw, Nat.eqb_refl, String.eqb_refl in Hnot. discriminate.
    + exists (newWords s). eexists. split; [reflexivity|].
      split; [apply Forall2_term_grows_refl|].
      constructor; [|constructor]. repeat split; cbn; assumption.
Qed.

Lemma checkForNewWords_words_grow user w text :
  Keeps words_grow (checkForNewWords w text user).
Proof.
  unfold checkForNewWords. destruct text as [t|].
  - apply (Keeps_for_each _ words_grow_refl words_grow_trans).
    intros word. apply checkWord_words_grow.
  - apply (Keeps_throw _ words_grow_refl).
Qed.

Lemma moderate_words_grow w messageData message user :
  Keeps words_grow (moderate w messageData message user).
Proof.
  apply (Keeps_moderate _ words_grow_refl words_grow_trans).
  - intros e _ s. apply words_grow_same; cbn; [reflexivity|lia].
  - apply checkForNewWords_words_grow.
Qed.

Lemma delivery_words_grow w messageData s :
  words_grow s (snd (processIncomingMessage w messageData s)).
Proof.
  assert (forall user, words_grow s
            (snd (moderate w messageData (newMessage (nextId s) user messageData)
                    user (after_new s)))) as Hmod.
  { intros user. apply words_grow_trans with (after_new s).
    - apply words_grow_same; cbn; [reflexivity|lia].
    - apply moderate_words_grow. }
  destruct (delivery_outcome w messageData s)
    as [Hu|user e s1 Hu Hm|user r m' s1 Hu Hm Href
       |user r m' s1 s3 Hu Hm Hfp Hval Hcast Hst Hrep Htr Hnw Hnx Hmsgs
       |user r m' s1 s3 Hu Hm Hfp Hval Hcast Hst Hrep Htr Hnw Hnx Hmsgs];
    cbn [snd].
  - apply words_grow_refl.
  - specialize (Hmod user). now rewrite Hm in Hmod.
  - specialize (Hmod user). now rewrite Hm in Hmod.
  - specialize (Hmod user). rewrite Hm in Hmod. cbn [snd] in Hmod.
    apply words_grow_trans with s1; [assumption|].
    apply words_grow_same; [assumption|lia].
  - specialize (Hmod user). rewrite Hm in Hmod. cbn [snd] in Hmod.
    apply words_grow_trans with s1; [assumption|].
    apply words_grow_same; [assumption|lia].
Qed.

(** X14. A delivery never touches an owner's decision: every candidate
    term present before is present after, at the same position, with the
    same owner, word, review status and decision and a count that has not
    gone down; the terms added are new ones, pending, seen at least three
    times and longer than two characters. *)
Theorem delivery_keeps_every_decision :
  forall w messageData s,
    WordsOk s ->
    terms_grow (newWords s) (newWords (snd (processIncomingMessage w messageData s))).
Proof.
  intros w md s Hok. now apply (delivery_words_grow w md s).
Qed.

Lemma replace_term_keeps l nw nw' :
  NoDup (map NewWord._id l) ->
  In nw l ->
  NewWord._id nw' = NewWord._id nw ->
  term_key nw' = term_key nw ->
  map NewWord._id
    (map (fun x => if (NewWord._id x =? NewWord._id nw')%nat then nw' else x) l)
  = map NewWord._id l
  /\ map term_key
       (map (fun x => if (NewWord._id x =? NewWord._id nw')%nat then nw' else x) l)
     = map term_key l.
Proof.
  intros Hnd Hin Hid Hkey.
  assert (forall x, In x l ->
            NewWord._id (if (NewWord._id x =? NewWord._id nw')%nat
                         then nw' else x) = NewWord._id x
            /\ term_key (if (NewWord._id x =? NewWord._id nw')%nat
                         then nw' else x) = term_key x) as Hpoint.
  { intros x Hx.
    destruct (Nat.eqb_spec (NewWord._id x) (NewWord._id nw')) as [E|_];
      [|now split].
    assert (x = nw) as -> by (eapply NoDup_map_unique; eauto; congruence).
    now split. }
  clear Hnd Hin. induction l as [|a l IH]; cbn [map]; [now split|].
  destruct IH as [I1 I2]; [intros x Hx; apply Hpoint; now right|].
  destruct (Hpoint a (or_introl eq_refl)) as [P1 P2].
  now rewrite I1, I2, P1, P2.
Qed.

Lemma review_word_WordsOk w uid data s :
  WordsOk s -> WordsOk (snd (review_word w uid data s)).
Proof.
  intros (Hall & Hid & Hkey). unfold review_word.
  unfold bind at 1. cbn [get_newWords].
  destruct (find _ (newWords s)) as [nw|] eqn:Efind; [|now repeat split].
  apply find_some in Efind as [Hin _].
  destruct (apply_action w data nw) as [nw'|] eqn:Ea; [|now repeat split].
  assert (NewWord._id nw' = NewWord._id nw /\ term_key nw' = term_key nw)
    as [Hi Hk].
  { unfold apply_action in Ea.
    destruct (action data =? "approve");
      [|destruct (action data =? "reject");
        [|destruct (action data =? "ignore"); [|discriminate]]];
      injection Ea as <-; now split. }
  destruct (replace_term_keeps (newWords s) nw nw' Hid Hin Hi Hk) as [Hids Hkeys].
  unfold NewWord_update, get_newWords, put_newWords, WordsOk, bind, ret.
  cbn [snd newWords nextId]. rewrite Hids, Hkeys.
  split; [|now split].
  apply Forall_forall. intros y Hy.
  assert (In (NewWord._id y) (map NewWord._id (newWords s))) as Hy'
      by (rewrite <- Hids; now apply in_map).
  apply in_map_iff in Hy' as (x & Hx & Hxin).
  rewrite Forall_forall in Hall. rewrite <- Hx. now apply Hall.
Qed.

Lemma run_WordsOk ops s : WordsOk s -> WordsOk (run ops s).
Proof.
  revert s. induction ops as [|op ops IH]; intros s Hs; cbn; [assumption|].
  apply IH. destruct op as [w md|w uid data]; cbn [step].
  - now apply (delivery_words_grow w md s).
  - now apply review_word_WordsOk.
Qed.

Lemma WordsOk_empty : WordsOk empty_store.
Proof. repeat split; constructor. Qed.

(** X15. However webhook deliveries and [review_word] events interleave
    from the empty store, the candidate terms hold at most one term per
    (owner, word): [checkForNewWords] looks the word up before it
    inserts, and neither it nor a review changes a term's owner or
    word. *)
Theorem one_candidate_term_per_owner_and_word :
  forall ops, NoDup (map term_key (newWords (run ops empty_store))).
Proof.
  intros ops. apply (run_WordsOk ops empty_store WordsOk_empty).
Qed.

Lemma delivery_keeps_every_decision_witness :
  let u := Fixture.owner ["spam"] [] in
  let w := Fixture.world u None None (Fixture.toxic 0) None None in
  let s := run [Deliver w (inbound_as "wamid.1" "xyz spam");
                Deliver w (inbound_as "wamid.2" "spam xyz");
                Deliver w (inbound_as "wamid.3" "Xyz, spam!");
                Deliver w (inbound_as "wamid.4" "xyz again");
                Review w 1 {| wordId := 4; action := "reject"; reason := None |}]
             empty_store in
  map (fun nw => (NewWord.word nw, NewWord.frequency nw, NewWord.status nw))
    (newWords s) = [("xyz", 3%nat, NewWord.rejected)]
  /\ terms_grow (newWords s)
       (newWords (snd (processIncomingMessage w (inbound_as "wamid.5" "xyz once more") s)))
  /\ map (fun nw => (NewWord.word nw, NewWord.frequency nw, NewWord.status nw))
       (newWords (snd (processIncomingMessage w (inbound_as "wamid.5" "xyz once more") s)))
     = [("xyz", 4%nat, NewWord.rejected)].
Proof.
  intros u w s. split; [vm_compute; reflexivity|]. split.
  - apply (delivery_keeps_every_decision w (inbound_as "wamid.5" "xyz once more") s).
    apply run_WordsOk, WordsOk_empty.
  - vm_compute. reflexivity.
Defined.

(** ** Custom words: from the settings to the verdict *)

Import UserMethods.

Lemma array_includes_In arr x : Js.array_includes arr x = true <-> In x arr.
Proof.
  unfold Js.array_includes. rewrite existsb_exists. split.
  - intros (y & Hy & E). apply String.eqb_eq in E. now subst.
  - intros H. exists x. split; [assumption|apply String.eqb_refl].
Qed.

Lemma containsWord_In w words word t :
  In word words ->
  Js.includes (toLowerCase w t) (toLowerCase w word) = true ->
  containsWord w words t = true.
Proof.
  intros Hin Hinc. unfold containsWord. apply existsb_exists. now exists word.
Qed.

Lemma addBlockedWord_In word u :
  trim word = word ->
  In word (customBlockedWords (moderationSettings (addBlockedWord word u))).
Proof.
  intros Htrim. unfold addBlockedWord.
  destruct (Js.array_includes _ word) eqn:E; cbn [negb].
  - now apply array_includes_In.
  - cbn. rewrite Htrim. apply in_or_app. right. now left.
Qed.

Lemma addAllowedWord_In word u :
  trim word = word ->
  In word (customAllowedWords (moderationSettings (addAllowedWord word u))).
Proof.
  intros Htrim. unfold addAllowedWord.
  destruct (Js.array_includes _ word) eqn:E; cbn [negb].
  - now apply array_includes_In.
  - cbn. rewrite Htrim. apply in_or_app. right. now left.
Qed.

(** X16. Once the owner has added a blocked word (one without surrounding
    white space, as the settings route passes it), every text message
    whose body contains that word, both taken through [toLowerCase], is
    blocked for its custom word, whatever the toxicity model would say
    and whatever the allow list holds. *)
Theorem added_blocked_word_blocks :
  forall w messageData i user word t s,
    trim word = word ->
    type messageData = "text" ->
    Message.text (extractContent messageData) = Some t ->
    Js.includes (toLowerCase w t) (toLowerCase w word) = true ->
    exists r,
      moderate w messageData
        (newMessage i (addBlockedWord word user) messageData)
        (addBlockedWord word user) s
      = (Ok (r, newMessage i (addBlockedWord word user) messageData), s)
      /\ Message.status r = Message.blocked
      /\ Message.reason r = Some "custom_word".
Proof.
  intros w md i user word t s Htrim Hty Ht Hinc.
  eexists. split.
  - rewrite moderate_text by assumption.
    erewrite bind_Ok; [reflexivity|].
    apply processTextMessage_blocked_word with (t := t); [assumption|].
    apply containsWord_In with (word := word); [|assumption].
    now apply addBlockedWord_In.
  - split; reflexivity.
Qed.

Lemma added_blocked_word_blocks_witness :
  let u := UserMethods.addBlockedWord "Lottery" (Fixture.owner [] ["win"]) in
  let w := Fixture.world u None None (Fixture.toxic 0) None None in
  let md := Fixture.inbound "text" (Some "WIN THE LOTTERY NOW") None in
  exists r,
    moderate w md (newMessage 0 u md) u empty_store
      = (Ok (r, newMessage 0 u md), empty_store)
    /\ Message.status r = Message.blocked
    /\ Message.reason r = Some "custom_word".
Proof.
  intros u w md.
  apply (added_blocked_word_blocks w md 0 (Fixture.owner [] ["win"]) "Lottery"
           "WIN THE LOTTERY NOW" empty_store); reflexivity.
Defined.

(** X17. Once the owner has added an allowed word, every text message
    whose body contains that word and none of the blocked words, all
    taken through [toLowerCase], is approved without the toxicity model
    being called. Adding the allowed word leaves the block list as it
    was. *)
Theorem added_allowed_word_approves :
  forall w messageData i user word t s,
    trim word = word ->
    type messageData = "text" ->
    Message.text (extractContent messageData) = Some t ->
    Js.includes (toLowerCase w t) (toLowerCase w word) = true ->
    containsWord w (customBlockedWords (moderationSettings user)) t = false ->
    customBlockedWords (moderationSettings (addAllowedWord word user))
      = customBlockedWords (moderationSettings user)
    /\ moderate w messageData
         (newMessage i (addAllowedWord word user) messageData)
         (addAllowedWord word user) s
       = (Ok (result Message.approved None,
              newMessage i (addAllowedWord word user) messageData), s).
Proof.
  intros w md i user word t s Htrim Hty Ht Hinc Hb.
  assert (customBlockedWords (moderationSettings (addAllowedWord word user))
          = customBlockedWords (moderationSettings user)) as Hsame.
  { unfold addAllowedWord. now destruct (negb _). }
  split; [assumption|].
  rewrite moderate_text by assumption.
  erewrite bind_Ok; [reflexivity|].
  apply processTextMessage_allowed_word with (t := t); [assumption| |].
  - now rewrite Hsame.
  - apply containsWord_In with (word := word); [|assumption].
    now apply addAllowedWord_In.
Qed.

Lemma added_allowed_word_approves_witness :
  let u := UserMethods.addAllowedWord "kill" (Fixture.owner ["spam"] []) in
  let w := Fixture.world u None None (Fixture.toxic 1) None None in
  let md := Fixture.inbound "text" (Some "Kill the lights please") None in
  moderate w md (newMessage 0 u md) u empty_store
  = (Ok (result Message.approved None, newMessage 0 u md), empty_store).
Proof.
  intros u w md.
  apply (added_allowed_word_approves w md 0 (Fixture.owner ["spam"] []) "kill"
           "Kill the lights please" empty_store); reflexivity.
Defined.

Lemma map_trim_filter (p : string -> bool) l :
  map trim l = l -> map trim (filter p l) = filter p l.
Proof.
  induction l as [|x l IH]; cbn; [reflexivity|].
  intros H. injection H as Hx Hl. destruct (p x); cbn; [|now apply IH].
  now rewrite Hx, IH.
Qed.

Lemma filter_not_word_id word l :
  ~ In word l -> filter (fun w => negb (w =? word)) l = l.
Proof.
  induction l as [|x l IH]; cbn; [reflexivity|]. intros H.
  destruct (String.eqb_spec x word) as [->|_]; cbn.
  - exfalso. apply H. now left.
  - rewrite IH; [reflexivity|]. intros Hin. apply H. now right.
Qed.

(** X18. The block list as the two methods keep it, for a word and a
    stored list free of surrounding white space: adding a word puts it in
    the list, once (a list without duplicates stays so, and adding it
    again changes nothing); removing a word takes out every occurrence
    and nothing else; and removing a word just added to a list that did
    not hold it gives back the list as it was. *)
Theorem block_list_add_and_remove :
  forall word user,
    trim word = word ->
    map trim (customBlockedWords (moderationSettings user))
      = customBlockedWords (moderationSettings user) ->
    let l := customBlockedWords (moderationSettings user) in
    let added := customBlockedWords (moderationSettings (addBlockedWord word user)) in
    let removed :=
      customBlockedWords (moderationSettings (removeBlockedWord word user)) in
    In word added
    /\ (NoDup l -> NoDup added)
    /\ addBlockedWord word (addBlockedWord word user) = addBlockedWord word user
    /\ ~ In word removed
    /\ (forall x, x <> word -> (In x removed <-> In x l))
    /\ (~ In word l ->
        customBlockedWords
          (moderationSettings (removeBlockedWord word (addBlockedWord word user)))
        = l).
Proof.
  intros word user Htrim Hl. cbv zeta.
  set (l := customBlockedWords (moderationSettings user)) in *.
  assert (customBlockedWords (moderationSettings (removeBlockedWord word user))
          = filter (fun w => negb (w =? word)) l) as Hrem
      by (apply map_trim_filter; exact Hl).
  assert (Js.array_includes l word = false ->
          customBlockedWords (moderationSettings (addBlockedWord word user))
          = l ++ [word]) as Hadd.
  { intros E. unfold addBlockedWord. fold l. rewrite E. cbn. fold l.
    now rewrite Htrim. }
  split; [now apply addBlockedWord_In|]. split; [|split; [|split; [|split]]].
  - intros Hnd. destruct (Js.array_includes l word) eqn:E.
    + unfold addBlockedWord. fold l. now rewrite E.
    + rewrite (Hadd eq_refl). apply NoDup_snoc; [assumption|].
      intros Hin. apply array_includes_In in Hin. congruence.
  - destruct (Js.array_includes l word) eqn:E.
    + unfold addBlockedWord. fold l. rewrite E. cbn [negb]. fold l. now rewrite E.
    + unfold addBlockedWord at 1. rewrite (Hadd eq_refl).
      assert (Js.array_includes (l ++ [word]) word = true) as ->; [|reflexivity].
      apply array_includes_In, in_or_app. right. now left.
  - rewrite Hrem. intros Hin. apply filter_In in Hin as [_ Hne].
    now rewrite String.eqb_refl in Hne.
  - intros x Hx. rewrite Hrem, filter_In. split; [tauto|]. intros Hin.
    split; [assumption|]. now destruct (String.eqb_spec x word).
  - intros Hnot.
    assert (Js.array_includes l word = false) as E.
    { destruct (Js.array_includes l word) eqn:E; [|reflexivity].
      apply array_includes_In in E. contradiction. }
    unfold removeBlockedWord. cbn [customBlockedWords moderationSettings
                                   set_customBlockedWords].
    rewrite (Hadd E), filter_app. cbn. rewrite String.eqb_refl. cbn.
    rewrite app_nil_r, filter_not_word_id by assumption. exact Hl.
Qed.

Lemma block_list_add_and_remove_witness :
  let u := Fixture.owner ["spam"; "scam"] [] in
  customBlockedWords (moderationSettings (addBlockedWord "lottery" u))
    = ["spam"; "scam"; "lottery"]
  /\ customBlockedWords
       (moderationSettings (removeBlockedWord "lottery" (addBlockedWord "lottery" u)))
     = ["spam"; "scam"].
Proof.
  intros u. split; [reflexivity|].
  refine (proj2 (proj2 (proj2 (proj2 (proj2
            (block_list_add_and_remove "lottery" u eq_refl eq_refl))))) _).
  cbn. intros [H|[H|[]]]; discriminate.
Defined.

(** ** The settings tester *)

Import ModerationRoutes.

Lemma Math_max_above a b c : c < a \/ c < b -> c < Math_max a b.
Proof.
  unfold Math_max. intros H.
  destruct (Js.gt b a) eqn:E.
  - apply gt_true_iff in E. destruct H as [H|H]; [|assumption].
    now apply Qlt_trans with a.
  - assert (b <= a) as Hle.
    { apply Qnot_lt_le. intros Hlt. apply gt_true_iff in Hlt. congruence. }
    destruct H as [H|H]; [assumption|]. now apply Qlt_le_trans with b.
Qed.

Lemma flag_ok reason c a :
  1 # 2 < c -> analysis_ok a -> analysis_ok (flag reason c a).
Proof.
  intros Hc _. left. cbn. split; [reflexivity|]. split.
  - intros E. now apply app_eq_nil in E as [_ E].
  - apply Math_max_above. now right.
Qed.

(** X19. The analysis of the settings tester is coherent: it is blocked
    exactly when it lists a reason, its confidence is then above 0.5, and
    it is 0 when nothing is listed; the reasons are among hate speech,
    nudity and violence. The tester never reports explicit content. *)
Theorem tester_analysis_is_coherent :
  forall w decode settings testContent,
    analysis_ok (testSettings w decode settings testContent)
    /\ incl (reasons (testSettings w decode settings testContent))
         ["hate_speech"; "nudity"; "violence"].
Proof.
  intros w decode settings tc. unfold testSettings.
  set (a0 := {| blocked := false; reasons := []; confidence := 0 |}).
  assert (analysis_ok a0 /\ incl (reasons a0) ["hate_speech"; "nudity"; "violence"])
    as H0 by (split; [right; repeat split|intros x []]).
  assert (forall reason c a,
             In reason ["hate_speech"; "nudity"; "violence"] ->
             1 # 2 < c ->
             analysis_ok a /\ incl (reasons a) ["hate_speech"; "nudity"; "violence"] ->
             analysis_ok (flag reason c a)
             /\ incl (reasons (flag reason c a))
                  ["hate_speech"; "nudity"; "violence"]) as Hflag.
  { intros reason c a Hin Hc [Ha Hi]. split; [now apply flag_ok|].
    cbn. apply incl_app; [assumption|]. intros x [<-|[]]. assumption. }
  set (a1 := if truthy (tc_text tc) then _ else a0).
  assert (analysis_ok a1 /\ incl (reasons a1) ["hate_speech"; "nudity"; "violence"])
    as H1.
  { subst a1. destruct (truthy (tc_text tc)); [|assumption].
    destruct (analyzeText w (tc_text tc)) as [|d c p cats] eqn:E; [assumption|].
    destruct d; cbn [andb]; [|assumption].
    destruct (hateSpeechEnabled settings); [|assumption].
    apply Hflag; [in_list| |assumption].
    now apply (detectHateSpeech_detected_iff _ _ _ _ _ E). }
  clearbody a1. clear H0.
  destruct (truthy (tc_media tc) && truthy (tc_mediaType tc)); [|assumption].
  destruct (tc_media tc) as [media|]; [|assumption].
  destruct (tc_mediaType tc) as [mediaType|]; [|assumption].
  destruct (moderateMedia w (decode media) mediaType) as [|m] eqn:E; [assumption|].
  pose proof (moderateMedia_detected_iff _ _ _ _ E) as Hdet.
  inversion Hdet as [|? ? Hn Hrest]; subst.
  inversion Hrest as [|? ? Hv _]; subst.
  assert (forall c, 7 # 10 <= c -> 1 # 2 < c) as Hup
      by (intros c Hc; apply Qlt_le_trans with (7 # 10); [reflexivity|assumption]).
  destruct (ContentModeration.detected (ContentModeration.nudity m)) eqn:En;
    cbn [andb];
    [destruct (nudityEnabled settings)|];
    (destruct (ContentModeration.detected (ContentModeration.violence m)) eqn:Ev;
     cbn [andb];
     [destruct (violenceEnabled settings)|]);
    repeat first
      [ assumption
      | apply Hflag; [in_list|apply Hup; first [now apply Hn|now apply Hv]|] ].
Qed.

Lemma processTextMessage_failed w message user t s :
  Message.text (Message.content message) = Some t ->
  containsWord w (customBlockedWords (moderationSettings user)) t = false ->
  containsWord w (customAllowedWords (moderationSettings user)) t = false ->
  HateSpeechDetection.detectHateSpeech (toxic_bert w (Some t))
    = HateSpeechDetection.Failure ->
  processTextMessage w message user s =
    (Ok (result Message.error (Some "hate_speech_detection_failed")),
     logged [EvDetectHateSpeech (Some t)] s).
Proof.
  intros Ht Hb Ha Hd. unfold processTextMessage. rewrite Ht.
  rewrite (bind_Ok _ _ _ _ _ (some_word_in_Some w _ t s)). rewrite Hb.
  rewrite (bind_Ok _ _ _ _ _ (some_word_in_Some w _ t s)). rewrite Ha.
  unfold bind at 1. cbn [call]. now rewrite Hd.
Qed.

(** The tester's answer for a text alone. *)
Lemma testSettings_text w decode settings t :
  blocked (testSettings w decode settings
             {| tc_text := Some t; tc_media := None; tc_mediaType := None |})
  = truthy (Some t)
    && match HateSpeechDetection.detectHateSpeech (toxic_bert w (Some t)) with
       | HateSpeechDetection.Success d _ _ _ => d && hateSpeechEnabled settings
       | HateSpeechDetection.Failure => false
       end.
Proof.
  unfold testSettings, analyzeText. cbn [tc_text tc_media tc_mediaType].
  destruct (truthy (Some t)); cbn [andb truthy]; [|reflexivity].
  destruct (HateSpeechDetection.detectHateSpeech _) as [|d c p cats];
    [reflexivity|].
  now destruct (d && hateSpeechEnabled settings).
Qed.

(** X20. For a text that matches none of the owner's custom words, the
    settings tester and the webhook agree: the tester answers blocked for
    the text under the owner's settings exactly when the webhook's verdict
    for a text message with that body is blocked. (The tester knows
    nothing of the custom word lists.) *)
Theorem tester_agrees_with_webhook_on_text :
  forall w decode messageData i user t s,
    type messageData = "text" ->
    Message.text (extractContent messageData) = Some t ->
    containsWord w (customBlockedWords (moderationSettings user)) t = false ->
    containsWord w (customAllowedWords (moderationSettings user)) t = false ->
    exists r s',
      moderate w messageData (newMessage i user messageData) user s
        = (Ok (r, newMessage i user messageData), s')
      /\ (Message.status r = Message.blocked
          <-> blocked (testSettings w decode (moderationSettings user)
                         {| tc_text := Some t; tc_media := None;
                            tc_mediaType := None |}) = true).
Proof.
  intros w decode md i user t s Hty Ht Hb Ha.
  assert (truthy (Some t) = true) as Htruthy.
  { unfold extractContent in Ht.
    assert (forall m c, Message.text (set_mediaId m c) = Message.text c) as Hset
        by (intros [x|] c; reflexivity).
    rewrite !Hset in Ht. cbn in Ht.
    destruct (text md) as [[|c0 t0]|]; try discriminate.
    injection Ht as <-. reflexivity. }
  rewrite testSettings_text, Htruthy. cbn [andb].
  rewrite moderate_text by assumption.
  destruct (HateSpeechDetection.detectHateSpeech (toxic_bert w (Some t)))
    as [|d c p cats] eqn:Hd.
  - rewrite (bind_Ok _ _ _ _ _
               (processTextMessage_failed w (newMessage i user md) user t s
                  Ht Hb Ha Hd)).
    do 2 eexists. split; [reflexivity|]. cbn. split; discriminate.
  - destruct (processTextMessage_classified w (newMessage i user md) user t s
                d c p cats Ht Hb Ha Hd) as [s' Hp].
    rewrite (bind_Ok _ _ _ _ _ Hp).
    do 2 eexists. split; [reflexivity|].
    destruct (d && hateSpeechEnabled (moderationSettings user)); cbn;
      split; congruence.
Qed.

Lemma tester_agrees_with_webhook_on_text_witness :
  let u := Fixture.owner [] [] in
  let w := Fixture.world u None None (Fixture.toxic (8 # 10)) None None in
  let md := Fixture.inbound "text" (Some "some words") None in
  exists r s',
    moderate w md (newMessage 0 u md) u empty_store
      = (Ok (r, newMessage 0 u md), s')
    /\ (Message.status r = Message.blocked
        <-> blocked (testSettings w (fun b => b) (moderationSettings u)
                       {| tc_text := Some "some words"; tc_media := None;
                          tc_mediaType := None |}) = true).
Proof.
  intros u w md.
  apply (tester_agrees_with_webhook_on_text w (fun b => b) md 0 u "some words"
           empty_store); reflexivity.
Defined.

(** The tester's answer for a media file alone, once classified. *)
Lemma testSettings_media w decode settings media mediaType m :
  truthy (Some media) = true ->
  truthy (Some mediaType) = true ->
  moderateMedia w (decode media) mediaType = ContentModeration.Success m ->
  blocked (testSettings w decode settings
             {| tc_text := None; tc_media := Some media;
                tc_mediaType := Some mediaType |})
  = (ContentModeration.detected (ContentModeration.nudity m)
     && nudityEnabled settings)
    || (ContentModeration.detected (ContentModeration.violence m)
        && violenceEnabled settings).
Proof.
  intros H1 H2 Hm. unfold testSettings.
  cbn [tc_text tc_media tc_mediaType]. rewrite H1, H2, Hm.
  cbn [truthy andb].
  destruct (_ && nudityEnabled settings), (_ && violenceEnabled settings);
    reflexivity.
Qed.

(** X21. For an image or video that the adapter classifies, the webhook
    blocks exactly what the settings tester blocks under the owner's
    settings, plus whatever the adapter reports as explicit: the tester
    has no check for explicit content, the webhook applies it whatever
    the toggles. *)
Theorem tester_misses_only_explicit_content :
  forall w decode messageData i user s media m,
    type messageData = "image" \/ type messageData = "video" ->
    truthy (Some media) = true ->
    downloadMedia w (Message.mediaId (extractContent messageData))
      = Some (decode media) ->
    moderateMedia w (decode media) (type messageData)
      = ContentModeration.Success m ->
    exists r s',
      moderate w messageData (newMessage i user messageData) user s
        = (Ok (r, newMessage i user messageData), s')
      /\ (Message.status r = Message.blocked
          <-> blocked (testSettings w decode (moderationSettings user)
                         {| tc_text := None; tc_media := Some media;
                            tc_mediaType := Some (type messageData) |}) = true
              \/ ContentModeration.detected (ContentModeration.explicit m) = true).
Proof.
  intros w decode md i user s media m Hty Hmedia Hd Hm.
  destruct (moderate_media_classified w md i user s (decode media) m Hty Hd Hm)
    as [s' H].
  exists (mediaVerdict m user), s'. split; [assumption|].
  rewrite (testSettings_media w decode _ media (type md) m Hmedia); [|
    destruct Hty as [-> | ->]; reflexivity|assumption].
  rewrite mediaVerdict_status.
  unfold nudity_qualifies, violence_qualifies, explicit_qualifies.
  destruct (_ && nudityEnabled _), (_ && violenceEnabled _),
    (ContentModeration.detected (ContentModeration.explicit m)); cbn;
    intuition discriminate.
Qed.

Lemma tester_misses_only_explicit_content_witness :
  let u := Fixture.owner [] [] in
  let w := Fixture.world u (Some "bytes") None None
             (Fixture.annotation "UNLIKELY" "UNLIKELY" "VERY_LIKELY") None in
  let md := Fixture.inbound "image" None Fixture.media in
  blocked (testSettings w (fun _ => "bytes") (moderationSettings u)
             {| tc_text := None; tc_media := Some "Ynl0ZXM=";
                tc_mediaType := Some "image" |}) = false
  /\ exists r s',
       moderate w md (newMessage 0 u md) u empty_store
         = (Ok (r, newMessage 0 u md), s')
       /\ Message.status r = Message.blocked.
Proof.
  intros u w md. split; [reflexivity|].
  destruct (tester_misses_only_explicit_content w (fun _ => "bytes") md 0 u
              empty_store "Ynl0ZXM=" _ (or_introl eq_refl) eq_refl eq_refl eq_refl)
    as (r & s' & Hm & Hiff).
  exists r, s'. split; [exact Hm|]. apply Hiff. right. reflexivity.
Defined.

(** ** The summary of a stored record *)

(** X22. [shouldBlock] is stricter than [getModerationSummary]: whenever
    [shouldBlock] returns a reason for a record, the summary of that
    record is blocked and lists that reason. *)
Theorem shouldBlock_reason_is_in_the_summary :
  forall m reason,
    Message.shouldBlock m = Some reason ->
    MessageMethods.blocked (MessageMethods.getModerationSummary m) = true
    /\ In reason (MessageMethods.reasons (MessageMethods.getModerationSummary m)).
Proof.
  intros m reason. unfold Message.shouldBlock, MessageMethods.getModerationSummary.
  destruct (Message.moderation m) as [r|]; [|discriminate].
  destruct (Message.hateSpeech r) as [h|], (Message.contentModeration r) as [c|];
    cbn [MessageMethods.blocked MessageMethods.reasons].
  all: repeat match goal with
         | |- context [Message.hs_detected ?h] =>
             destruct (Message.hs_detected h); cbn [andb]
         | |- context [ContentModeration.detected ?x] =>
             destruct (ContentModeration.detected x); cbn [andb]
         end.
  all: repeat match goal with
         | |- context [Js.gt ?a ?b] => destruct (Js.gt a b)
         end.
  all: cbn; intros H; try discriminate; injection H as <-;
    (split; [reflexivity|in_list]).
Qed.

Lemma shouldBlock_reason_is_in_the_summary_witness :
  let m :=
    Message.set_moderation
      {| Message.status := Message.approved; Message.reason := None;
         Message.hateSpeech := None;
         Message.contentModeration :=
           Some {| ContentModeration.nudity :=
                     {| ContentModeration.detected := true;
                        ContentModeration.confidence := 7 # 10;
                        ContentModeration.category := Some "adult" |};
                   ContentModeration.violence :=
                     {| ContentModeration.detected := true;
                        ContentModeration.confidence := 9 # 10;
                        ContentModeration.category := Some "violence" |};
                   ContentModeration.explicit :=
                     {| ContentModeration.detected := false;
                        ContentModeration.confidence := 1 # 10;
                        ContentModeration.category := Some "racy" |} |};
         Message.transcription := None |}
      (newMessage 0 (Fixture.owner [] []) (Fixture.inbound "image" None Fixture.media)) in
  MessageMethods.reasons (MessageMethods.getModerationSummary m)
    = ["nudity"; "violence"]
  /\ In "violence" (MessageMethods.reasons (MessageMethods.getModerationSummary m)).
Proof.
  intros m. split; [reflexivity|].
  apply (shouldBlock_reason_is_in_the_summary m "violence"). reflexivity.
Defined.

Lemma has_signal_summary m r x :
  Message.moderation m = Some x ->
  verdict_core x = verdict_core r ->
  has_signal r ->
  MessageMethods.blocked (MessageMethods.getModerationSummary m) = true.
Proof.
  intros Hm Hcore Hsig. unfold verdict_core in Hcore.
  injection Hcore as _ _ Hhs Hcm.
  unfold MessageMethods.getModerationSummary. rewrite Hm, Hhs, Hcm.
  cbn [MessageMethods.blocked].
  destruct Hsig as [(h & -> & Hh)|(c & -> & Hc)].
  - rewrite Hh. now destruct (Message.contentModeration r) as [c|];
      repeat match goal with
        | |- context [ContentModeration.detected ?x] =>
            destruct (ContentModeration.detected x)
        end.
  - destruct (Message.hateSpeech r) as [h|];
      [destruct (Message.hs_detected h)|];
      destruct (ContentModeration.detected (ContentModeration.nudity c)),
        (ContentModeration.detected (ContentModeration.violence c)),
        (ContentModeration.detected (ContentModeration.explicit c));
      try reflexivity; discriminate.
Qed.

(** X23. Every record the webhook stores with a blocked verdict has a
    blocked summary, whether or not the run that stored it reached its
    end: a blocked verdict always records a detected signal, and
    [getModerationSummary] reports a record blocked as soon as one signal
    is detected. *)
Theorem stored_blocked_record_has_blocked_summary :
  forall w messageData s final,
    Forall (fun x => Message._id x < nextId s)%nat (messages s) ->
    messages (snd (processIncomingMessage w messageData s))
      = messages s ++ [final] ->
    Message.moderation_status final = Message.blocked ->
    MessageMethods.status (MessageMethods.getModerationSummary final)
      = Message.blocked
    /\ MessageMethods.blocked (MessageMethods.getModerationSummary final) = true.
Proof.
  intros w md s final Hall Hms Hb.
  destruct (delivery_appended w md s final Hall Hms)
    as (user & r & m' & s1 & Hu & Hm & Hfp & -> & Hfst).
  pose proof (moderate_verdict_ok _ _ _ _ _ _ _ Hm) as Hok. cbn [fst] in Hok.
  destruct (saved_record_fields r m')
    as (_ & _ & _ & Fstatus & (x & Fmod & Fcore) & _ & _).
  rewrite Fstatus in Hb.
  unfold verdict_ok in Hok. rewrite Hb in Hok. destruct Hok as [_ Hsig].
  split.
  - cbn [MessageMethods.status MessageMethods.getModerationSummary].
    now rewrite Fstatus.
  - now apply has_signal_summary with (r := r) (x := x).
Qed.

Lemma stored_blocked_record_has_blocked_summary_witness :
  let u := Fixture.owner ["bad"] [] in
  let w := Fixture.world u None None None None None in
  let md := Fixture.inbound "text" (Some "so bad") None in
  fst (processIncomingMessage w md empty_store) = None
  /\ exists final,
       messages (snd (processIncomingMessage w md empty_store)) = [final]
       /\ MessageMethods.status (MessageMethods.getModerationSummary final)
          = Message.blocked
       /\ MessageMethods.blocked (MessageMethods.getModerationSummary final)
          = true.
Proof.
  intros u w md. split; [reflexivity|].
  eexists. split; [reflexivity|].
  apply (stored_blocked_record_has_blocked_summary w md empty_store);
    [constructor | reflexivity | reflexivity].
Defined.

(** ** routes/webhook.js: the failures of the media path *)

(** X24. An image or video message always gets a verdict, and the verdict
    is an error exactly when a service failed: the download, or the
    classifier on the downloaded media. After a failed download the
    reason is [media_download_failed] and the classifier is not called:
    the download is the only call logged. *)
Theorem media_error_iff_a_service_failed :
  forall w messageData i user s,
    type messageData = "image" \/ type messageData = "video" ->
    exists r s',
      moderate w messageData (newMessage i user messageData) user s =
        (Ok (r, newMessage i user messageData), s')
      /\ (Message.status r = Message.error <->
            match downloadMedia w (Message.mediaId (extractContent messageData)) with
            | None => True
            | Some data =>
                moderateMedia w data (type messageData) = ContentModeration.Failure
            end)
      /\ (downloadMedia w (Message.mediaId (extractContent messageData)) = None ->
            Message.reason r = Some "media_download_failed"
            /\ trace s' =
                 trace s
                 ++ [EvDownloadMedia (Message.mediaId (extractContent messageData))]).
Proof.
  intros w md i user s Hty.
  rewrite moderate_media by assumption.
  destruct (downloadMedia w (Message.mediaId (extractContent md))) as [data|] eqn:Hd.
  - destruct (processMediaMessage_downloaded w (newMessage i user md) user s data Hd)
      as [s' Hp].
    cbn [newMessage Message.messageType] in Hp.
    rewrite (bind_Ok _ _ _ _ _ Hp).
    eexists. exists s'. split; [reflexivity|]. split; [|discriminate].
    destruct (moderateMedia w data (type md)) as [|m].
    + split; reflexivity.
    + rewrite mediaVerdict_status.
      destruct (_ || _); split; discriminate.
  - unfold processMediaMessage, bind, call, ret.
    cbn [newMessage Message.content]. rewrite Hd.
    eexists. eexists. split; [reflexivity|]. cbn.
    repeat split; reflexivity.
Qed.

Lemma media_error_iff_a_service_failed_witness :
  let u := Fixture.owner [] [] in
  let w := Fixture.world u None None None None None in
  let md := Fixture.inbound "image" None Fixture.media in
  exists r s',
    moderate w md (newMessage 0 u md) u empty_store = (Ok (r, newMessage 0 u md), s')
    /\ (Message.status r = Message.error <->
          match downloadMedia w (Message.mediaId (extractContent md)) with
          | None => True
          | Some data => moderateMedia w data (type md) = ContentModeration.Failure
          end)
    /\ (downloadMedia w (Message.mediaId (extractContent md)) = None ->
          Message.reason r = Some "media_download_failed"
          /\ trace s' =
               trace empty_store
               ++ [EvDownloadMedia (Message.mediaId (extractContent md))]).
Proof.
  intros u w md.
  apply (media_error_iff_a_service_failed w md 0 u empty_store).
  left. reflexivity.
Defined.

(** ** socket/handlers.js: what a review leaves alone *)

Lemma Forall2_map_same {A} (R : A -> A -> Prop) (f : A -> A) l :
  (forall x, In x l -> R x (f x)) -> Forall2 R l (map f l).
Proof.
  induction l as [|a l IH]; intros H; cbn [map]; constructor.
  - apply H. now left.
  - apply IH. intros x Hx. apply H. now right.
Qed.

Lemma Forall2_same {A} (R : A -> A -> Prop) l :
  (forall x, R x x) -> Forall2 R l l.
Proof. intros H. induction l; constructor; auto. Qed.

(** X25. A [review_word] event changes at most the one term it names, and
    only if that term belongs to the owner of the socket: every other
    term, the terms of other owners included, the stored messages and
    the call log are as before, and the reviewed term keeps its owner,
    word and count. *)
Theorem review_changes_only_the_owners_term :
  forall w uid data s,
    NoDup (map NewWord._id (newWords s)) ->
    messages (snd (review_word w uid data s)) = messages s
    /\ trace (snd (review_word w uid data s)) = trace s
    /\ Forall2 (reviewed_as uid (wordId data))
         (newWords s) (newWords (snd (review_word w uid data s))).
Proof.
  intros w uid data s Hnd. unfold review_word, bind. cbn [get_newWords].
  destruct (find _ (newWords s)) as [nw|] eqn:Efind;
    [|repeat split; apply Forall2_same; now left].
  apply find_some in Efind as [Hin Hfound].
  apply andb_true_iff in Hfound as [Hwid Huid].
  apply Nat.eqb_eq in Hwid, Huid.
  destruct (apply_action w data nw) as [nw'|] eqn:Ea;
    [|repeat split; apply Forall2_same; now left].
  assert (NewWord._id nw' = NewWord._id nw /\ term_key nw' = term_key nw
          /\ NewWord.frequency nw' = NewWord.frequency nw
          /\ NewWord.originalText nw' = NewWord.originalText nw)
    as (Hi & Hk & Hf & Ho).
  { unfold apply_action in Ea.
    destruct (action data =? "approve");
      [|destruct (action data =? "reject");
        [|destruct (action data =? "ignore"); [|discriminate]]];
      injection Ea as <-; now repeat split. }
  unfold NewWord_update, get_newWords, put_newWords, bind, ret.
  cbn [snd messages trace newWords].
  split; [reflexivity|]. split; [reflexivity|].
  apply Forall2_map_same. intros x Hx.
  destruct (Nat.eqb_spec (NewWord._id x) (NewWord._id nw')) as [E|_];
    [|now left].
  assert (x = nw) as -> by (eapply NoDup_map_unique; eauto; congruence).
  right. now repeat split.
Qed.

Lemma review_changes_only_the_owners_term_witness :
  let other :=
    {| NewWord._id := 2; NewWord.userId := 9; NewWord.word := "xyz";
       NewWord.originalText := None;
       NewWord.frequency := 4; NewWord.firstDetected := 1;
       NewWord.lastDetected := 2; NewWord.confidence := 7 # 10;
       NewWord.status := NewWord.pending;
       NewWord.userDecision :=
         {| NewWord.markedAsHateSpeech := false;
            NewWord.decisionDate := None;
            NewWord.decisionReason := None |};
       NewWord.updatedAt := 2 |} in
  let s := {| messages := []; newWords := [other; ReviewFixture.term];
              nextId := 6; trace := [] |} in
  let s' := snd (review_word ReviewFixture.world 1 ReviewFixture.approve s) in
  nth_error (newWords s') 0 = Some other
  /\ Forall2 (reviewed_as 1 5) (newWords s) (newWords s').
Proof.
  intros other s s'. split; [reflexivity|].
  apply (review_changes_only_the_owners_term
           ReviewFixture.world 1 ReviewFixture.approve s).
  cbn. repeat constructor; cbn; intuition discriminate.
Defined.

(** ** The review queue *)

Module Import QueueFacts.
Import NewWordStatics.

Lemma before_total x y : before x y = false -> before y x = true.
Proof.
  unfold before. intros H.
  apply orb_false_iff in H as [H1 H2]. apply Nat.ltb_ge in H1.
  apply andb_false_iff in H2.
  apply orb_true_iff.
  destruct (Nat.eq_dec (NewWord.frequency x) (NewWord.frequency y)) as [E|E].
  - right. apply andb_true_iff. split; [apply Nat.eqb_eq; lia|].
    destruct H2 as [H2|H2]; [apply Nat.eqb_neq in H2; lia|].
    apply Nat.leb_gt in H2. apply Nat.leb_le. lia.
  - left. apply Nat.ltb_lt. lia.
Qed.

Lemma before_trans x y z :
  before x y = true -> before y z = true -> before x z = true.
Proof.
  unfold before. intros H1 H2.
  apply orb_true_iff in H1, H2. apply orb_true_iff.
  destruct H1 as [H1|H1], H2 as [H2|H2];
    repeat match goal with
      | H : (_ <? _)%nat = true |- _ => apply Nat.ltb_lt in H
      | H : _ && _ = true |- _ => apply andb_true_iff in H as [? ?]
      | H : (_ =? _)%nat = true |- _ => apply Nat.eqb_eq in H
      | H : (_ <=? _)%nat = true |- _ => apply Nat.leb_le in H
      end.
  - left. apply Nat.ltb_lt. lia.
  - left. apply Nat.ltb_lt. lia.
  - left. apply Nat.ltb_lt. lia.
  - right. apply andb_true_iff.
    split; [apply Nat.eqb_eq|apply Nat.leb_le]; lia.
Qed.

Lemma insert_perm x l : Permutation (insert x l) (x :: l).
Proof.
  induction l as [|y l IH]; cbn; [constructor; constructor|].
  destruct (before x y); [apply Permutation_refl|].
  eapply perm_trans; [apply perm_skip, IH|apply perm_swap].
Qed.

Lemma sort_perm l : Permutation (sort l) l.
Proof.
  induction l as [|x l IH]; cbn; [constructor|].
  eapply perm_trans; [apply insert_perm|now apply perm_skip].
Qed.

Lemma insert_sorted x l :
  StronglySorted (fun a b => before a b = true) l ->
  StronglySorted (fun a b => before a b = true) (insert x l).
Proof.
  induction l as [|y l IH]; cbn; intros Hs;
    [constructor; constructor|].
  inversion Hs as [|? ? Hs' Hall]; subst.
  destruct (before x y) eqn:E.
  - constructor; [assumption|]. constructor; [assumption|].
    eapply Forall_impl; [|exact Hall]. cbn. intros z Hz.
    now apply before_trans with (y := y).
  - constructor; [now apply IH|].
    apply Forall_forall. intros z Hz.
    apply (Permutation_in _ (insert_perm x l)) in Hz. destruct Hz as [<-|Hz].
    + now apply before_total.
    + rewrite Forall_forall in Hall. now apply Hall.
Qed.

Lemma sort_sorted l : StronglySorted (fun a b => before a b = true) (sort l).
Proof.
  induction l as [|x l IH]; cbn; [constructor|now apply insert_sorted].
Qed.

Lemma sorted_app {A} (R : A -> A -> Prop) l1 l2 :
  StronglySorted R (l1 ++ l2) ->
  StronglySorted R l1 /\ forall x y, In x l1 -> In y l2 -> R x y.
Proof.
  induction l1 as [|a l1 IH]; cbn; intros Hs;
    [split; [constructor|intros ? ? []]|].
  inversion Hs as [|? ? Hs' Hall]; subst.
  destruct (IH Hs') as [I1 I2]. rewrite Forall_forall in Hall. split.
  - constructor; [assumption|]. apply Forall_forall. intros z Hz.
    apply Hall. apply in_or_app. now left.
  - intros x y [<-|Hx] Hy; [apply Hall; apply in_or_app; now right|].
    now apply I2.
Qed.

End QueueFacts.

Lemma before_ranks x y :
  NewWordStatics.before x y = true <-> ranks_before x y.
Proof.
  unfold NewWordStatics.before, ranks_before.
  rewrite orb_true_iff, andb_true_iff, Nat.ltb_lt, Nat.eqb_eq, Nat.leb_le.
  reflexivity.
Qed.

Lemma StronglySorted_impl {A} (R R' : A -> A -> Prop) l :
  (forall x y, R x y -> R' x y) -> StronglySorted R l -> StronglySorted R' l.
Proof.
  intros H. induction 1 as [|a l Hs IH Hall]; constructor; [assumption|].
  eapply Forall_impl; [|exact Hall]. cbn. auto.
Qed.

(** X26. [findPendingReview] returns the head of the owner's pending
    terms, most frequent first and, on equal counts, most recently
    detected first. The returned terms together with the ones left out
    are exactly the pending terms of that owner; the returned ones are
    in descending order of count, then of last detection; a positive
    limit bounds their number; every term left out ranks no higher than
    each returned one; and terms are left out only when the limit is
    reached. *)
Theorem findPendingReview_returns_the_most_frequent :
  forall ws userId n,
    let result := NewWordStatics.findPendingReview ws userId n in
    StronglySorted ranks_before result
    /\ (n <> 0%nat -> (length result <= n)%nat)
    /\ exists rest,
         Permutation (result ++ rest)
           (filter (NewWordStatics.pending_of userId) ws)
         /\ (forall x,
               In x (result ++ rest)
               <-> In x ws /\ NewWord.userId x = userId
                   /\ NewWord.status x = NewWord.pending)
         /\ (rest = [] \/ length result = n)
         /\ forall x y, In x result -> In y rest -> ranks_before x y.
Proof.
  intros ws uid n. cbv zeta. unfold NewWordStatics.findPendingReview.
  set (l := filter (NewWordStatics.pending_of uid) ws).
  pose proof (sort_perm l) as Hperm.
  pose proof (sort_sorted l) as Hsorted.
  assert (forall x, In x (NewWordStatics.sort l) <->
            In x ws /\ NewWord.userId x = uid
            /\ NewWord.status x = NewWord.pending) as Hin.
  { intros x. split.
    - intros Hx. apply (Permutation_in _ Hperm) in Hx.
      apply filter_In in Hx as [Hx Hp]. split; [assumption|].
      unfold NewWordStatics.pending_of in Hp.
      apply andb_true_iff in Hp as [Hu Hs]. apply Nat.eqb_eq in Hu.
      split; [assumption|]. now destruct (NewWord.status x).
    - intros (Hx & Hu & Hs).
      apply (Permutation_in _ (Permutation_sym Hperm)).
      apply filter_In. split; [assumption|].
      unfold NewWordStatics.pending_of. rewrite Hu, Hs, Nat.eqb_refl.
      reflexivity. }
  unfold NewWordStatics.limit. destruct (Nat.eqb_spec n 0) as [->|Hn].
  - split; [eapply StronglySorted_impl; [|exact Hsorted];
            intros x y; apply before_ranks|].
    split; [now intros []|].
    exists []. rewrite app_nil_r. split; [assumption|].
    split; [assumption|]. split; [now left|intros ? ? _ []].
  - pose proof (firstn_skipn n (NewWordStatics.sort l)) as Hsplit.
    rewrite <- Hsplit in Hsorted.
    apply sorted_app in Hsorted as [Hs1 Hs2].
    split; [eapply StronglySorted_impl; [|exact Hs1];
            intros x y; apply before_ranks|].
    split; [intros _; apply firstn_le_length|].
    exists (skipn n (NewWordStatics.sort l)). rewrite Hsplit.
    split; [assumption|]. split; [assumption|]. split.
    + destruct (Nat.le_gt_cases n (length (NewWordStatics.sort l)))
        as [Hle|Hgt].
      * right. now apply firstn_length_le.
      * left. apply skipn_all2. lia.
    + intros x y Hx Hy. apply before_ranks. now apply Hs2.
Qed.

(** ** The audio check *)

Module Import HexFacts.
Import SpeechToText.

Lemma hex_digit_inj a0 a1 a2 a3 b0 b1 b2 b3 :
  hex_digit a0 a1 a2 a3 = hex_digit b0 b1 b2 b3 ->
  a0 = b0 /\ a1 = b1 /\ a2 = b2 /\ a3 = b3.
Proof.
  destruct a0, a1, a2, a3, b0, b1, b2, b3; cbn; intros H;
    first [discriminate H | repeat split].
Qed.

Lemma prefix_toString_hex p b :
  prefix (toString_hex p) (toString_hex b) = prefix p b.
Proof.
  revert b. induction p as [|[a0 a1 a2 a3 a4 a5 a6 a7] p IH]; intros b;
    [now destruct b as [|[]]|].
  destruct b as [|[b0 b1 b2 b3 b4 b5 b6 b7] b]; [reflexivity|].
  cbn [toString_hex prefix].
  destruct (ascii_dec (Ascii a0 a1 a2 a3 a4 a5 a6 a7)
              (Ascii b0 b1 b2 b3 b4 b5 b6 b7)) as [E|E].
  - injection E as -> -> -> -> -> -> -> ->.
    destruct (ascii_dec _ _) as [_|N]; [|now elim N].
    destruct (ascii_dec _ _) as [_|N]; [|now elim N].
    apply IH.
  - destruct (ascii_dec (hex_digit a4 a5 a6 a7) (hex_digit b4 b5 b6 b7))
      as [Eh|_]; [|reflexivity].
    destruct (ascii_dec (hex_digit a0 a1 a2 a3) (hex_digit b0 b1 b2 b3))
      as [El|_]; [|reflexivity].
    apply hex_digit_inj in Eh as (-> & -> & -> & ->).
    apply hex_digit_inj in El as (-> & -> & -> & ->).
    now elim E.
Qed.

Lemma prefix_slice0 n p b :
  (String.length p <= n)%nat -> prefix p (slice0 n b) = prefix p b.
Proof.
  unfold slice0. revert p b. induction n as [|n IH]; intros p b Hlen.
  - destruct p; [now destruct b|cbn in Hlen; lia].
  - destruct p as [|a p]; [now destruct b|].
    destruct b as [|c b]; [reflexivity|].
    cbn [substring prefix]. destruct (ascii_dec a c); [|reflexivity].
    apply IH. cbn in Hlen. lia.
Qed.

(** The test on the hex dump of the header is a test on the first bytes
    of the buffer. *)
Lemma header_test buffer magic :
  (String.length magic <= 4)%nat ->
  startsWith (toString_hex (slice0 4 buffer)) (toString_hex magic)
  = prefix magic buffer.
Proof.
  intros Hlen. unfold startsWith.
  now rewrite prefix_toString_hex, prefix_slice0.
Qed.

Lemma prefix_first a p c q b :
  prefix (String a p) b = true -> prefix (String c q) b = true -> a = c.
Proof.
  destruct b as [|x b]; cbn; [discriminate|].
  destruct (ascii_dec a x), (ascii_dec c x); try discriminate. congruence.
Qed.

End HexFacts.

(** X27. [validateAudio] accepts a buffer exactly when it is no longer
    than the limit and opens with the bytes [RIFF], [ID3] or [ftyp], and
    the format it reports is [wav], [mp3] or [m4a] accordingly: the test
    on the hex dump of the four-byte header is a test on the leading
    bytes themselves. *)
Theorem validateAudio_accepts_by_leading_bytes :
  forall audioBuffer maxSizeMB format,
    SpeechToText.validateAudio audioBuffer maxSizeMB = SpeechToText.Valid format
    <->
    (N.of_nat (String.length audioBuffer) <= maxSizeMB * 1024 * 1024)%N
    /\ ((format = "wav" /\ prefix "RIFF" audioBuffer = true)
        \/ (format = "mp3" /\ prefix "ID3" audioBuffer = true)
        \/ (format = "m4a" /\ prefix "ftyp" audioBuffer = true)).
Proof.
  intros buf maxMB fmt. unfold SpeechToText.validateAudio. cbv zeta.
  change "52494646" with (SpeechToText.toString_hex "RIFF").
  change "494433" with (SpeechToText.toString_hex "ID3").
  change "66747970" with (SpeechToText.toString_hex "ftyp").
  rewrite !header_test by (cbn; lia).
  destruct (N.ltb_spec (maxMB * 1024 * 1024) (N.of_nat (String.length buf)))
    as [Hbig|Hok].
  { split; [discriminate|]. intros [Hle _]. lia. }
  destruct (prefix "RIFF" buf) eqn:Ewav; cbn [negb andb].
  { split.
    - intros H. injection H as <-. split; [assumption|]. now left.
    - intros [_ [[-> _]|[[_ H]|[_ H]]]]; [reflexivity| |];
        pose proof (prefix_first _ _ _ _ _ Ewav H); discriminate. }
  destruct (prefix "ID3" buf) eqn:Emp3; cbn [negb andb].
  { split.
    - intros H. injection H as <-. split; [assumption|]. right. now left.
    - intros [_ [[_ H]|[[-> _]|[_ H]]]]; [discriminate|reflexivity|].
      pose proof (prefix_first _ _ _ _ _ Emp3 H); discriminate. }
  destruct (prefix "ftyp" buf) eqn:Em4a; cbn [negb andb].
  { split.
    - intros H. injection H as <-. split; [assumption|]. right. now right.
    - intros [_ [[_ H]|[[_ H]|[-> _]]]]; [discriminate|discriminate|reflexivity]. }
  split; [discriminate|].
  intros [_ [[_ H]|[[_ H]|[_ H]]]]; discriminate.
Qed.
